(** * ragDemo: a shallow embedding of the pipeline's utilities

    The development follows the layout of the repository:
    - [error_logger]   : [utils/error_logger.py]  (class [APIErrorTracker])
    - [confluence_api] : [utils/confluence_api.py]
    - [openai_logic]   : [utils/openai_logic.py]
    - [data_prep]      : [utils/data_prep.py]
    - [app]            : the ingestion refresh of [app_pinecone_openai.py]

    Python objects are modelled by the type [value]; dictionaries that the
    code keeps as [defaultdict] are finite maps ([gmap]); a pandas frame is
    a list of labelled rows, each row a finite map from column names to
    values.  Effects (the process-wide tracker, the clock, the log files,
    the requests sent to the external services) are threaded through a state
    and exception monad.  The external services and the library functions
    the code calls ([json.dumps], [json.loads], [str], [strftime], the
    OpenAI and Confluence endpoints) are the fields of an environment
    record [Env]. *)

From Stdlib Require Import QArith Lqa.
From stdpp Require Import gmap strings list fin_maps pretty.

Set Warnings "-register-all,-clear-no-such-hyp,-abstract-large-number".

(* ===================================================================== *)
(** * Part I: the model                                                    *)
(* ===================================================================== *)

(** ** Python values and exceptions *)

Module python.

(** The Python objects that flow through the code: [None], booleans,
    integers, floats (as rationals, with [nan] apart), strings, lists and
    dictionaries (insertion ordered, as association lists). *)
Inductive value : Type :=
| VNone
| VBool (b : bool)
| VInt (n : Z)
| VFloat (q : Q)
| VNaN
| VStr (s : string)
| VList (l : list value)
| VDict (d : list (string * value)).

(** The exception classes the code raises, catches or lets through. *)
Inductive exn : Type :=
| RateLimitError
| APIConnectionError
| APIError (status_code : option Z)
| JSONDecodeError
| TypeError
| AttributeError
| KeyError
| OSError
| OtherException (name : string).

(** [type(e).__name__] *)
Definition exn_name (e : exn) : string :=
  match e with
  | RateLimitError => "RateLimitError"
  | APIConnectionError => "APIConnectionError"
  | APIError _ => "APIError"
  | JSONDecodeError => "JSONDecodeError"
  | TypeError => "TypeError"
  | AttributeError => "AttributeError"
  | KeyError => "KeyError"
  | OSError => "OSError"
  | OtherException name => name
  end.

(** The result of running a piece of code: a value or a raised exception. *)
Inductive outcome (A : Type) : Type :=
| Ok (a : A)
| Raise (e : exn).
Arguments Ok {A} a.
Arguments Raise {A} e.

Definition Qltb (x y : Q) : bool := negb (Qle_bool y x).

(** [bool(v)]: Python truthiness. *)
Definition truthy (v : value) : bool :=
  match v with
  | VNone => false
  | VBool b => b
  | VInt n => negb (n =? 0)%Z
  | VFloat q => negb (Qeq_bool q 0)
  | VNaN => true
  | VStr s => negb (String.eqb s "")
  | VList l => match l with [] => false | _ => true end
  | VDict d => match d with [] => false | _ => true end
  end.

(** [d.get(k)] on a dictionary: the value bound to the key, if any. *)
Fixpoint dict_get (d : list (string * value)) (k : string) : option value :=
  match d with
  | [] => None
  | (k', v) :: d' => if String.eqb k' k then Some v else dict_get d' k
  end.

(** [v == s] for a string literal [s]. *)
Definition str_eq (v : value) (s : string) : bool :=
  match v with
  | VStr s' => String.eqb s' s
  | _ => false
  end.

(** [isinstance(v, list)]. *)
Definition is_list (v : value) : bool :=
  match v with
  | VList _ => true
  | _ => false
  end.

(** [pd.isna(v)] on a cell. *)
Definition is_na (v : value) : bool :=
  match v with
  | VNone | VNaN => true
  | _ => false
  end.

Definition chars (s : string) : list value :=
  (fun c => VStr (String c EmptyString)) <$> String.list_ascii_of_string s.

(** The elements a [for] loop (or [list.extend]) draws from a value;
    [None] stands for the [TypeError] of a value that is not iterable. *)
Definition py_iter (v : value) : option (list value) :=
  match v with
  | VList l => Some l
  | VStr s => Some (chars s)
  | VDict d => Some ((fun kv => VStr (fst kv)) <$> d)
  | _ => None
  end.

(** [len(v)]; [None] stands for the [TypeError] of an unsized value. *)
Definition py_len (v : value) : option nat :=
  match v with
  | VList l => Some (length l)
  | VStr s => Some (String.length s)
  | VDict d => Some (length d)
  | _ => None
  end.

End python.
Import python.

(** ** pandas frames *)

Module pandas.

(** A row is a pandas [Series]: a finite map from column labels to cells. *)
Abbreviation row := (gmap string value).

(** A frame: its column labels and its rows, each with its index label. *)
Record DataFrame : Type := mkDataFrame {
  columns : list string;
  rows : list (Z * row)
}.

(** [pd.DataFrame(columns=cols)] *)
Definition empty_frame (cols : list string) : DataFrame :=
  mkDataFrame cols [].

(** [df.empty]: no row or no column. *)
Definition df_empty (df : DataFrame) : bool :=
  match rows df, columns df with
  | [], _ => true
  | _, [] => true
  | _, _ => false
  end.

Definition has_column (c : string) (df : DataFrame) : bool :=
  bool_decide (c ∈ columns df).

Definition labels (df : DataFrame) : list Z := fst <$> rows df.

(** [df[c] = df.apply(f, axis=1)]: set (or add) a column, cell by cell. *)
Definition set_column (c : string) (f : Z -> row -> value) (df : DataFrame)
  : DataFrame :=
  mkDataFrame
    (if has_column c df then columns df else columns df ++ [c])
    ((fun ir => (fst ir, <[c := f (fst ir) (snd ir)]> (snd ir))) <$> rows df).

(** [df[mask]] for a row-wise boolean mask. *)
Definition filter_rows (p : row -> bool) (df : DataFrame) : DataFrame :=
  mkDataFrame (columns df) (List.filter (fun ir => p (snd ir)) (rows df)).

(** [df[cols]]: keep the listed columns only, in the listed order. *)
Definition select_columns (cols : list string) (df : DataFrame) : DataFrame :=
  mkDataFrame cols
    ((fun ir => (fst ir,
        filter (fun kv => kv.1 ∈ cols) (snd ir))) <$> rows df).

(** [row[c]]: the cell of a row under a column; a cell the map does not
    hold is a missing value. *)
Definition cell (r : row) (c : string) : value := default VNaN (r !! c).

(** [df.rename(columns={old: new})] for a frame that has the column [old]
    and no column called [new] yet. *)
Definition rename_column (old new : string) (df : DataFrame) : DataFrame :=
  mkDataFrame
    ((fun c => if String.eqb c old then new else c) <$> columns df)
    ((fun ir => (fst ir, <[new := cell (snd ir) old]> (delete old (snd ir))))
       <$> rows df).

(** [df.drop(c, axis=1)] *)
Definition drop_column (c : string) (df : DataFrame) : DataFrame :=
  mkDataFrame
    (List.filter (fun c' => negb (String.eqb c' c)) (columns df))
    ((fun ir => (fst ir, delete c (snd ir))) <$> rows df).

(** [df.at[index, c] = v]: the rows labelled [index] get the cell. *)
Definition at_set (index : Z) (c : string) (v : value) (df : DataFrame)
  : DataFrame :=
  mkDataFrame (columns df)
    ((fun ir => if (fst ir =? index)%Z
                then (fst ir, <[c := v]> (snd ir)) else ir) <$> rows df).

(** [df.iloc[i:j]] *)
Definition iloc (i j : nat) (df : DataFrame) : DataFrame :=
  mkDataFrame (columns df) (take (j - i) (drop i (rows df))).

(** [pd.concat([a, b])]: rows of [a] then rows of [b], columns united. *)
Definition pd_concat (a b : DataFrame) : DataFrame :=
  mkDataFrame
    (columns a ++ List.filter (fun c => negb (bool_decide (c ∈ columns a)))
                     (columns b))
    (rows a ++ rows b).

End pandas.
Import pandas.

(** ** The environment, the process state and the monad of effects *)

Module runtime.

(** What an external service answers to one request. *)
Inductive api_result (A : Type) : Type :=
| Answer (a : A)
| Failure (e : exn).
Arguments Answer {A} a.
Arguments Failure {A} e.

(** The library functions and the outside world the code talks to.  The
    OpenAI endpoints answer by request number, so that a retry of the same
    request may be answered differently. *)
Record Env : Type := mkEnv {
  (** [json.dumps] *)
  json_dumps : value -> string;
  (** [json.loads]; [None] is [json.JSONDecodeError] *)
  json_loads : string -> option value;
  (** [str(...)] *)
  py_str : value -> string;
  (** [round(x, 2)] *)
  round2 : Q -> Q;
  (** [datetime.datetime.now().strftime(fmt)] at a clock reading *)
  strftime : string -> Q -> string;
  (** does [open(path, "a")] followed by [write] go through? *)
  fs_appendable : string -> bool;
  (** [openai_client.embeddings.create(...).data[0].embedding] *)
  embeddings_create : nat -> value -> api_result (list Q);
  (** [openai_client.chat.completions.create(...).choices[0].message.content] *)
  chat_completions_create : nat -> api_result string;
  (** the environment variable [CONFLUENCE_DOMAIN] *)
  confluence_domain : string;
  (** [api_call(url)] of the Confluence client: the parsed JSON object of a
      200 response, [None] on every failure *)
  api_call : string -> option (list (string * value));
  (** does the k-th [upsert_data] call go through? *)
  upsert_ok : nat -> bool;
  (** [pd.read_csv(csv_file, usecols=['id', 'tiny_link', 'content'])]: the
      records of the file, each with its three cells, or [None] when the
      file is missing or cannot be read *)
  read_csv : string -> option (list (value * value * value))
}.

(** A loop that may not have finished when the fuel ran out. *)
Inductive fuelled (A : Type) : Type :=
| Done (a : A)
| OutOfFuel.
Arguments Done {A} a.
Arguments OutOfFuel {A}.

(** The observable actions a run leaves behind, oldest first. *)
Inductive event : Type :=
| EvSleep (seconds : Q)
| EvShouldContinue (error_type : string) (answer : bool)
| EvCreateEmbeddings (text : value)
| EvChatRequest.

(** [class APIErrorTracker]: the three [defaultdict]s and the log directory. *)
Record APIErrorTracker : Type := mkTracker {
  log_dir : string;
  error_counts : gmap string Z;
  last_error_time : gmap string Q;
  success_counts : gmap string Z
}.

(** The state of the process: the module-level tracker instance, the
    clock ([time.time()], in seconds), the files on disk (a file is the
    list of the lines appended to it), the number of requests sent so far
    to the two OpenAI endpoints, and the trace of observable actions. *)
Record world : Type := mkWorld {
  error_tracker : APIErrorTracker;
  clock : Q;
  files : gmap string (list string);
  embedding_requests : nat;
  chat_requests : nat;
  trace : list event
}.

Definition with_tracker (f : APIErrorTracker -> APIErrorTracker) (w : world)
  : world :=
  mkWorld (f (error_tracker w)) (clock w) (files w) (embedding_requests w)
          (chat_requests w) (trace w).

Definition with_error_counts (f : gmap string Z -> gmap string Z)
    (t : APIErrorTracker) : APIErrorTracker :=
  mkTracker (log_dir t) (f (error_counts t)) (last_error_time t)
            (success_counts t).

Definition with_last_error_time (f : gmap string Q -> gmap string Q)
    (t : APIErrorTracker) : APIErrorTracker :=
  mkTracker (log_dir t) (error_counts t) (f (last_error_time t))
            (success_counts t).

Definition with_success_counts (f : gmap string Z -> gmap string Z)
    (t : APIErrorTracker) : APIErrorTracker :=
  mkTracker (log_dir t) (error_counts t) (last_error_time t)
            (f (success_counts t)).

Definition with_files (f : gmap string (list string) -> gmap string (list string))
    (w : world) : world :=
  mkWorld (error_tracker w) (clock w) (f (files w)) (embedding_requests w)
          (chat_requests w) (trace w).

Definition emit (e : event) (w : world) : world :=
  mkWorld (error_tracker w) (clock w) (files w) (embedding_requests w)
          (chat_requests w) (trace w ++ [e]).

(** State and exception monad over a state [S]. *)
Definition M (S A : Type) : Type := S -> outcome A * S.

Definition ret {S A} (a : A) : M S A := fun s => (Ok a, s).

Definition bind {S A B} (m : M S A) (k : A -> M S B) : M S B :=
  fun s => match m s with
           | (Ok a, s') => k a s'
           | (Raise e, s') => (Raise e, s')
           end.

Definition raise {S A} (e : exn) : M S A := fun s => (Raise e, s).

(** [try: m  except Exception as e: h e] *)
Definition try_except {S A} (m : M S A) (h : exn -> M S A) : M S A :=
  fun s => match m s with
           | (Ok a, s') => (Ok a, s')
           | (Raise e, s') => h e s'
           end.

Definition get {S} : M S S := fun s => (Ok s, s).
Definition modify {S} (f : S -> S) : M S unit := fun s => (Ok tt, f s).

Notation "x <- c1 ;; c2" := (bind c1 (fun x => c2))
  (at level 100, c1 at next level, right associativity).
Notation "c1 ;;; c2" := (bind c1 (fun _ => c2))
  (at level 100, right associativity).

(** [time.time()] *)
Definition time_time : M world Q := fun w => (Ok (clock w), w).

(** [time.sleep(seconds)] *)
Definition time_sleep (seconds : Q) : M world unit :=
  fun w => (Ok tt,
            mkWorld (error_tracker w) (clock w + seconds) (files w)
                    (embedding_requests w) (chat_requests w)
                    (trace w ++ [EvSleep seconds])).

(** [with open(path, "a") as f: f.write(line + "\n")] *)
Definition append_line (E : Env) (path line : string) : M world unit :=
  fun w => if fs_appendable E path
           then (Ok tt,
                 with_files (fun fs => <[path := default [] (fs !! path) ++ [line]]> fs) w)
           else (Raise OSError, w).

End runtime.
Import runtime.

(** ** utils/error_logger.py *)

Module error_logger.

(** [APIErrorTracker.__init__]: three empty [defaultdict]s. *)
Definition init (log_dir : string) : APIErrorTracker :=
  mkTracker log_dir ∅ ∅ ∅.

(** The dictionary written to the log, in the order the source builds it. *)
Definition log_entry (E : Env) (now : Q) (error_type : string)
    (details : value) (api_type : string) (count : Z) : value :=
  VDict [("timestamp", VStr (strftime E "%Y-%m-%d %H:%M:%S" now));
         ("api_type", VStr api_type);
         ("error_type", VStr error_type);
         ("details", VStr (py_str E details));
         ("count", VInt count)].

Definition log_filename (E : Env) (log_dir api_type : string) (now : Q)
  : string :=
  log_dir +:+ "/" +:+ api_type +:+ "_errors_" +:+ strftime E "%Y-%m-%d" now
          +:+ ".log".

(** [APIErrorTracker.log_error] *)
Definition log_error (E : Env) (error_type : string) (details : value)
    (api_type : string) : M world value :=
  modify (with_tracker (with_error_counts (fun c =>
    <[error_type := (default 0 (c !! error_type) + 1)%Z]> c))) ;;;
  now <- time_time ;;
  modify (with_tracker (with_last_error_time (fun l =>
    <[error_type := now]> l))) ;;;
  w <- get ;;
  let count := default 0%Z (error_counts (error_tracker w) !! error_type) in
  let entry := log_entry E (clock w) error_type details api_type count in
  append_line E (log_filename E (log_dir (error_tracker w)) api_type (clock w))
              (json_dumps E entry) ;;;
  ret entry.

(** [APIErrorTracker.log_success] *)
Definition log_success (operation_type : string) : M world unit :=
  modify (with_tracker (with_success_counts (fun c =>
    <[operation_type := (default 0 (c !! operation_type) + 1)%Z]> c))).

(** The dictionary [get_error_summary] returns, one field per key. *)
Record ErrorSummary : Type := mkSummary {
  total_errors : Z;
  error_types : gmap string Z;
  summary_success_counts : gmap string Z;
  time_since_last_error : gmap string Q
}.

(** [sum(d.values())] *)
Definition sum_values (d : gmap string Z) : Z :=
  map_fold (fun _ v acc => (v + acc)%Z) 0%Z d.

(** [APIErrorTracker.get_error_summary] *)
Definition get_error_summary (E : Env) : M world ErrorSummary :=
  w <- get ;;
  let t := error_tracker w in
  current_time <- time_time ;;
  ret (mkSummary
         (sum_values (error_counts t))
         (error_counts t)
         (success_counts t)
         ((fun last_time => round2 E (current_time - last_time))
            <$> filter (fun kv => Qltb 0 kv.2 = true) (last_error_time t))).

(** [APIErrorTracker.should_continue].  Reading a [defaultdict] at a
    missing key inserts the default, which the model does for
    [last_error_time]; [error_counts] is only read at a key it holds. *)
Definition should_continue (error_type : string) (threshold : Z)
    (window_seconds : Q) : M world bool :=
  w <- get ;;
  match error_counts (error_tracker w) !! error_type with
  | None => ret true
  | Some count =>
      if (count <? threshold)%Z then ret true
      else
        current_time <- time_time ;;
        modify (with_tracker (with_last_error_time (fun l =>
          match l !! error_type with
          | Some _ => l
          | None => <[error_type := 0%Q]> l
          end))) ;;;
        w' <- get ;;
        let last := default 0%Q (last_error_time (error_tracker w') !! error_type) in
        let time_since_last := (current_time - last)%Q in
        if Qltb window_seconds time_since_last
        then modify (with_tracker (with_error_counts (fun c =>
               <[error_type := 0%Z]> c))) ;;;
             ret true
        else ret false
  end.

End error_logger.
Import error_logger.

(** ** Histories of calls on the tracker *)

Module history.

(** Where a computation leaves the state, and what it returns. *)
Definition exec {S A} (m : M S A) (s : S) : S := snd (m s).
Definition result {S A} (m : M S A) (s : S) : outcome A := fst (m s).

(** The calls a client can make on the tracker, and time passing. *)
Inductive tracker_call : Type :=
| CallLogError (error_type : string) (details : value) (api_type : string)
| CallLogSuccess (operation_type : string)
| CallShouldContinue (error_type : string) (threshold : Z) (window_seconds : Q)
| CallGetErrorSummary
| CallSleep (seconds : Q).

Definition do_call (E : Env) (c : tracker_call) (w : world) : world :=
  match c with
  | CallLogError ty details api => exec (log_error E ty details api) w
  | CallLogSuccess op => exec (log_success op) w
  | CallShouldContinue ty th win => exec (should_continue ty th win) w
  | CallGetErrorSummary => exec (get_error_summary E) w
  | CallSleep q => exec (time_sleep q) w
  end.

Definition run_calls (E : Env) (cs : list tracker_call) (w : world) : world :=
  foldl (fun w c => do_call E c w) w cs.

(** The error types logged at least once in a history. *)
Fixpoint logged_types (cs : list tracker_call) : gset string :=
  match cs with
  | [] => ∅
  | CallLogError ty _ _ :: cs' => {[ty]} ∪ logged_types cs'
  | _ :: cs' => logged_types cs'
  end.

(** Time does not run backwards. *)
Definition sleeps_forward (cs : list tracker_call) : Prop :=
  Forall (fun c => match c with CallSleep q => (0 <= q)%Q | _ => True end) cs.

(** The process at start-up: a fresh tracker, nothing sent yet. *)
Definition startup (log_dir : string) (now : Q)
    (fs : gmap string (list string)) : world :=
  mkWorld (init log_dir) now fs 0 0 [].

(** [n] errors of one type logged in a row. *)
Fixpoint log_errors (E : Env) (n : nat) (error_type : string)
    (details : value) (api_type : string) (w : world) : world :=
  match n with
  | O => w
  | S n' => log_errors E n' error_type details api_type
              (exec (log_error E error_type details api_type) w)
  end.

End history.
Import history.

(** ** Vocabulary of the statements about the tracker *)

Module tracker_spec.

(** The count the tracker holds for a type, if the type was ever logged. *)
Definition error_count (w : world) (error_type : string) : option Z :=
  error_counts (error_tracker w) !! error_type.

(** Seconds since the last error of a type (since the epoch if none). *)
Definition elapsed_since_last (w : world) (error_type : string) : Q :=
  (clock w - default 0 (last_error_time (error_tracker w) !! error_type))%Q.

(** The sum of a list of per-type counts. *)
Definition total (counts : list (string * Z)) : Z :=
  foldr (fun kv acc => (kv.2 + acc)%Z) 0%Z counts.

(** What holds of the tracker after any history: the same types have a
    count and a last-error time, and these times are positive. *)
Definition tracker_inv (w : world) (L : gset string) : Prop :=
  dom (error_counts (error_tracker w)) = L
  /\ dom (last_error_time (error_tracker w)) = L
  /\ map_Forall (fun _ t => (0 < t)%Q) (last_error_time (error_tracker w))
  /\ (0 < clock w)%Q.

End tracker_spec.
Import tracker_spec.

(** ** utils/confluence_api.py *)

Module confluence_api.

Definition spaces_url (E : Env) (start limit : Z) : string :=
  confluence_domain E +:+ "/wiki/api/v2/spaces?limit=" +:+ pretty limit
    +:+ "&start=" +:+ pretty start.

(** [get_all_spaces(start, limit)] *)
Definition get_all_spaces (E : Env) (start limit : Z)
  : option (list (string * value)) :=
  api_call E (spaces_url E start limit).

(** The [while True] loop of [get_all_spaces_list].  Beside the outcome it
    returns the start offsets it has requested, oldest first. *)
Fixpoint spaces_loop (E : Env) (fuel : nat) (start limit : Z)
    (all_spaces : list value) (requested : list Z)
  : fuelled (outcome (list value)) * list Z :=
  match fuel with
  | O => (OutOfFuel, requested)
  | S fuel' =>
      let requested := requested ++ [start] in
      match get_all_spaces E start limit with
      | None | Some [] => (Done (Ok all_spaces), requested)
      | Some spaces_data =>
          match dict_get spaces_data "results" with
          | None => (Done (Ok all_spaces), requested)
          | Some results =>
              if negb (truthy results) then (Done (Ok all_spaces), requested)
              else
                match py_iter results with
                | None => (Done (Raise TypeError), requested)
                | Some items =>
                    let all_spaces := all_spaces ++ items in
                    match default (VDict []) (dict_get spaces_data "_links") with
                    | VDict links =>
                        if truthy (default VNone (dict_get links "next"))
                        then spaces_loop E fuel' (start + limit) limit
                                         all_spaces requested
                        else (Done (Ok all_spaces), requested)
                    | _ => (Done (Raise AttributeError), requested)
                    end
                end
          end
      end
  end.

(** [get_all_spaces_list()] *)
Definition get_all_spaces_list (E : Env) (fuel : nat)
  : fuelled (outcome (list value)) * list Z :=
  spaces_loop E fuel 0 100 [] [].

Definition labels_url (E : Env) (page_id : string) : string :=
  confluence_domain E +:+ "/wiki/api/v2/pages/" +:+ page_id +:+ "/labels".

(** The [for item in ...] loop of [fetch_labels]: it runs to the end of the
    list; [item.get] on an item that is not a dictionary raises. *)
Fixpoint scan_labels (items : list value) (internal_only : bool)
  : outcome bool :=
  match items with
  | [] => Ok internal_only
  | VDict item :: items' =>
      scan_labels items'
        (if str_eq (default VNone (dict_get item "name")) "internal_only"
         then true else internal_only)
  | _ :: _ => Raise AttributeError
  end.

(** [fetch_labels(page_id)]; [Ok None] is the Python [None].  The handler
    for [KeyError] catches nothing the body can raise. *)
Definition fetch_labels (E : Env) (page_id : string) : outcome (option bool) :=
  match api_call E (labels_url E page_id) with
  | None | Some [] => Ok None
  | Some json_data =>
      match py_iter (default (VList []) (dict_get json_data "results")) with
      | None => Raise TypeError
      | Some items =>
          match scan_labels items false with
          | Ok internal_only => Ok (Some internal_only)
          | Raise e => Raise e
          end
      end
  end.

End confluence_api.
Import confluence_api.

(** ** Vocabulary of the statements about the Confluence client *)

Module confluence_spec.

(** The results list a response carries, if it carries one. *)
Definition page_results (d : list (string * value)) : option (list value) :=
  match dict_get d "results" with
  | Some (VList r) => Some r
  | _ => None
  end.

(** The response carries a [_links.next] link. *)
Definition has_next (d : list (string * value)) : Prop :=
  exists links u,
    dict_get d "_links" = Some (VDict links)
    /\ dict_get links "next" = Some (VStr u) /\ u <> "".

(** The response has no [_links.next] link. *)
Definition omits_next (d : list (string * value)) : Prop :=
  dict_get d "_links" = None
  \/ exists links, dict_get d "_links" = Some (VDict links)
                   /\ dict_get links "next" = None.

(** The server answers the request for the [k]-th page with [pages !! k]. *)
Definition serves (E : Env) (pages : list (list (string * value))) : Prop :=
  forall (k : nat) d,
    pages !! k = Some d -> get_all_spaces E (100 * Z.of_nat k) 100 = Some d.

(** The start offsets of the first [n] pages: 0, 100, 200, ... *)
Definition offsets (n : nat) : list Z :=
  (fun k => (100 * Z.of_nat k)%Z) <$> seq 0 n.

(** An entry of a labels response named exactly [internal_only]. *)
Definition is_internal_only (item : value) : bool :=
  match item with
  | VDict o => str_eq (default VNone (dict_get o "name")) "internal_only"
  | _ => false
  end.

Definition is_dict (v : value) : bool :=
  match v with
  | VDict _ => true
  | _ => false
  end.

End confluence_spec.
Import confluence_spec.

(** ** utils/openai_logic.py *)

Module openai_logic.

(** [text[:n]]; slicing a dictionary raises. *)
Definition py_slice (n : nat) (v : value) : option value :=
  match v with
  | VStr s => Some (VStr (String.substring 0 n s))
  | VList l => Some (VList (take n l))
  | _ => None
  end.

(** One request to the embeddings endpoint: the request is counted, the
    answer is the environment's. *)
Definition embeddings_request (E : Env) (text : value) : M world (list Q) :=
  fun w =>
    let w' := mkWorld (error_tracker w) (clock w) (files w)
                      (S (embedding_requests w)) (chat_requests w) (trace w) in
    match embeddings_create E (embedding_requests w) text with
    | Answer embedding => (Ok embedding, w')
    | Failure e => (Raise e, w')
    end.

(** [create_embeddings(text, model_emb)]: the text is cut to 8000
    characters; every exception is printed and raised again.  The call is
    traced on entry. *)
Definition create_embeddings (E : Env) (text : value) (model_emb : string)
  : M world (list Q) :=
  modify (emit (EvCreateEmbeddings text)) ;;;
  let max_length := 8000%nat in
  match py_len text with
  | None => raise TypeError
  | Some n =>
      if (max_length <? n)%nat
      then match py_slice max_length text with
           | Some text' => embeddings_request E text'
           | None => raise TypeError
           end
      else embeddings_request E text
  end.

(** One request to the chat completions endpoint. *)
Definition chat_request (E : Env) : M world string :=
  fun w =>
    let w' := mkWorld (error_tracker w) (clock w) (files w)
                      (embedding_requests w) (S (chat_requests w))
                      (trace w ++ [EvChatRequest]) in
    match chat_completions_create E (chat_requests w) with
    | Answer content => (Ok content, w')
    | Failure e => (Raise e, w')
    end.

Definition max_retries : Z := 3.

Definition sorry_traffic : string :=
  "I'm sorry, but I'm currently experiencing high traffic. Please try again in a few minutes.".
Definition sorry_connection : string :=
  "I'm sorry, but I'm having trouble connecting to the AI service. Please try again later.".
Definition sorry_busy : string :=
  "I'm sorry, but the service is currently busy. Please try again in a few minutes.".
Definition sorry_error : string :=
  "I apologize, but I encountered an error processing your request.".
Definition sorry_wrong : string :=
  "I apologize, but something went wrong while processing your request.".

(** The [while retry_count <= max_retries] loop of
    [get_chat_completion_messages].  Every turn that does not return adds
    one to [retry_count], so the loop takes at most [max_retries + 1]
    turns: [turns] counts the turns left, and reaching zero is the loop
    condition turning false, after which the function returns [None]. *)
Fixpoint chat_loop (E : Env) (turns : nat) (retry_count : Z)
  : M world (option string) :=
  match turns with
  | O => ret None
  | S turns' =>
      if negb (retry_count <=? max_retries)%Z then ret None
      else
        try_except
          (content <- chat_request E ;; ret (Some content))
          (fun e =>
             match e with
             | RateLimitError =>
                 let retry_count := (retry_count + 1)%Z in
                 let wait_time := (2 ^ retry_count * 5)%Z in
                 if (retry_count >? max_retries)%Z then ret (Some sorry_traffic)
                 else time_sleep (inject_Z wait_time) ;;;
                      chat_loop E turns' retry_count
             | APIConnectionError =>
                 let retry_count := (retry_count + 1)%Z in
                 let wait_time := (5 * retry_count)%Z in
                 if (retry_count >? max_retries)%Z then ret (Some sorry_connection)
                 else time_sleep (inject_Z wait_time) ;;;
                      chat_loop E turns' retry_count
             | APIError None => raise AttributeError
             | APIError (Some status_code) =>
                 if (status_code =? 429)%Z then
                   let retry_count := (retry_count + 1)%Z in
                   let wait_time := (2 ^ retry_count * 5)%Z in
                   if (retry_count >? max_retries)%Z then ret (Some sorry_busy)
                   else time_sleep (inject_Z wait_time) ;;;
                        chat_loop E turns' retry_count
                 else ret (Some sorry_error)
             | _ => ret (Some sorry_wrong)
             end)
  end.

(** [get_chat_completion_messages(messages, model_chat, temperature)] *)
Definition get_chat_completion_messages (E : Env) (messages : list value)
    (model_chat : string) (temperature : Q) : M world (option string) :=
  chat_loop E (Z.to_nat (max_retries + 1)) 0.

End openai_logic.
Import openai_logic.

(** ** utils/data_prep.py *)

Module data_prep.

(** The frame [pd.read_csv] builds from the records of a file: a
    [RangeIndex] and the three columns asked for. *)
Definition frame_of_records (records : list (value * value * value))
  : DataFrame :=
  mkDataFrame ["id"; "tiny_link"; "content"]
    (imap (fun k rec =>
             (Z.of_nat k,
              ({[ "id" := rec.1.1; "tiny_link" := rec.1.2;
                  "content" := rec.2 ]} : row)))
          records).

(** [import_csv(df, csv_file, max_rows)]: the frame read from the file, or
    the frame passed in when the file is missing or cannot be read. *)
Definition import_csv (E : Env) (df : DataFrame) (csv_file : string)
    (max_rows : nat) : DataFrame :=
  match read_csv E csv_file with
  | None => df
  | Some records => frame_of_records (take max_rows records)
  end.

Definition required_columns : list string := ["id"; "tiny_link"; "content"].

(** The mask [df['content'].notna() & (df['content'] != '')]. *)
Definition has_content (r : row) : bool :=
  negb (is_na (cell r "content")) && negb (str_eq (cell r "content") "").

(** The [metadata] cell built for a row after the renaming. *)
Definition metadata_of (E : Env) (r : row) : value :=
  VStr (json_dumps E (VDict [("source", cell r "source");
                             ("text", cell r "content")])).

(** [clean_data_pinecone_schema(df)].  When the frame already has a column
    [source], the renaming leaves two columns of that name, [row['source']]
    is then a [Series], and [json.dumps] raises [TypeError] on it. *)
Definition clean_data_pinecone_schema (E : Env) (df : DataFrame)
  : outcome DataFrame :=
  if negb (forallb (fun c => has_column c df) required_columns)
  then Ok (empty_frame ["id"; "metadata"])
  else
    let df := filter_rows has_content df in
    if df_empty df then Ok (empty_frame ["id"; "metadata"])
    else
      let df := set_column "id" (fun _ r => VStr (py_str E (cell r "id"))) df in
      if has_column "source" df then Raise TypeError
      else
        let df := rename_column "tiny_link" "source" df in
        let df := set_column "metadata" (fun _ r => metadata_of E r) df in
        Ok (select_columns ["id"; "metadata"] df).

(** What decoding a row's [metadata] cell leads to. *)
Inductive decoded : Type :=
| Undecodable
| MissingText
| Text (text : value).

(** [json.loads(row['metadata'])] followed by [meta.get('text', '')]:
    [json.loads] raises [TypeError] on a cell that is not a string, and
    [meta.get] raises [AttributeError] when the text decodes to something
    that is not an object. *)
Definition decode_metadata (E : Env) (content : value) : outcome decoded :=
  match content with
  | VStr s =>
      match json_loads E s with
      | None => Ok Undecodable
      | Some (VDict meta) =>
          let text := default (VStr "") (dict_get meta "text") in
          if truthy text then Ok (Text text) else Ok MissingText
      | Some _ => Raise AttributeError
      end
  | _ => Raise TypeError
  end.

(** The local variables of [generate_embeddings_and_add_to_df] that the
    loop updates. *)
Record progress : Type := mkProgress {
  frame : DataFrame;
  successful_embeddings : Z;
  failed_embeddings : Z
}.

Definition one_more_failed (p : progress) : progress :=
  mkProgress (frame p) (successful_embeddings p) (failed_embeddings p + 1).

(** How the work on a row ends: the loop goes on to the next row
    ([break], or [continue]), or the function returns at once. *)
Inductive row_exit : Type :=
| NextRow
| ReturnNow.

Definition error_details (index : Z) (second : string * value) (e : exn)
  : value :=
  VDict [("row_index", VInt index); second; ("message", VStr (exn_name e))].

(** [df['embedding_status'] = df.apply(lambda x: "success" if
    isinstance(x.get('values', None), list) else "not_processed", axis=1)] *)
Definition tag_embedding_status (df : DataFrame) : DataFrame :=
  set_column "embedding_status"
    (fun _ x => if is_list (default VNone (x !! "values"))
                then VStr "success" else VStr "not_processed") df.

(** [lift] an outcome without effect into the monad. *)
Definition of_outcome {S A} (o : outcome A) : M S A := fun s => (o, s).

(** The four [except] clauses around the embedding request of a row, at
    a given value of [retries]; [retry] is the next turn of the loop with
    the new value of [retries]. *)
Definition on_embedding_error (E : Env) (index : Z) (retries : Z)
    (p : progress) (retry : Z -> M world (row_exit * progress)) (e : exn)
  : M world (row_exit * progress) :=
  match e with
  | RateLimitError =>
      log_error E "rate_limit"
        (error_details index ("retry", VInt retries) e) "openai" ;;;
      let wait_time := (2 ^ retries * 5)%Z in
      let retries := (retries + 1)%Z in
      if (retries >? max_retries)%Z
      then ret (NextRow, one_more_failed p)
      else time_sleep (inject_Z wait_time) ;;; retry retries
  | APIConnectionError =>
      log_error E "api_connection"
        (error_details index ("retry", VInt retries) e) "openai" ;;;
      if (retries <? max_retries)%Z
      then time_sleep (inject_Z (5 * retries)) ;;; retry (retries + 1)%Z
      else ret (NextRow, one_more_failed p)
  | APIError status_code =>
      if bool_decide (status_code = Some 429%Z)
      then
        let wait_time := (2 ^ retries * 5)%Z in
        let retries := (retries + 1)%Z in
        if (retries >? max_retries)%Z
        then ret (NextRow, one_more_failed p)
        else time_sleep (inject_Z wait_time) ;;; retry retries
      else
        log_error E "api_error"
          (error_details index
             ("status_code",
              match status_code with
              | Some c => VInt c
              | None => VNone
              end) e) "openai" ;;;
        ret (NextRow, one_more_failed p)
  | _ =>
      log_error E "unknown"
        (error_details index ("exception_type", VStr (exn_name e)) e)
        "openai" ;;;
      ret (NextRow, one_more_failed p)
  end.

(** The body of the [try] block: the pause, the request, the cell set, the
    success logged. *)
Definition request_embedding (E : Env) (index : Z) (text : value)
    (model_emb : string) (p : progress) : M world (row_exit * progress) :=
  time_sleep 0.1 ;;;
  response <- create_embeddings E text model_emb ;;
  log_success "embedding_generation" ;;;
  ret (NextRow,
       mkProgress
         (at_set index "values" (VList (VFloat <$> response)) (frame p))
         (successful_embeddings p + 1) (failed_embeddings p)).

(** The [while retries <= max_retries] loop on one row.  Every turn that
    neither breaks nor returns adds one to [retries], so there are at most
    [max_retries + 1] turns: [turns] counts the turns left, and reaching
    zero is the loop condition turning false. *)
Fixpoint embed_row (E : Env) (turns : nat) (index : Z) (text : value)
    (model_emb : string) (retries : Z) (p : progress)
  : M world (row_exit * progress) :=
  match turns with
  | O => ret (NextRow, p)
  | S turns' =>
      if negb (retries <=? max_retries)%Z then ret (NextRow, p)
      else
        go <- should_continue "rate_limit" 5 60 ;;
        modify (emit (EvShouldContinue "rate_limit" go)) ;;;
        if negb go then ret (ReturnNow, p)
        else
          try_except
            (request_embedding E index text model_emb p)
            (on_embedding_error E index retries p
               (fun retries => embed_row E turns' index text model_emb retries p))
  end.

(** The [for index, row in df.iterrows()] loop. *)
Fixpoint embed_rows (E : Env) (its : list (Z * row)) (model_emb : string)
    (p : progress) : M world (row_exit * progress) :=
  match its with
  | [] => ret (NextRow, p)
  | (index, r) :: its' =>
      d <- of_outcome (decode_metadata E (cell r "metadata")) ;;
      match d with
      | Undecodable =>
          log_error E "json_decode"
            (VStr ("Error decoding JSON for row " +:+ pretty index)) "openai" ;;;
          embed_rows E its' model_emb (one_more_failed p)
      | MissingText =>
          log_error E "missing_text"
            (VStr ("Warning: Missing 'text' in metadata for row "
                     +:+ pretty index +:+ ". Skipping.")) "openai" ;;;
          embed_rows E its' model_emb (one_more_failed p)
      | Text text =>
          x <- embed_row E (Z.to_nat (max_retries + 1)) index text model_emb 0 p ;;
          match x with
          | (NextRow, p') => embed_rows E its' model_emb p'
          | (ReturnNow, p') => ret (ReturnNow, p')
          end
      end
  end.

(** [generate_embeddings_and_add_to_df(df, model_emb)] *)
Definition generate_embeddings_and_add_to_df (E : Env) (df : DataFrame)
    (model_emb : string) : M world DataFrame :=
  if df_empty df then ret (empty_frame ["id"; "metadata"; "values"])
  else if negb (has_column "metadata" df)
  then ret (empty_frame ["id"; "metadata"; "values"])
  else
    let df := set_column "values" (fun _ _ => VNone) df in
    x <- embed_rows E (rows df) model_emb (mkProgress df 0 0) ;;
    match x with
    | (ReturnNow, p) => ret (tag_embedding_status (frame p))
    | (NextRow, p) =>
        let df := tag_embedding_status (frame p) in
        get_error_summary E ;;;
        ret df
    end.

End data_prep.
Import data_prep.

(** ** Vocabulary of the statements about data preparation *)

Module data_prep_spec.

(** The [content] cell of a row is absent or the empty string. *)
Definition content_missing (r : row) : bool :=
  match r !! "content" with
  | None | Some VNone | Some VNaN => true
  | Some (VStr s) => bool_decide (s = "")
  | Some _ => false
  end.

(** The rows of a frame that have a content. *)
Definition surviving (df : DataFrame) : list (Z * row) :=
  List.filter (fun ir => negb (content_missing ir.2)) (rows df).

(** The cleaned record of a row of the input frame: its label, its [id]
    as a string, and the JSON text of [{source: tiny_link, text: content}]. *)
Definition cleaned_record (E : Env) (ir : Z * row) : Z * row :=
  (ir.1,
   {[ "id" := VStr (py_str E (cell ir.2 "id"));
      "metadata" :=
        VStr (json_dumps E (VDict [("source", cell ir.2 "tiny_link");
                                   ("text", cell ir.2 "content")])) ]}).

(** The row's [metadata] does not lead to an embedding request: it is not
    valid JSON, or it decodes to an object without a non-empty [text]. *)
Definition skipped (E : Env) (r : row) : Prop :=
  decode_metadata E (cell r "metadata") = Ok Undecodable
  \/ decode_metadata E (cell r "metadata") = Ok MissingText.

(** The row's [metadata] decodes to an object with the non-empty [text]. *)
Definition has_text (E : Env) (r : row) (text : value) : Prop :=
  decode_metadata E (cell r "metadata") = Ok (Text text).

(** The row is tagged [embedding_status = "success"]. *)
Definition tagged_success (r : row) : Prop :=
  r !! "embedding_status" = Some (VStr "success").

Definition tagged_not_processed (r : row) : Prop :=
  r !! "embedding_status" = Some (VStr "not_processed").

(** The row holds an embedding list in [values]. *)
Definition holds_embedding (r : row) : Prop :=
  exists l, r !! "values" = Some (VList l).

(** How many rows of a frame are tagged success. *)
Definition count_success (df : DataFrame) : nat :=
  length (List.filter (fun ir => str_eq (cell ir.2 "embedding_status") "success")
                      (rows df)).


(** The circuit is closed: too few rate-limit errors are counted for
    [should_continue("rate_limit", threshold=5, ...)] to say stop. *)
Definition circuit_closed (w : world) : Prop :=
  match error_count w "rate_limit" with
  | None => True
  | Some c => (c < 5)%Z
  end.

(** The row leads to an embedding request. *)
Definition embeddable (E : Env) (r : row) : bool :=
  match decode_metadata E (cell r "metadata") with
  | Ok (Text _) => true
  | _ => false
  end.




(** A frame after the embeddings listed in [updates] were stored, one
    after the other, each at its row label. *)
Definition store_all (updates : list (Z * list value)) (f : DataFrame)
  : DataFrame :=
  foldl (fun f u => at_set u.1 "values" (VList u.2) f) f updates.

(** The same on one row. *)
Definition store_in_row (updates : list (Z * list value)) (ir : Z * row)
  : Z * row :=
  foldl (fun ir u => if (ir.1 =? u.1)%Z
                     then (ir.1, <["values" := VList u.2]> ir.2) else ir)
        ir updates.

(** The rows of a frame under a label. *)
Definition rows_labelled (i : Z) (f : DataFrame) : list (Z * row) :=
  List.filter (fun ir => (ir.1 =? i)%Z) (rows f).

(** A computation on rows keeps a property of the frame it works on. *)
Definition keeps (P : DataFrame -> Prop) (p : progress)
    (m : M world (row_exit * progress)) : Prop :=
  P (frame p) ->
  forall w x p' w', m w = (Ok (x, p'), w') -> P (frame p').

(** A row of a returned frame is tagged as the code tags it: success with
    an embedding list in [values], not processed without one. *)
Definition tagged_by_values (r : row) : Prop :=
  (holds_embedding r /\ tagged_success r)
  \/ (~ holds_embedding r /\ tagged_not_processed r).

(** A row of the result is the row it was made from, under the same
    label, but for the two cells the function writes. *)
Definition same_record (ir ir' : Z * row) : Prop :=
  ir'.1 = ir.1
  /\ forall c : string,
       c <> "values" -> c <> "embedding_status" -> ir'.2 !! c = ir.2 !! c.

(** *** The account of a run, row by row *)

(** What [create_embeddings] sends for a text: the text, cut to its first
    8000 characters when it is longer; a value that has no length, or
    that cannot be sliced, raises before anything is sent. *)
Definition text_sent (text : value) : option value :=
  match py_len text with
  | None => None
  | Some n => if (8000 <? n)%nat then py_slice 8000 text else Some text
  end.

(** What is sent for a row: for the text its metadata decodes to. *)
Definition row_request (E : Env) (r : row) : option value :=
  match decode_metadata E (cell r "metadata") with
  | Ok (Text text) => text_sent text
  | _ => None
  end.

(** The endpoint's reply to the request number [n] of the process, when
    that request carries [sent]: a failure, or the embedding [e]. *)
Definition refused (E : Env) (n : nat) (sent : option value) : Prop :=
  exists q e, sent = Some q /\ embeddings_create E n q = Failure e.

Definition answered_with (E : Env) (n : nat) (sent : option value) (e : list Q)
  : Prop :=
  exists q, sent = Some q /\ embeddings_create E n q = Answer e.

(** The requests made for one row are the requests [lo], ..., [hi - 1] of
    the process, at most four of them, all for what the row sends; all
    but the last were refused. *)
Definition row_span (E : Env) (lo hi : nat) (sent : option value) : Prop :=
  (lo <= hi <= lo + 4)%nat
  /\ forall n, (lo <= n)%nat -> (S n < hi)%nat -> refused E n sent.

(** What the work on the row under [index] leaves in the frame of the
    loop: the answer to the last request made for the row, stored under
    its label, when that request was answered, and then the loop goes on;
    the frame as it was when no request was made or the last one was
    refused. *)
Definition row_outcome (E : Env) (index : Z) (sent : option value)
    (lo hi : nat) (p : progress) (x : row_exit) (p' : progress) : Prop :=
  row_span E lo hi sent
  /\ ((x = NextRow /\ (lo < hi)%nat
       /\ exists e, answered_with E (hi - 1) sent e
                    /\ frame p'
                       = at_set index "values" (VList (VFloat <$> e)) (frame p))
      \/ (((lo < hi)%nat -> refused E (hi - 1) sent) /\ frame p' = frame p)).

(** The same for a row of the frame: [ir] before the work on it, [ir']
    after it. *)
Definition row_stored (E : Env) (lo hi : nat) (ir ir' : Z * row) : Prop :=
  row_span E lo hi (row_request E ir.2)
  /\ (((lo < hi)%nat
       /\ exists e, answered_with E (hi - 1) (row_request E ir.2) e
                    /\ ir' = (ir.1, <["values" := VList (VFloat <$> e)]> ir.2))
      \/ (((lo < hi)%nat -> refused E (hi - 1) (row_request E ir.2))
          /\ ir' = ir)).

(** The account of a row of the frame that is returned: [ir] is the row
    of the frame that was passed, [ir'] the row returned for it, [lo],
    ..., [hi - 1] the requests made for it.  The row returned is the row
    passed but for the two cells the function writes; it holds the
    answer to its last request and is tagged success when that request
    was answered; it holds [None] and is tagged not processed when no
    request was made for it or the last one was refused. *)
Definition row_account (E : Env) (lo hi : nat) (ir ir' : Z * row) : Prop :=
  same_record ir ir'
  /\ row_span E lo hi (row_request E ir.2)
  /\ (((lo < hi)%nat
       /\ exists e, answered_with E (hi - 1) (row_request E ir.2) e
                    /\ ir'.2 !! "values" = Some (VList (VFloat <$> e))
                    /\ tagged_success ir'.2)
      \/ (((lo < hi)%nat -> refused E (hi - 1) (row_request E ir.2))
          /\ ir'.2 !! "values" = Some VNone
          /\ tagged_not_processed ir'.2)).

(** The rows of a list each have their account, over consecutive spans
    of requests that fill [lo], ..., [hi - 1]. *)
Inductive spans (R : nat -> nat -> Z * row -> Z * row -> Prop)
  : nat -> nat -> list (Z * row) -> list (Z * row) -> Prop :=
| spans_nil (n : nat) : spans R n n [] []
| spans_cons (lo mid hi : nat) (ir ir' : Z * row) (l l' : list (Z * row)) :
    R lo mid ir ir' -> spans R mid hi l l' ->
    spans R lo hi (ir :: l) (ir' :: l').

Definition accounted (E : Env) : nat -> nat -> list (Z * row)
                                 -> list (Z * row) -> Prop :=
  spans (row_account E).



End data_prep_spec.
Import data_prep_spec.

(** ** app_pinecone_openai.py: the ingestion refresh of [main] *)

Module app.

(** What the refresh leaves outside the process state of the utilities:
    the frames handed to [upsert_data], and, kept for the statements, the
    frames [generate_embeddings_and_add_to_df] returned batch by batch. *)
Record ledger : Type := mkLedger {
  upserts : list DataFrame;
  embedded_batches : list DataFrame
}.

Definition app_state : Type := world * ledger.

(** Run a computation of the utilities inside the application. *)
Definition lift {A} (m : M world A) : M app_state A :=
  fun s => let '(o, w') := m (fst s) in (o, (w', snd s)).

Definition record_batch (df : DataFrame) : M app_state unit :=
  modify (fun s => (fst s, mkLedger (upserts (snd s))
                                    (embedded_batches (snd s) ++ [df]))).

(** [upsert_data(index, df)] of [utils/pinecone_logic.py], a file that is
    not among the sources: the call is recorded with the frame it is
    given, and whether it raises is the environment's. *)
Definition upsert_data (E : Env) (df : DataFrame) : M app_state unit :=
  fun s =>
    let s' := (fst s, mkLedger (upserts (snd s) ++ [df])
                               (embedded_batches (snd s))) in
    if upsert_ok E (length (upserts (snd s))) then (Ok tt, s')
    else (Raise (OtherException "PineconeException"), s').

Definition batch_size : nat := 25.

(** [range(0, stop, step)] *)
Definition py_range (stop step : nat) : list nat :=
  (fun k => (k * step)%nat) <$> seq 0 ((stop + step - 1) / step).

Definition Qmaximum (a b : Q) : Q := if Qle_bool a b then b else a.
Definition Qminimum (a b : Q) : Q := if Qle_bool a b then a else b.

(** [batch_df[batch_df['embedding_status'] == "success"]]; a frame without
    the column raises [KeyError]. *)
Definition success_rows_of (batch_df : DataFrame) : outcome DataFrame :=
  if has_column "embedding_status" batch_df
  then Ok (filter_rows (fun r => str_eq (cell r "embedding_status") "success")
                       batch_df)
  else Raise KeyError.

(** The [try] block of one turn of the batch loop and its handler; it
    returns the new values of [processed_df] and [batch_pause_time]. *)
Definition process_batch (E : Env) (i : nat) (batch_df : DataFrame)
    (total_rows : nat) (model_emb : string) (processed_df : DataFrame)
    (batch_pause_time : Q) : M app_state (DataFrame * Q) :=
  try_except
    (start_time <- lift time_time ;;
     batch_df <- lift (generate_embeddings_and_add_to_df E batch_df model_emb) ;;
     record_batch batch_df ;;;
     success_rows <- of_outcome (success_rows_of batch_df) ;;
     let processed_df :=
       if negb (df_empty success_rows)
       then pd_concat processed_df success_rows else processed_df in
     now <- lift time_time ;;
     let batch_duration := (now - start_time)%Q in
     let batch_pause_time :=
       if Qltb batch_duration 1
       then Qmaximum 1 (batch_pause_time - 0.5) else batch_pause_time in
     (if (i + batch_size <? total_rows)%nat
      then lift (time_sleep batch_pause_time) else ret tt) ;;;
     ret (processed_df, batch_pause_time))
    (fun batch_error =>
       lift (log_error E "batch_processing"
               (VStr ("Error processing batch "
                        +:+ pretty (i / batch_size + 1)%nat))
               "openai") ;;;
       let batch_pause_time := Qminimum 30 (batch_pause_time * 2) in
       lift (time_sleep batch_pause_time) ;;;
       ret (processed_df, batch_pause_time)).

(** The [for i in range(0, total_rows, batch_size)] loop; it returns
    [processed_df]. *)
Fixpoint batch_loop (E : Env) (starts : list nat) (df : DataFrame)
    (total_rows : nat) (model_emb : string) (processed_df : DataFrame)
    (batch_pause_time : Q) : M app_state DataFrame :=
  match starts with
  | [] => ret processed_df
  | i :: starts' =>
      let batch_df := iloc i (i + batch_size) df in
      go <- lift (should_continue "rate_limit" 10 60) ;;
      if negb go then ret processed_df
      else
        x <- process_batch E i batch_df total_rows model_emb processed_df
               batch_pause_time ;;
        batch_loop E starts' df total_rows model_emb (fst x) (snd x)
  end.

(** What is done with [processed_df] after the loop. *)
Definition upsert_processed (E : Env) (processed_df : DataFrame)
  : M app_state unit :=
  if negb (df_empty processed_df)
  then
    let processed_df :=
      if has_column "embedding_status" processed_df
      then drop_column "embedding_status" processed_df else processed_df in
    try_except (upsert_data E processed_df)
      (fun upsert_error =>
         lift (log_error E "pinecone_upsert"
                 (VStr "Error during Pinecone upsert") "openai") ;;;
         ret tt)
  else
    lift (log_error E "no_embeddings"
            (VStr "Warning: No data was successfully processed for embedding. Using existing index data if available.")
            "openai") ;;;
    ret tt.

Definition csv_file : string := "./data/confluence_pages.csv".
Definition model_for_openai_embedding : string := "text-embedding-3-small".

(** The [try] block of [main] that refreshes the index, up to and
    including the upsert. *)
Definition refresh_body (E : Env) : M app_state unit :=
  let df := mkDataFrame ["id"; "tiny_link"; "content"] [] in
  let df := import_csv E df csv_file 2000 in
  (if df_empty df
   then lift (log_error E "empty_data"
                (VStr ("Warning: No data found in " +:+ csv_file)) "openai") ;;;
        ret tt
   else ret tt) ;;;
  df <- of_outcome (clean_data_pinecone_schema E df) ;;
  let total_rows := length (rows df) in
  let processed_df := empty_frame ["id"; "metadata"; "values"] in
  processed_df <- batch_loop E (py_range total_rows batch_size) df total_rows
                    model_for_openai_embedding processed_df 2 ;;
  upsert_processed E processed_df.

(** The ingestion refresh of [main]: the block above under its handler
    [except Exception as e], which logs and goes on; an exception the
    handler itself raises is caught by the outermost handler of [main] and
    ends the run. *)
Definition ingestion_refresh (E : Env) : M app_state unit :=
  try_except
    (try_except (refresh_body E)
       (fun e =>
          lift (log_error E "data_preparation"
                  (VStr ("Error preparing data: " +:+ exn_name e)) "openai") ;;;
          ret tt))
    (fun e => ret tt).

End app.
Import app.

(** ** Vocabulary of the statements about the refresh *)

Module app_spec.

(** The rows of a batch tagged success. *)
Definition success_rows (batch : DataFrame) : list (Z * row) :=
  List.filter (fun ir => str_eq (cell ir.2 "embedding_status") "success")
              (rows batch).

(** A record as it is handed to the index: without the bookkeeping cell. *)
Definition without_status (ir : Z * row) : Z * row :=
  (ir.1, delete "embedding_status" ir.2).

(** The rows tagged success in a sequence of batches, batch after batch. *)
Definition all_success_rows (batches : list DataFrame) : list (Z * row) :=
  batches ≫= success_rows.

(** A frame with rows has the bookkeeping column. *)
Definition status_column_if_rows (d : DataFrame) : Prop :=
  rows d <> [] -> has_column "embedding_status" d = true.

(** A batch as [generate_embeddings_and_add_to_df] returns it: every row
    tagged by what its [values] cell holds, no two rows under one label. *)
Definition tagged_batch (b : DataFrame) : Prop :=
  Forall (fun ir => tagged_by_values ir.2) (rows b) /\ NoDup (labels b).

(** The batches embedded between two states of the application. *)
Definition new_batches (s s' : app_state) : list DataFrame :=
  drop (length (embedded_batches s.2)) (embedded_batches s'.2).

End app_spec.
Import app_spec.

(** ** A small concrete environment for examples *)

Module demo.

Definition dq : string := String (Ascii.ascii_of_nat 34) EmptyString.

(** A serializer good enough for the examples: strings are quoted without
    escaping, integers are printed in decimal. *)
Fixpoint dumps (v : value) : string :=
  match v with
  | VNone => "null"
  | VBool true => "true"
  | VBool false => "false"
  | VInt n => pretty n
  | VFloat q => pretty (Qnum q) +:+ "/" +:+ pretty (Zpos (Qden q))
  | VNaN => "NaN"
  | VStr s => dq +:+ s +:+ dq
  | VList l =>
      "[" +:+ (fix go (l : list value) : string :=
                 match l with
                 | [] => ""
                 | [x] => dumps x
                 | x :: l' => dumps x +:+ ", " +:+ go l'
                 end) l +:+ "]"
  | VDict d =>
      "{" +:+ (fix go (d : list (string * value)) : string :=
                 match d with
                 | [] => ""
                 | [(k, x)] => dq +:+ k +:+ dq +:+ ": " +:+ dumps x
                 | (k, x) :: d' =>
                     dq +:+ k +:+ dq +:+ ": " +:+ dumps x +:+ ", " +:+ go d'
                 end) d +:+ "}"
  end.

(** A decoder given by the table of the texts it knows: a text decodes to
    the value it is listed with, any other text is rejected. *)
Fixpoint loads (table : list value) (s : string) : option value :=
  match table with
  | [] => None
  | v :: table' => if String.eqb (dumps v) s then Some v else loads table' s
  end.

Definition str (v : value) : string :=
  match v with
  | VStr s => s
  | _ => dumps v
  end.

Definition fixed_strftime (fmt : string) (now : Q) : string :=
  if String.eqb fmt "%Y-%m-%d" then "2025-01-01" else "2025-01-01 00:00:00".

(** The environment of the examples: what varies from one example to the
    next are the disk, the decoder's table and the services' answers. *)
Definition env (appendable : bool) (table : list value)
    (embeddings : nat -> value -> api_result (list Q))
    (chat : nat -> api_result string)
    (api : string -> option (list (string * value))) : Env :=
  mkEnv dumps (loads table) str (fun q => q) fixed_strftime
        (fun _ => appendable) embeddings chat "https://wiki.example" api
        (fun _ => true) (fun _ => None).

(** The same environment with a CSV export on disk. *)
Definition with_csv (E : Env) (records : list (value * value * value)) : Env :=
  mkEnv (json_dumps E) (json_loads E) (py_str E) (round2 E) (strftime E)
        (fs_appendable E) (embeddings_create E) (chat_completions_create E)
        (confluence_domain E) (api_call E) (upsert_ok E)
        (fun _ => Some records).

Definition no_embeddings : nat -> value -> api_result (list Q) :=
  fun _ _ => Failure RateLimitError.
Definition no_chat : nat -> api_result string :=
  fun _ => Failure RateLimitError.
Definition no_api : string -> option (list (string * value)) :=
  fun _ => None.

(** A Confluence server that answers the request for page [k] with the
    [k]-th of the given responses, and no other request. *)
Fixpoint serve_spaces (k : nat) (pages : list (list (string * value)))
    (url : string) : option (list (string * value)) :=
  match pages with
  | [] => None
  | d :: pages' =>
      if String.eqb url ("https://wiki.example/wiki/api/v2/spaces?limit=100&start="
                           +:+ pretty (100 * Z.of_nat k)%Z)
      then Some d else serve_spaces (S k) pages' url
  end.

Definition confluence_env (api : string -> option (list (string * value)))
  : Env :=
  env true [] no_embeddings no_chat api.

(** A tracker-only environment: the disk accepts appends or refuses them. *)
Definition disk_env (appendable : bool) : Env :=
  env appendable [] no_embeddings no_chat no_api.

End demo.

(** ** Example data *)

Module confluence_examples.

Definition space (key : string) : value := VDict [("key", VStr key)].

Definition page_with_next (results : list value) : list (string * value) :=
  [("results", VList results);
   ("_links", VDict [("next", VStr "/wiki/api/v2/spaces?cursor=next")])].

Definition page_without_next (results : list value) : list (string * value) :=
  [("results", VList results); ("_links", VDict [])].

Definition two_pages : list (list (string * value)) :=
  [page_with_next [space "ENG"]; page_without_next [space "OPS"]].

(** A first page that is empty and still carries a next link. *)
Definition empty_first_page : list (list (string * value)) :=
  [page_with_next []; page_without_next [space "OPS"]].

(** A labels response without a results list. *)
Definition labels_without_results (url : string) : option (list (string * value)) :=
  Some [("message", VStr "ok")].

End confluence_examples.

Module data_examples.

(** An exported table: one page with a content, one with an empty
    content, one whose content is missing. *)
Definition exported : DataFrame :=
  frame_of_records
    [(VInt 101, VStr "/x/AbC", VStr "How to reset a password");
     (VInt 102, VStr "/x/DeF", VStr "");
     (VInt 103, VStr "/x/GhI", VNaN)].

(** A table that has the three required columns and a column [source]. *)
Definition with_source_column : DataFrame :=
  mkDataFrame ["id"; "tiny_link"; "content"; "source"]
    [(0%Z, {[ "id" := VInt 101; "tiny_link" := VStr "/x/AbC";
              "content" := VStr "How to reset a password";
              "source" := VStr "wiki" ]})].

End data_examples.

Module batch_examples.

Definition meta (source text : string) : value :=
  VDict [("source", VStr source); ("text", VStr text)].

(** A cleaned record: its label, its id and its encoded metadata. *)
Definition cleaned (label : Z) (id source text : string) : Z * row :=
  (label, {[ "id" := VStr id; "metadata" := VStr (demo.dumps (meta source text)) ]}).

(** A cleaned record whose metadata is not JSON. *)
Definition garbled (label : Z) (id : string) : Z * row :=
  (label, {[ "id" := VStr id; "metadata" := VStr "{not json" ]}).

Definition one_row_batch : DataFrame :=
  mkDataFrame ["id"; "metadata"]
    [cleaned 0 "101" "/x/AbC" "How to reset a password"].

(** The embeddings endpoint refuses the first request for rate limiting
    and answers every later one. *)
Definition refuse_first : nat -> value -> api_result (list Q) :=
  fun n _ => match n with
             | O => Failure RateLimitError
             | S _ => Answer [0.5%Q; 0.25%Q]
             end.

(** The embeddings endpoint answers every request with the same vector. *)
Definition always_answer (e : list Q) : nat -> value -> api_result (list Q) :=
  fun _ _ => Answer e.



Definition env_of (appendable : bool)
    (embeddings : nat -> value -> api_result (list Q)) : Env :=
  demo.env appendable [meta "/x/AbC" "How to reset a password"]
           embeddings demo.no_chat demo.no_api.

End batch_examples.

Module batch25.

Import batch_examples.

Definition good (label : Z) : Z * row :=
  cleaned label "101" "/x/AbC" "How to reset a password".

(** Rows 1 to 9, rows 10 and 11, rows 12 to 25. *)
Definition first_rows : list (Z * row) := good <$> seqZ 0 9.
Definition row10 : Z * row := garbled 9 "110".
Definition row11 : Z * row := garbled 10 "111".
Definition last_rows : list (Z * row) := good <$> seqZ 11 14.

(** A batch of 25 cleaned records of which the 10th and the 11th carry a
    metadata that is not JSON. *)
Definition batch : DataFrame :=
  mkDataFrame ["id"; "metadata"] (first_rows ++ [row10; row11] ++ last_rows).

Definition answered : Env := env_of true (always_answer [0.5%Q; 0.25%Q]).

End batch25.

Module refresh_examples.

Import batch_examples.

Definition page (id : Z) : value * value * value :=
  (VInt id, VStr "/x/AbC", VStr "How to reset a password").

(** An export of one page, and one of 26 pages. *)
Definition one_page : list (value * value * value) := [page 101].
Definition pages26 : list (value * value * value) := page <$> seqZ 101 26.

(** The endpoint answers with a vector of two numbers. *)
Definition answered : Env :=
  demo.with_csv (env_of true (always_answer [0.5%Q; 0.25%Q])) one_page.

(** The endpoint answers with an empty vector. *)
Definition empty_vectors : Env :=
  demo.with_csv (env_of true (always_answer [])) one_page.

(** The endpoint answers 25 requests and refuses the later ones for rate
    limiting, and the disk refuses the appends to the error log. *)
Definition refuse_after_25 : nat -> value -> api_result (list Q) :=
  fun n _ => if (n <? 25)%nat then Answer [0.5%Q; 0.25%Q]
             else Failure RateLimitError.

Definition quota_and_disk_full : Env :=
  demo.with_csv (env_of false refuse_after_25) pages26.

Definition start : app_state :=
  (startup "./logs" 1000 ∅, mkLedger [] []).

End refresh_examples.
(** ** utils/confluence_api.py: the look-ups by key and by page *)

Module confluence_lookup.

(** [v[k]] for a string key [k]: a dictionary without the key raises
    [KeyError]; anything else (a string, a list, a number, [None]) raises
    [TypeError]. *)
Definition subscript (v : value) (k : string) : outcome value :=
  match v with
  | VDict d =>
      match dict_get d k with
      | Some x => Ok x
      | None => Raise KeyError
      end
  | _ => Raise TypeError
  end.

Definition spaces_root_url (E : Env) : string :=
  confluence_domain E +:+ "/wiki/api/v2/spaces".

(** The [for space in spaces_data["results"]] loop of [get_space_by_key]:
    it returns at the first space whose key is the one looked for;
    [space.get] on an entry that is not a dictionary raises. *)
Fixpoint find_space (items : list value) (space_key : string)
  : outcome (option (list (string * value))) :=
  match items with
  | [] => Ok None
  | VDict space :: items' =>
      if str_eq (default VNone (dict_get space "key")) space_key
      then Ok (Some space)
      else find_space items' space_key
  | _ :: _ => Raise AttributeError
  end.

(** [get_space_by_key(space_key)], for a key that is a string (the callers
    pass an environment variable or a command-line argument); [Ok None] is
    the Python [None]. *)
Definition get_space_by_key (E : Env) (space_key : string)
  : outcome (option (list (string * value))) :=
  match api_call E (spaces_root_url E) with
  | None | Some [] => Ok None
  | Some spaces_data =>
      match dict_get spaces_data "results" with
      | None => Ok None
      | Some results =>
          match py_iter results with
          | None => Raise TypeError
          | Some items => find_space items space_key
          end
      end
  end.

(** [get_space_id_by_key(space_key)]; [VNone] is the Python [None]. *)
Definition get_space_id_by_key (E : Env) (space_key : string) : outcome value :=
  match get_space_by_key E space_key with
  | Raise e => Raise e
  | Ok None | Ok (Some []) => Ok VNone
  | Ok (Some space_data) =>
      match dict_get space_data "id" with
      | Some id => Ok id
      | None => Ok VNone
      end
  end.

Definition pages_url (E : Env) (space_id : value) (start limit : Z) : string :=
  confluence_domain E +:+ "/wiki/api/v2/spaces/" +:+ py_str E space_id
    +:+ "/pages?limit=" +:+ pretty limit +:+ "&start=" +:+ pretty start.

(** [get_pages_by_space_id(space_id, start, limit)] *)
Definition get_pages_by_space_id (E : Env) (space_id : value) (start limit : Z)
  : option (list (string * value)) :=
  api_call E (pages_url E space_id start limit).

(** [get_pages_by_space_key(space_key, start, limit)] *)
Definition get_pages_by_space_key (E : Env) (space_key : string)
    (start limit : Z) : outcome (option (list (string * value))) :=
  match get_space_id_by_key E space_key with
  | Raise e => Raise e
  | Ok space_id =>
      if truthy space_id
      then Ok (get_pages_by_space_id E space_id start limit)
      else Ok None
  end.

Definition page_url (E : Env) (page_id : string) : string :=
  confluence_domain E +:+ "/wiki/api/v2/pages/" +:+ page_id
    +:+ "?body-format=storage".

(** [json_data['body']['storage']['value']] *)
Definition storage_value (json_data : list (string * value)) : outcome value :=
  match subscript (VDict json_data) "body" with
  | Raise e => Raise e
  | Ok body =>
      match subscript body "storage" with
      | Raise e => Raise e
      | Ok storage => subscript storage "value"
      end
  end.

(** [fetch_page_content(page_id)]; [VNone] is the Python [None].  Only
    [KeyError] is handled. *)
Definition fetch_page_content (E : Env) (page_id : string) : outcome value :=
  match api_call E (page_url E page_id) with
  | None | Some [] => Ok VNone
  | Some json_data =>
      match storage_value json_data with
      | Ok v => Ok v
      | Raise KeyError => Ok VNone
      | Raise e => Raise e
      end
  end.

End confluence_lookup.
Import confluence_lookup.

(** ** Frames indexed by page id *)

Module keyed_frames.

(** A frame after [df.set_index('id')]: the index labels are the values
    that were in the [id] column, and [id] is no longer a column. *)
Record KeyedFrame : Type := mkKeyedFrame {
  kcolumns : list string;
  krows : list (value * row)
}.

(** The number a numeric value stands for. *)
Definition number_of (v : value) : option Q :=
  match v with
  | VBool b => Some (if b then 1%Q else 0%Q)
  | VInt n => Some (inject_Z n)
  | VFloat q => Some q
  | _ => None
  end.

(** Do two index labels name the same rows?  Strings by their characters,
    numbers by their value, [None] and the missing value each with
    itself. *)
Definition same_label (a b : value) : bool :=
  match a, b with
  | VStr x, VStr y => String.eqb x y
  | VNone, VNone => true
  | VNaN, VNaN => true
  | _, _ =>
      match number_of a, number_of b with
      | Some x, Some y => Qeq_bool x y
      | _, _ => false
      end
  end.

Definition khas_column (c : string) (df : KeyedFrame) : bool :=
  bool_decide (c ∈ kcolumns df).

(** [df[c] = v] for a scalar [v]: every row gets the cell. *)
Definition kset_scalar (c : string) (v : value) (df : KeyedFrame) : KeyedFrame :=
  mkKeyedFrame
    (if khas_column c df then kcolumns df else kcolumns df ++ [c])
    ((fun ir => (fst ir, <[c := v]> (snd ir))) <$> krows df).

(** [df.loc[label, c] = v] for a label of the index: the rows under the
    label get the cell. *)
Definition loc_set (label : value) (c : string) (v : value) (df : KeyedFrame)
  : KeyedFrame :=
  mkKeyedFrame
    (if khas_column c df then kcolumns df else kcolumns df ++ [c])
    ((fun ir => if same_label (fst ir) label
                then (fst ir, <[c := v]> (snd ir)) else ir) <$> krows df).

(** [df[mask]] for a row-wise boolean mask. *)
Definition kfilter_rows (p : row -> bool) (df : KeyedFrame) : KeyedFrame :=
  mkKeyedFrame (kcolumns df) (List.filter (fun ir => p (snd ir)) (krows df)).

(** [df.empty] *)
Definition kdf_empty (df : KeyedFrame) : bool :=
  match krows df, kcolumns df with
  | [], _ => true
  | _, [] => true
  | _, _ => false
  end.

(** [v != True] *)
Definition ne_true (v : value) : bool :=
  match number_of v with
  | Some x => negb (Qeq_bool x 1%Q)
  | None => true
  end.

End keyed_frames.
Import keyed_frames.

(** ** app_confluence_v2.py: from a space key to the exported table *)

Module app_confluence_v2.

(** The [while True] loop of [get_pages_for_space_key]; the function has
    the loop twice, once around [get_pages_by_space_id] and once around
    [get_pages_by_space_key], which is the [fetch] here.  Beside the
    outcome the loop returns the start offsets it has requested. *)
Fixpoint pages_loop (fetch : Z -> outcome (option (list (string * value))))
    (fuel : nat) (start limit : Z) (all_pages : list value)
    (requested : list Z) : fuelled (outcome (list value)) * list Z :=
  match fuel with
  | O => (OutOfFuel, requested)
  | S fuel' =>
      let requested := requested ++ [start] in
      match fetch start with
      | Raise e => (Done (Raise e), requested)
      | Ok None | Ok (Some []) => (Done (Ok all_pages), requested)
      | Ok (Some pages_data) =>
          match dict_get pages_data "results" with
          | None => (Done (Ok all_pages), requested)
          | Some results =>
              if negb (truthy results) then (Done (Ok all_pages), requested)
              else
                match py_iter results with
                | None => (Done (Raise TypeError), requested)
                | Some items =>
                    let all_pages := all_pages ++ items in
                    match default (VDict []) (dict_get pages_data "_links") with
                    | VDict links =>
                        if truthy (default VNone (dict_get links "next"))
                        then pages_loop fetch fuel' (start + limit) limit
                                        all_pages requested
                        else (Done (Ok all_pages), requested)
                    | _ => (Done (Raise AttributeError), requested)
                    end
                end
          end
      end
  end.

(** [get_pages_for_space_key(space_key, limit)].  The server is read
    through [api_call E], which answers a URL the same way throughout a
    run: the second attempt, which looks the key up once more, sees the
    answers of the first, and nothing is stated here about a server whose
    answers change between the two attempts. *)
Definition get_pages_for_space_key (E : Env) (fuel : nat) (space_key : string)
    (limit : Z) : fuelled (outcome (list value)) * list Z :=
  match get_space_id_by_key E space_key with
  | Raise e => (Done (Raise e), [])
  | Ok space_id =>
      if truthy space_id
      then pages_loop (fun start => Ok (get_pages_by_space_id E space_id start limit))
                      fuel 0 limit [] []
      else pages_loop (fun start => get_pages_by_space_key E space_key start limit)
                      fuel 0 limit [] []
  end.

(** The record built for one page, with its id apart: [page.get] raises
    on a page that is not a dictionary, and so does the second [get] when
    [_links] is not one. *)
Definition page_record (page : value) : outcome (value * row) :=
  match page with
  | VDict p =>
      match default (VDict []) (dict_get p "_links") with
      | VDict links =>
          Ok (default (VStr "") (dict_get p "id"),
              ({[ "type" := default (VStr "") (dict_get p "type");
                  "status" := default (VStr "") (dict_get p "status");
                  "tiny_link" := default (VStr "") (dict_get links "webui");
                  "title" := default (VStr "") (dict_get p "title");
                  "space_id" := default (VStr "") (dict_get p "spaceId") ]} : row))
      | _ => Raise AttributeError
      end
  | _ => Raise AttributeError
  end.

Fixpoint page_records (pages : list value) : outcome (list (value * row)) :=
  match pages with
  | [] => Ok []
  | page :: pages' =>
      match page_record page with
      | Raise e => Raise e
      | Ok rec =>
          match page_records pages' with
          | Raise e => Raise e
          | Ok recs => Ok (rec :: recs)
          end
      end
  end.

(** [create_pages_dataframe(pages)]; [Ok None] is the Python [None]. *)
Definition create_pages_dataframe (pages : list value)
  : outcome (option KeyedFrame) :=
  match pages with
  | [] => Ok None
  | _ =>
      match page_records pages with
      | Raise e => Raise e
      | Ok recs =>
          Ok (Some (mkKeyedFrame
                      ["type"; "status"; "tiny_link"; "title"; "space_id"] recs))
      end
  end.

(** The [for page_id, row in df.iterrows()] loop of
    [add_content_and_labels_to_dataframe], over the labels of the frame.
    [soup] is the text extraction
    [' '.join(BeautifulSoup(html_content, "lxml").stripped_strings)],
    [None] when it raises (which the loop catches). *)
Fixpoint process_pages (E : Env) (soup : value -> option string)
    (page_ids : list value) (df : KeyedFrame) : outcome KeyedFrame :=
  match page_ids with
  | [] => Ok df
  | page_id :: page_ids' =>
      match fetch_labels E (py_str E page_id) with
      | Raise e => Raise e
      | Ok is_internal =>
          let df :=
            match is_internal with
            | Some b => loc_set page_id "is_internal" (VBool b) df
            | None => df
            end in
          match fetch_page_content E (py_str E page_id) with
          | Raise e => Raise e
          | Ok html_content =>
              let df :=
                match html_content with
                | VNone => df
                | _ =>
                    match soup html_content with
                    | Some page_content =>
                        loc_set page_id "content" (VStr page_content) df
                    | None => df
                    end
                end in
              process_pages E soup page_ids' df
          end
      end
  end.

(** [add_content_and_labels_to_dataframe(df)] *)
Definition add_content_and_labels_to_dataframe (E : Env)
    (soup : value -> option string) (df : KeyedFrame) : outcome KeyedFrame :=
  let df := if khas_column "is_internal" df then df
            else kset_scalar "is_internal" (VBool false) df in
  let df := if khas_column "content" df then df
            else kset_scalar "content" (VStr "") df in
  process_pages E soup (fst <$> krows df) df.

(** [save_to_csv(df, filename)]: the frame handed to [to_csv], if any. *)
Definition save_to_csv (df : option KeyedFrame) : option KeyedFrame :=
  match df with
  | Some df => if kdf_empty df then None else Some df
  | None => None
  end.

(** [list_all_spaces()]; the loop that prints the spaces calls
    [space.get] on each of them. *)
Definition list_all_spaces (E : Env) (fuel : nat)
  : fuelled (outcome (option (list value))) :=
  match fst (get_all_spaces_list E fuel) with
  | OutOfFuel => OutOfFuel
  | Done (Raise e) => Done (Raise e)
  | Done (Ok []) => Done (Ok None)
  | Done (Ok spaces) =>
      if forallb is_dict spaces then Done (Ok (Some spaces))
      else Done (Raise AttributeError)
  end.

(** [main()], for a value of the environment variable [SPACE_KEY]: what it
    returns is the frame it saves to [./data/confluence_pages.csv], if it
    saves one. *)
Definition main (E : Env) (soup : value -> option string) (fuel : nat)
    (space_key : option string) : fuelled (outcome (option KeyedFrame)) :=
  match space_key with
  | None | Some "" =>
      match list_all_spaces E fuel with
      | OutOfFuel => OutOfFuel
      | Done (Raise e) => Done (Raise e)
      | Done (Ok _) => Done (Ok None)
      end
  | Some space_key =>
      match fst (get_pages_for_space_key E fuel space_key 25) with
      | OutOfFuel => OutOfFuel
      | Done (Raise e) => Done (Raise e)
      | Done (Ok []) => Done (Ok None)
      | Done (Ok pages) =>
          match create_pages_dataframe pages with
          | Raise e => Done (Raise e)
          | Ok None => Done (Raise AttributeError)
          | Ok (Some df) =>
              match add_content_and_labels_to_dataframe E soup df with
              | Raise e => Done (Raise e)
              | Ok df =>
                  let df := kfilter_rows (fun r => ne_true (cell r "is_internal")) df in
                  Done (Ok (save_to_csv (Some df)))
              end
          end
      end
  end.

End app_confluence_v2.
Import app_confluence_v2.
(** ** Further vocabulary: histories of the tracker *)

Module tracker_history_spec.

(** How many times an error of a type was logged in a history. *)
Fixpoint times_logged (error_type : string) (cs : list tracker_call) : nat :=
  match cs with
  | [] => 0
  | CallLogError ty _ _ :: cs' =>
      (if bool_decide (ty = error_type) then 1 else 0) + times_logged error_type cs'
  | _ :: cs' => times_logged error_type cs'
  end.

(** How many errors were logged in a history, whatever their type. *)
Definition errors_logged (cs : list tracker_call) : nat :=
  length (List.filter (fun c => match c with CallLogError _ _ _ => true | _ => false end) cs).

(** The history consults the circuit breaker. *)
Definition consults (c : tracker_call) : bool :=
  match c with
  | CallShouldContinue _ _ _ => true
  | _ => false
  end.

(** The lines of a log file; a file that does not exist has none. *)
Definition lines_of (w : world) (path : string) : list string :=
  default [] (files w !! path).

End tracker_history_spec.
Import tracker_history_spec.

(** ** Further vocabulary: the Confluence look-ups *)

Module lookup_spec.

(** An entry of a spaces listing that carries the key looked for. *)
Definition has_key (space_key : string) (v : value) : bool :=
  match v with
  | VDict o => str_eq (default VNone (dict_get o "key")) space_key
  | _ => false
  end.

(** An entry of a spaces listing that is a space with another key. *)
Definition other_space (space_key : string) (v : value) : bool :=
  is_dict v && negb (has_key space_key v).

(** The request for the spaces (without paging parameters) is answered
    with a non-empty object whose results are the list [items]. *)
Definition lists_spaces (E : Env) (items : list value) : Prop :=
  exists d, api_call E (spaces_root_url E) = Some d
            /\ d <> [] /\ dict_get d "results" = Some (VList items).

(** The request for a page is answered with the non-empty object [d]. *)
Definition serves_page (E : Env) (page_id : string)
    (d : list (string * value)) : Prop :=
  api_call E (page_url E page_id) = Some d /\ d <> [].

End lookup_spec.
Import lookup_spec.

(** ** Further vocabulary: the export of the pages of a space *)

Module export_spec.

(** The server answers the request for the [k]-th batch of pages of a
    space, [limit] pages at a time, with [pages !! k]. *)
Definition serves_pages (E : Env) (space_id : value) (limit : Z)
    (pages : list (list (string * value))) : Prop :=
  forall (k : nat) d,
    pages !! k = Some d ->
    get_pages_by_space_id E space_id (limit * Z.of_nat k) limit = Some d.

(** The start offsets of the first [n] requests: 0, limit, 2 limit, ... *)
Definition page_offsets (limit : Z) (n : nat) : list Z :=
  (fun k => (limit * Z.of_nat k)%Z) <$> seq 0 n.

(** A response that is not the last: it carries results and a next link. *)
Definition full_page (d : list (string * value)) (r : list value) : Prop :=
  page_results d = Some r /\ r <> [] /\ has_next d.

Definition is_str (v : value) : bool :=
  match v with
  | VStr _ => true
  | _ => false
  end.

(** The id a page is filed under. *)
Definition id_of (page : value) : value :=
  match page with
  | VDict p => default (VStr "") (dict_get p "id")
  | _ => VStr ""
  end.

(** A page as the Confluence API lists it: a dictionary whose id is a
    string and whose [_links], if present, is a dictionary. *)
Definition listed_page (page : value) : Prop :=
  exists p, page = VDict p
    /\ is_str (default (VStr "") (dict_get p "id")) = true
    /\ is_dict (default (VDict []) (dict_get p "_links")) = true.

(** The labels of the page say [internal_only]. *)
Definition internal_only (E : Env) (page_id : value) : bool :=
  match fetch_labels E (py_str E page_id) with
  | Ok (Some true) => true
  | _ => false
  end.

(** The text the export stores for a page, if it could be fetched and
    extracted. *)
Definition extracted (E : Env) (soup : value -> option string)
    (page_id : value) : option string :=
  match fetch_page_content E (py_str E page_id) with
  | Ok VNone | Raise _ => None
  | Ok html_content => soup html_content
  end.

(** What [add_content_and_labels_to_dataframe] leaves in the row of a
    page: the flag its labels give, the text extracted from its content. *)
Definition marked (E : Env) (soup : value -> option string)
    (ir : value * row) : value * row :=
  let r1 :=
    match fetch_labels E (py_str E ir.1) with
    | Ok (Some b) => <["is_internal" := VBool b]> ir.2
    | _ => ir.2
    end in
  (ir.1,
   match extracted E soup ir.1 with
   | Some text => <["content" := VStr text]> r1
   | None => r1
   end).

(** The cells a row starts the loop with: the flag and the content are
    filled in when the frame has no such column. *)
Definition with_defaults (df : KeyedFrame) (ir : value * row) : value * row :=
  let r := if khas_column "is_internal" df then ir.2
           else <["is_internal" := VBool false]> ir.2 in
  (ir.1,
   if khas_column "content" df then r else <["content" := VStr ""]> r).

(** What one turn of the loop, the one for [page_id], does to a row. *)
Definition mark_under (E : Env) (soup : value -> option string)
    (page_id : value) (ir : value * row) : value * row :=
  if same_label ir.1 page_id
  then
    let r1 :=
      match fetch_labels E (py_str E page_id) with
      | Ok (Some b) => <["is_internal" := VBool b]> ir.2
      | _ => ir.2
      end in
    (ir.1,
     match extracted E soup page_id with
     | Some text => <["content" := VStr text]> r1
     | None => r1
     end)
  else ir.

(** The two requests made for a page do not raise. *)
Definition fetches_return (E : Env) (page_id : value) : Prop :=
  (exists l, fetch_labels E (py_str E page_id) = Ok l)
  /\ (exists c, fetch_page_content E (py_str E page_id) = Ok c).

End export_spec.
Import export_spec.

(** ** Further vocabulary: the retry loops *)

Module retry_spec.

(** The longest the chat loop can still sleep when [retry_count] retries
    have been made: the waits 10, 20 and 40 of the retries to come. *)
Definition sleep_budget (retry_count : Z) : Q :=
  if (retry_count <=? 0)%Z then 70
  else if (retry_count =? 1)%Z then 60
  else if (retry_count =? 2)%Z then 40
  else 0.

(** The exception is one the chat loop retries after. *)
Definition retried (e : exn) : bool :=
  match e with
  | RateLimitError | APIConnectionError | APIError (Some 429%Z) => true
  | _ => false
  end.

(** The apology returned at once for an exception that is not retried. *)
Definition apology (e : exn) : string :=
  match e with
  | APIError _ => sorry_error
  | _ => sorry_wrong
  end.

(** How the call ends on an exception that is not retried: with the
    apology, but for an [APIError] that carries no status code, on which
    reading [e.status_code] raises. *)
Definition ends_with (e : exn) : outcome (option string) :=
  match e with
  | APIError None => Raise AttributeError
  | _ => Ok (Some (apology e))
  end.

(** The first [k] chat requests from the [n]-th on are refused for rate
    limiting. *)
Definition refused_from (E : Env) (n k : nat) : Prop :=
  forall i, (i < k)%nat ->
    chat_completions_create E (n + i) = Failure RateLimitError.

End retry_spec.
Import retry_spec.

(** ** Further vocabulary: from the export to the embeddings *)

Module pipeline_spec.

(** The object whose JSON text becomes the [metadata] of a row. *)
Definition metadata_object (r : row) : value :=
  VDict [("source", cell r "tiny_link"); ("text", cell r "content")].

(** [json.loads] gives back the value [json.dumps] was given. *)
Definition decodes_back (E : Env) (v : value) : Prop :=
  json_loads E (json_dumps E v) = Some v.

(** What decoding the metadata of a cleaned row gives, from the content of
    the row it was cleaned from. *)
Definition decoded_content (r : row) : decoded :=
  if truthy (cell r "content") then Text (cell r "content") else MissingText.

(** A record of the file as a row of the frame read from it. *)
Definition row_of_record (rec : value * value * value) : row :=
  {[ "id" := rec.1.1; "tiny_link" := rec.1.2; "content" := rec.2 ]}.

(** A computation sends at most [n] requests to the embeddings endpoint,
    whatever the state it is run in and however it ends. *)
Definition sends_at_most {A} (n : nat) (m : M world A) : Prop :=
  forall w : world,
    (embedding_requests w <= embedding_requests (exec m w)
     <= embedding_requests w + n)%nat.

(** What one attempt leaves in the trace: the consultation of the circuit
    breaker, the pause, the call. *)
Definition attempt (text : value) : list event :=
  [EvShouldContinue "rate_limit" true; EvSleep 0.1; EvCreateEmbeddings text].

(** The embeddings endpoint fails every request with the exception [e]. *)
Definition always_fails (E : Env) (e : exn) : Prop :=
  forall n t, embeddings_create E n t = Failure e.

(** Every append to a log file goes through. *)
Definition logs_writable (E : Env) : Prop :=
  forall path, fs_appendable E path = true.

End pipeline_spec.
Import pipeline_spec.

(** ** Further vocabulary: the batches of the refresh *)

Module batches_spec.

(** The rows of the batch that starts at row [i]. *)
Definition batch_rows (df : DataFrame) (i : nat) : list (Z * row) :=
  rows (iloc i (i + batch_size) df).

(** A pause between batches the loop can hold. *)
Definition pause_in_range (pause : Q) : Prop := (1 <= pause /\ pause <= 30)%Q.

(** The try block of a turn of the batch loop goes through: the embedding
    function returns, and the frame it returns has the column the rows
    are filtered on. *)
Definition batch_went_through (gen : outcome DataFrame) : bool :=
  match gen with
  | Ok batch_df => has_column "embedding_status" batch_df
  | Raise _ => false
  end.

(** The pause after a batch that went through in [duration] seconds:
    [max(1, batch_pause_time - 0.5)] when that was under a second; and the
    pause after a batch that failed: [min(30, batch_pause_time * 2)]. *)
Definition pause_after_batch (duration pause : Q) : Q :=
  if Qltb duration 1 then Qmaximum 1 (pause - 0.5) else pause.

Definition pause_after_failure (pause : Q) : Q := Qminimum 30 (pause * 2).

(** A computation of the application that hands nothing to the index,
    embeds no batch and sends no request for an embedding. *)
Definition quiet {A} (m : M app_state A) : Prop :=
  forall s : app_state,
    (exec m s).2 = s.2
    /\ embedding_requests (exec m s).1 = embedding_requests s.1.

(** Whenever a computation returns, what it returns satisfies [Q]. *)
Definition returns_only {S A} (Q : A -> Prop) (m : M S A) : Prop :=
  forall s a s', m s = (Ok a, s') -> Q a.

End batches_spec.
Import batches_spec.

(** ** Further vocabulary: the count of rate-limit errors *)

Module circuit_spec.

(** The number of rate-limit errors the tracker counts. *)
Definition rate_limit_count (w : world) : Z :=
  default 0%Z (error_count w "rate_limit").

(** The count has not passed the threshold of the embedding loop. *)
Definition within_threshold (w : world) : Prop := (rate_limit_count w <= 5)%Z.

(** A computation of the utilities keeps a property of the process state,
    however it ends. *)
Definition preserves {A} (I : world -> Prop) (m : M world A) : Prop :=
  forall w, I w -> I (exec m w).

(** The same for a computation of the application. *)
Definition preserves_app {A} (I : world -> Prop) (m : M app_state A) : Prop :=
  forall s, I s.1 -> I (exec m s).1.

End circuit_spec.
Import circuit_spec.

(** ** Further vocabulary: from the export to the index *)

Module index_spec.

(** The embeddings endpoint answers every request. *)
Definition answers_all (E : Env) : Prop :=
  forall n t, exists e, embeddings_create E n t = Answer e.

(** The content of the row is a string. *)
Definition has_string_content (r : row) : Prop :=
  exists s, cell r "content" = VStr s.

(** A row of a batch after the embeddings: the cleaned record of an
    exported row, with an embedding, tagged success. *)
Definition embedded_as (E : Env) (ir pr : Z * row) : Prop :=
  pr.1 = ir.1
  /\ pr.2 !! "id" = Some (VStr (py_str E (cell ir.2 "id")))
  /\ pr.2 !! "metadata" = Some (VStr (json_dumps E (metadata_object ir.2)))
  /\ holds_embedding pr.2
  /\ tagged_success pr.2.

(** A row of the frame handed to the index: the same, without the
    bookkeeping cell. *)
Definition indexed_as (E : Env) (ir ur : Z * row) : Prop :=
  ur.1 = ir.1
  /\ ur.2 !! "id" = Some (VStr (py_str E (cell ir.2 "id")))
  /\ ur.2 !! "metadata" = Some (VStr (json_dumps E (metadata_object ir.2)))
  /\ holds_embedding ur.2
  /\ ur.2 !! "embedding_status" = None.

(** The frame the refresh reads from the export. *)
Definition exported_frame (E : Env) : DataFrame :=
  import_csv E (mkDataFrame ["id"; "tiny_link"; "content"] []) csv_file 2000.

End index_spec.
Import index_spec.
(** ** Example data for the look-ups and the export *)

Module export_examples.

(** A Confluence server given by the table of the URLs it answers. *)
Fixpoint served (table : list (string * list (string * value))) (url : string)
  : option (list (string * value)) :=
  match table with
  | [] => None
  | (u, d) :: table' => if String.eqb u url then Some d else served table' url
  end.

Definition space (key id : string) : value :=
  VDict [("key", VStr key); ("id", VStr id)].

Definition page (id title : string) : value :=
  VDict [("id", VStr id); ("title", VStr title);
         ("_links", VDict [("webui", VStr ("/spaces/ENG/pages/" +:+ id))])].

Definition label (name : string) : value := VDict [("name", VStr name)].

Definition stored (html : string) : list (string * value) :=
  [("body", VDict [("storage", VDict [("value", VStr html)])])].

Definition pages_1_2 : list (string * value) :=
  [("results", VList [page "1" "Welcome"; page "2" "Salaries"]);
   ("_links", VDict [("next", VStr "/wiki/api/v2/spaces/42/pages?cursor=x")])].

Definition pages_3 : list (string * value) :=
  [("results", VList [page "3" "Holidays"]); ("_links", VDict [])].

(** Two spaces; the space [ENG] has three pages, served in two responses;
    page 2 is labelled [internal_only]; the labels of page 3 cannot be
    fetched, and its content comes without a body. *)
Definition wiki : list (string * list (string * value)) :=
  [("https://wiki.example/wiki/api/v2/spaces",
    [("results", VList [space "OPS" "7"; space "ENG" "42"])]);
   ("https://wiki.example/wiki/api/v2/spaces/42/pages?limit=25&start=0",
    pages_1_2);
   ("https://wiki.example/wiki/api/v2/spaces/42/pages?limit=25&start=25",
    pages_3);
   ("https://wiki.example/wiki/api/v2/pages/1/labels",
    [("results", VList [label "public"])]);
   ("https://wiki.example/wiki/api/v2/pages/2/labels",
    [("results", VList [label "public"; label "internal_only"])]);
   ("https://wiki.example/wiki/api/v2/pages/1?body-format=storage",
    stored "Welcome to the team");
   ("https://wiki.example/wiki/api/v2/pages/2?body-format=storage",
    stored "Salary bands");
   ("https://wiki.example/wiki/api/v2/pages/3?body-format=storage",
    [("title", VStr "Holidays")])].

Definition wiki_env : Env := demo.confluence_env (served wiki).

(** The same server when the second response of pages is lost. *)
Definition flaky_env : Env :=
  demo.confluence_env
    (served (List.filter
               (fun ud => negb (String.eqb ud.1
                  "https://wiki.example/wiki/api/v2/spaces/42/pages?limit=25&start=25"))
               wiki)).

(** A text extraction for the examples: the stored text as it is. *)
Definition plain_text (html_content : value) : option string :=
  match html_content with
  | VStr s => Some s
  | _ => None
  end.

(** The frame of the first two pages before labels and contents. *)
Definition listed_1_2 : KeyedFrame :=
  mkKeyedFrame ["type"; "status"; "tiny_link"; "title"; "space_id"]
    [(VStr "1", {[ "title" := VStr "Welcome" ]});
     (VStr "2", {[ "title" := VStr "Salaries" ]})].

End export_examples.

Module index_examples.

(** An export of 26 pages, a disk that takes every append and an endpoint
    that answers every request with a vector of two numbers. *)
Definition answered26 : Env :=
  demo.with_csv
    (batch_examples.env_of true (batch_examples.always_answer [0.5%Q; 0.25%Q]))
    refresh_examples.pages26.

End index_examples.

(* ===================================================================== *)
(** * Part II: properties                                                  *)
(* ===================================================================== *)

(** ** The tracker *)

Lemma Qltb_lt (x y : Q) : Qltb x y = true <-> (x < y)%Q.
Proof.
  unfold Qltb. rewrite negb_true_iff, <- not_true_iff_false, Qle_bool_iff.
  split; [apply Qnot_le_lt | apply Qlt_not_le].
Qed.

Lemma Qltb_ge (x y : Q) : Qltb x y = false <-> (y <= x)%Q.
Proof.
  unfold Qltb. rewrite negb_false_iff. apply Qle_bool_iff.
Qed.

Section tracker.
Context (E : Env).

Lemma log_error_run (ty : string) (details : value) (api : string) (w : world) :
  let t := error_tracker w in
  let n := (default 0 (error_counts t !! ty) + 1)%Z in
  let t' := mkTracker (log_dir t) (<[ty := n]> (error_counts t))
                      (<[ty := clock w]> (last_error_time t))
                      (success_counts t) in
  let w1 := with_tracker (fun _ => t') w in
  let path := log_filename E (log_dir t) api (clock w) in
  let entry := log_entry E (clock w) ty details api n in
  log_error E ty details api w =
    if fs_appendable E path
    then (Ok entry,
          with_files (fun fs => <[path := default [] (fs !! path) ++ [json_dumps E entry]]> fs) w1)
    else (Raise OSError, w1).
Proof.
  destruct w as [[ld ec lt sc] ck fs er cr tr]; cbn.
  unfold log_error, bind, modify, time_time, get, append_line, ret; cbn.
  rewrite lookup_insert_eq; cbn.
  destruct (fs_appendable E _); reflexivity.
Qed.


Lemma log_error_tracker (ty : string) (details : value) (api : string) (w : world) :
  let t := error_tracker w in
  error_tracker (exec (log_error E ty details api) w) =
    mkTracker (log_dir t)
      (<[ty := (default 0 (error_counts t !! ty) + 1)%Z]> (error_counts t))
      (<[ty := clock w]> (last_error_time t)) (success_counts t)
  /\ clock (exec (log_error E ty details api) w) = clock w.
Proof.
  unfold exec. rewrite log_error_run. cbn.
  destruct (fs_appendable E _); cbn; auto.
Qed.

(** C8 (amended).  [log_error] increments the type's count, records the
    clock as the type's last-error time and leaves every other entry of the
    tracker alone; when the append to the daily log file
    [<log_dir>/<api_type>_errors_<date>.log] goes through, exactly one line,
    the JSON encoding of [{timestamp, api_type, error_type, details, count}],
    is added at the end of that file and the entry is returned; when the
    append fails, the [OSError] reaches the caller, the files are as they
    were, and the count and the time have already been updated. *)
Theorem log_error_effect (ty : string) (details : value) (api : string)
    (w : world) :
  let t := error_tracker w in
  let n := (default 0 (error_counts t !! ty) + 1)%Z in
  let path := log_filename E (log_dir t) api (clock w) in
  let entry :=
    VDict [("timestamp", VStr (strftime E "%Y-%m-%d %H:%M:%S" (clock w)));
           ("api_type", VStr api); ("error_type", VStr ty);
           ("details", VStr (py_str E details)); ("count", VInt n)] in
  let w' := exec (log_error E ty details api) w in
  error_counts (error_tracker w') = <[ty := n]> (error_counts t)
  /\ last_error_time (error_tracker w') = <[ty := clock w]> (last_error_time t)
  /\ success_counts (error_tracker w') = success_counts t
  /\ log_dir (error_tracker w') = log_dir t
  /\ clock w' = clock w
  /\ path = log_dir t +:+ "/" +:+ api +:+ "_errors_"
              +:+ strftime E "%Y-%m-%d" (clock w) +:+ ".log"
  /\ (if fs_appendable E path
      then result (log_error E ty details api) w = Ok entry
           /\ files w' = <[path := default [] (files w !! path)
                                     ++ [json_dumps E entry]]> (files w)
      else result (log_error E ty details api) w = Raise OSError
           /\ files w' = files w).
Proof.
  cbn zeta. unfold exec, result. rewrite log_error_run. cbn zeta.
  destruct (fs_appendable E _); cbn; repeat split; reflexivity.
Qed.

(** What [should_continue] returns and what it does to the state. *)
Lemma should_continue_run (ty : string) (th : Z) (win : Q) (w : world) :
  should_continue ty th win w =
    match error_count w ty with
    | None => (Ok true, w)
    | Some c =>
        if (c <? th)%Z then (Ok true, w)
        else
          let w1 := with_tracker (with_last_error_time (fun l =>
                      match l !! ty with Some _ => l | None => <[ty := 0%Q]> l end)) w in
          if Qltb win (elapsed_since_last w ty)
          then (Ok true, with_tracker (with_error_counts (fun c => <[ty := 0%Z]> c)) w1)
          else (Ok false, w1)
    end.
Proof.
  unfold should_continue, error_count, elapsed_since_last, bind, get, ret,
    modify, time_time.
  destruct w as [[ld ec lt sc] ck fs er cr tr]; cbn.
  destruct (ec !! ty) as [c|] eqn:Hc; [|reflexivity].
  destruct (c <? th)%Z; [reflexivity|].
  unfold with_tracker, with_last_error_time, with_error_counts; cbn.
  destruct (lt !! ty) as [t0|] eqn:Hl; cbn.
  - rewrite Hl; cbn. destruct (Qltb win _); reflexivity.
  - rewrite lookup_insert_eq; cbn. destruct (Qltb win _); reflexivity.
Qed.

Lemma log_errors_tracker (n : nat) (ty : string) (details : value)
    (api : string) (w : world) :
  let w' := log_errors E (S n) ty details api w in
  error_count w' ty = Some (default 0 (error_count w ty) + Z.of_nat (S n))%Z
  /\ last_error_time (error_tracker w') !! ty = Some (clock w)
  /\ clock w' = clock w.
Proof.
  revert w. induction n as [|n IH]; intros w.
  - cbn -[Z.of_nat]. destruct (log_error_tracker ty details api w) as [Ht Hc].
    unfold error_count. rewrite Ht, Hc. cbn. rewrite !lookup_insert_eq.
    auto.
  - change (log_errors E (S (S n)) ty details api w)
      with (log_errors E (S n) ty details api (exec (log_error E ty details api) w)).
    destruct (IH (exec (log_error E ty details api) w)) as (H1 & H2 & H3).
    destruct (log_error_tracker ty details api w) as [Ht Hc].
    cbn zeta. rewrite H1, H2, H3, Hc. unfold error_count at 1. rewrite Ht. cbn.
    rewrite lookup_insert_eq. cbn. repeat split. f_equal.
    unfold error_count. lia.
Qed.


(** C6 (amended).  [should_continue] returns true exactly when the type was
    never logged, or its count is below the threshold, or more than
    [window_seconds] have passed since its last error; the count is reset
    to zero only in the last of these cases, that is when the count has
    reached the threshold and the window has passed, and is left as it is
    otherwise; nothing else changes.  After five errors of a type, with
    threshold 5, the answer is false while at most [window_seconds] have
    passed since they were logged, and once more than that have passed the
    answer is true and the count is 0. *)
Theorem should_continue_semantics (w : world) (ty : string) (th : Z)
    (win : Q) (details : value) (api : string) (d : Q) :
  (exists (b : bool) (w' : world),
      should_continue ty th win w = (Ok b, w')
      /\ (b = true <->
            error_count w ty = None
            \/ (exists c, error_count w ty = Some c /\ (c < th)%Z)
            \/ (win < elapsed_since_last w ty)%Q)
      /\ ((exists c, error_count w ty = Some c /\ (th <= c)%Z)
          /\ (win < elapsed_since_last w ty)%Q ->
          error_counts (error_tracker w')
            = <[ty := 0%Z]> (error_counts (error_tracker w)))
      /\ (~ ((exists c, error_count w ty = Some c /\ (th <= c)%Z)
             /\ (win < elapsed_since_last w ty)%Q) ->
          error_counts (error_tracker w') = error_counts (error_tracker w))
      /\ success_counts (error_tracker w') = success_counts (error_tracker w)
      /\ clock w' = clock w /\ files w' = files w /\ trace w' = trace w)
  /\ ((0 <= default 0 (error_count w ty))%Z ->
      let w5 := log_errors E 5 ty details api w in
      ((d <= win)%Q ->
         result (should_continue ty 5 win) (exec (time_sleep d) w5) = Ok false)
      /\ ((win < d)%Q ->
         result (should_continue ty 5 win) (exec (time_sleep d) w5) = Ok true
         /\ error_count
              (exec (should_continue ty 5 win) (exec (time_sleep d) w5)) ty
            = Some 0%Z)).
Proof.
  split.
  - rewrite should_continue_run.
    destruct (error_count w ty) as [c|] eqn:Hc.
    + destruct (c <? th)%Z eqn:Hlt.
      * apply Z.ltb_lt in Hlt. exists true, w.
        repeat split; eauto; try tauto.
        intros [(c' & [= <-] & Hge) _]. lia.
      * apply Z.ltb_ge in Hlt. cbn zeta.
        destruct (Qltb win (elapsed_since_last w ty)) eqn:Hq.
        -- apply Qltb_lt in Hq. eexists true, _. split; [reflexivity|].
           destruct w as [[ld ec lt sc] ck fs er cr tr]; cbn in *.
           repeat split; eauto; try tauto.
           intros Hn. exfalso. apply Hn. eauto.
        -- apply Qltb_ge in Hq. eexists false, _. split; [reflexivity|].
           destruct w as [[ld ec lt sc] ck fs er cr tr]; cbn in *.
           repeat split; eauto; try discriminate.
           ++ intros [[=]|[(c' & [= <-] & Hlt')|Hlt']]; [lia|].
              exfalso. apply (Qlt_not_le _ _ Hlt'), Hq.
           ++ intros [_ Hlt']. exfalso. apply (Qlt_not_le _ _ Hlt'), Hq.
    + exists true, w. repeat split; eauto.
      intros [(c & [=] & _) _].
  - intros Hnn w5.
    destruct (log_errors_tracker 4 ty details api w) as (Hc & Hl & Hk).
    fold w5 in Hc, Hl, Hk. clearbody w5.
    set (w6 := exec (time_sleep d) w5).
    assert (Hc6 : error_count w6 ty
                  = Some (default 0 (error_count w ty) + 5)%Z) by exact Hc.
    assert (He6 : (elapsed_since_last w6 ty == d)%Q).
    { unfold elapsed_since_last, w6, exec. cbn. rewrite Hl, Hk. cbn. ring. }
    unfold result, exec at 1. rewrite should_continue_run, Hc6.
    destruct (_ <? 5)%Z eqn:Hlt; [apply Z.ltb_lt in Hlt; lia|]. cbn zeta.
    split; intros Hd.
    + destruct (Qltb win (elapsed_since_last w6 ty)) eqn:Hq; [|reflexivity].
      apply Qltb_lt in Hq. rewrite He6 in Hq.
      exfalso. apply (Qlt_not_le _ _ Hq), Hd.
    + destruct (Qltb win (elapsed_since_last w6 ty)) eqn:Hq.
      * split; [reflexivity|]. unfold error_count. cbn.
        apply lookup_insert_eq.
      * apply Qltb_ge in Hq. rewrite He6 in Hq.
        exfalso. apply (Qlt_not_le _ _ Hd), Hq.
Qed.

End tracker.

(** C6, as written, fails: one error logged long ago, threshold 5.  More
    than the window has passed, the answer is true, and the count is still
    1, not 0. *)
Lemma should_continue_keeps_count_below_threshold :
  let w := exec (time_sleep 1000)
             (exec (log_error (demo.disk_env true) "rate_limit" (VStr "quota") "openai")
                   (startup "./logs" 1000 ∅)) in
  (60 < elapsed_since_last w "rate_limit")%Q
  /\ result (should_continue "rate_limit" 5 60) w = Ok true
  /\ error_count (exec (should_continue "rate_limit" 5 60) w) "rate_limit"
     = Some 1%Z.
Proof.
  cbn zeta. split; [|split].
  - vm_compute. reflexivity.
  - vm_compute. reflexivity.
  - vm_compute. reflexivity.
Qed.

Lemma should_continue_semantics_witness :
  let E := demo.disk_env true in
  let w := startup "./logs" 1000 ∅ in
  let w5 := log_errors E 5 "rate_limit" (VStr "quota") "openai" w in
  result (should_continue "rate_limit" 5 60) (exec (time_sleep 61) w5) = Ok true
  /\ error_count
       (exec (should_continue "rate_limit" 5 60) (exec (time_sleep 61) w5))
       "rate_limit" = Some 0%Z.
Proof.
  cbn zeta.
  refine (proj2 (proj2 (should_continue_semantics (demo.disk_env true)
            (startup "./logs" 1000 ∅) "rate_limit" 5 60 (VStr "quota")
            "openai" 61) _) _).
  - vm_compute. discriminate.
  - vm_compute. reflexivity.
Defined.

(** C8, as written, fails: when the log file cannot be appended to,
    [log_error] raises to its caller. *)
Lemma log_error_raises_when_append_fails :
  result (log_error (demo.disk_env false) "rate_limit" (VStr "quota") "openai")
         (startup "./logs" 1000 ∅) = Raise OSError.
Proof. vm_compute. reflexivity. Qed.

(** *** The tracker over a history of calls *)

Section tracker_history.
Context (E : Env).

Lemma startup_inv (dir : string) (now : Q) (fs : gmap string (list string)) :
  (0 < now)%Q -> tracker_inv (startup dir now fs) ∅.
Proof.
  intros Hnow. unfold tracker_inv, startup; cbn.
  rewrite !dom_empty_L. repeat split; auto. apply map_Forall_empty.
Qed.

Lemma do_call_inv (c : tracker_call) (w : world) (L : gset string) :
  tracker_inv w L ->
  match c with CallSleep q => (0 <= q)%Q | _ => True end ->
  tracker_inv (do_call E c w) (L ∪ logged_types [c]).
Proof.
  intros (Hc & Hl & Hpos & Hclk) Hfw.
  destruct c as [ty details api|op|ty th win| |q]; cbn [do_call logged_types].
  - destruct (log_error_tracker E ty details api w) as [Ht Hk].
    unfold tracker_inv. rewrite Ht, Hk. cbn.
    rewrite !dom_insert_L, Hc, Hl. repeat split; auto; try set_solver.
    apply map_Forall_insert_2; auto.
  - destruct w as [[ld ec lt sc] ck fs er cr tr]; cbn in *.
    unfold tracker_inv; cbn. repeat split; auto; set_solver.
  - unfold exec. rewrite should_continue_run.
    destruct (error_count w ty) as [n|] eqn:Hn;
      [|unfold tracker_inv; repeat split; auto; set_solver].
    destruct (n <? th)%Z;
      [unfold tracker_inv; repeat split; auto; set_solver|].
    assert (Hin : ty ∈ L).
    { rewrite <- Hc. apply elem_of_dom. unfold error_count in Hn. eauto. }
    assert (Hsome : is_Some (last_error_time (error_tracker w) !! ty)).
    { apply elem_of_dom. rewrite Hl. exact Hin. }
    destruct Hsome as [t0 Ht0].
    destruct w as [[ld ec lt sc] ck fs er cr tr]; cbn in *.
    destruct (Qltb win _); unfold tracker_inv; cbn; rewrite Ht0;
      repeat split; auto; set_solver.
  - unfold tracker_inv; cbn. repeat split; auto; set_solver.
  - destruct w as [[ld ec lt sc] ck fs er cr tr]; cbn in *.
    unfold tracker_inv; cbn. repeat split; auto; try set_solver.
    apply Qlt_le_trans with (y := (ck + 0)%Q).
    + rewrite Qplus_0_r. exact Hclk.
    + apply Qplus_le_r. exact Hfw.
Qed.

Lemma run_calls_inv (cs : list tracker_call) (w : world) (L : gset string) :
  tracker_inv w L -> sleeps_forward cs ->
  tracker_inv (run_calls E cs w) (L ∪ logged_types cs).
Proof.
  revert w L. induction cs as [|c cs IH]; intros w L Hinv Hfw.
  - cbn. replace (L ∪ ∅) with L by set_solver. exact Hinv.
  - inversion Hfw as [|? ? Hc Hcs]; subst.
    cbn [run_calls foldl]. fold (run_calls E cs (do_call E c w)).
    pose proof (IH _ _ (do_call_inv c w L Hinv Hc) Hcs) as H.
    replace (L ∪ logged_types (c :: cs))
      with (L ∪ logged_types [c] ∪ logged_types cs); [exact H|].
    destruct c; cbn; set_solver.
Qed.

Lemma sum_values_total (m : gmap string Z) :
  sum_values m = total (map_to_list m).
Proof.
  unfold sum_values, total. rewrite map_fold_foldr.
  induction (map_to_list m) as [|[k v] l IH]; cbn; congruence.
Qed.

Lemma get_error_summary_run (w : world) :
  let t := error_tracker w in
  get_error_summary E w =
    (Ok (mkSummary (sum_values (error_counts t)) (error_counts t)
           (success_counts t)
           ((fun last_time => round2 E (clock w - last_time))
              <$> filter (fun kv => Qltb 0 kv.2 = true) (last_error_time t))),
     w).
Proof. reflexivity. Qed.

(** C10.  [get_error_summary] changes nothing: the state after the call is
    the state before it; the summary's [total_errors] is the sum of the
    per-type counts, and its two count tables are the tracker's; after any
    history of calls on a tracker created at start-up, the summary has a
    seconds-since-last-error entry exactly for the types logged at least
    once. *)
Theorem get_error_summary_observes :
  (forall w : world,
      exists s : ErrorSummary,
        get_error_summary E w = (Ok s, w)
        /\ total_errors s = total (map_to_list (error_counts (error_tracker w)))
        /\ error_types s = error_counts (error_tracker w)
        /\ summary_success_counts s = success_counts (error_tracker w))
  /\ (forall (cs : list tracker_call) (dir : string) (now : Q)
             (fs : gmap string (list string)),
        (0 < now)%Q -> sleeps_forward cs ->
        exists s : ErrorSummary,
          result (get_error_summary E) (run_calls E cs (startup dir now fs))
            = Ok s
          /\ forall ty : string,
               is_Some (time_since_last_error s !! ty) <-> ty ∈ logged_types cs).
Proof.
  split.
  - intros w. rewrite get_error_summary_run. eexists. split; [reflexivity|].
    cbn. split; [apply sum_values_total|]. split; reflexivity.
  - intros cs dir now fs Hnow Hfw.
    destruct (run_calls_inv cs _ _ (startup_inv dir now fs Hnow) Hfw)
      as (_ & Hl & Hpos & _).
    unfold result. rewrite get_error_summary_run.
    eexists. split; [reflexivity|]. intros ty. cbn.
    rewrite lookup_fmap, fmap_is_Some.
    rewrite <- (left_id_L ∅ (∪) (logged_types cs)), <- Hl, elem_of_dom.
    split.
    + intros [t Ht]. apply map_lookup_filter_Some in Ht as [Ht _]. eauto.
    + intros [t Ht]. exists t. apply map_lookup_filter_Some. split; [exact Ht|].
      cbn. apply Qltb_lt. exact (Hpos _ _ Ht).
Qed.

End tracker_history.

Lemma get_error_summary_observes_witness :
  let E := demo.disk_env true in
  let cs := [CallLogError "rate_limit" (VStr "quota") "openai";
             CallSleep 2; CallLogSuccess "embedding_generation";
             CallShouldContinue "rate_limit" 1 1] in
  exists s : ErrorSummary,
    result (get_error_summary E) (run_calls E cs (startup "./logs" 1000 ∅))
      = Ok s
    /\ forall ty : string,
         is_Some (time_since_last_error s !! ty) <-> ty ∈ logged_types cs.
Proof.
  cbn zeta.
  apply (proj2 (get_error_summary_observes (demo.disk_env true))).
  - reflexivity.
  - repeat constructor. discriminate.
Defined.

(** ** The Confluence client *)

Section confluence.
Context (E : Env).

Lemma page_results_get (d : list (string * value)) (r : list value) :
  page_results d = Some r -> dict_get d "results" = Some (VList r).
Proof.
  unfold page_results. destruct (dict_get d "results") as [[]|]; congruence.
Qed.

Lemma page_results_nonempty (d : list (string * value)) (r : list value) :
  page_results d = Some r -> d <> [].
Proof. intros H ->. discriminate H. Qed.

Lemma truthy_VList (r : list value) : truthy (VList r) = false <-> r = [].
Proof. destruct r; cbn; split; congruence. Qed.

(** One turn of the loop on a page that is not the last. *)
Lemma spaces_loop_next (fuel : nat) (start : Z) (acc : list value)
    (req : list Z) (d : list (string * value)) (r : list value) :
  get_all_spaces E start 100 = Some d ->
  page_results d = Some r -> r <> [] -> has_next d ->
  spaces_loop E (S fuel) start 100 acc req
  = spaces_loop E fuel (start + 100) 100 (acc ++ r) (req ++ [start]).
Proof.
  intros Hget Hres Hne (links & u & Hlinks & Hnext & Hu).
  cbn [spaces_loop]. rewrite Hget.
  destruct d as [|kv d']; [discriminate Hres|].
  rewrite (page_results_get _ _ Hres).
  destruct r as [|x r]; [congruence|]. cbn [truthy negb py_iter].
  rewrite Hlinks. cbn [default from_option id]. rewrite Hnext.
  cbn [default from_option id truthy].
  destruct (String.eqb u "") eqn:Heq; [apply String.eqb_eq in Heq; congruence|].
  reflexivity.
Qed.

(** The turn of the loop on the page that omits the next link. *)
Lemma spaces_loop_last (fuel : nat) (start : Z) (acc : list value)
    (req : list Z) (d : list (string * value)) (r : list value) :
  get_all_spaces E start 100 = Some d ->
  page_results d = Some r -> omits_next d ->
  spaces_loop E (S fuel) start 100 acc req
  = (Done (Ok (acc ++ r)), req ++ [start]).
Proof.
  intros Hget Hres Homit.
  cbn [spaces_loop]. rewrite Hget.
  destruct d as [|kv d']; [discriminate Hres|].
  rewrite (page_results_get _ _ Hres).
  destruct r as [|x r]; cbn [truthy negb py_iter].
  - rewrite app_nil_r. reflexivity.
  - destruct Homit as [Hnone|(links & Hlinks & Hnext)].
    + rewrite Hnone. reflexivity.
    + rewrite Hlinks. cbn [default from_option id]. rewrite Hnext. reflexivity.
Qed.

Lemma offsets_from_S (k0 n : nat) :
  (fun k => (100 * Z.of_nat (k0 + k))%Z) <$> seq 0 (S n)
  = (100 * Z.of_nat k0)%Z
      :: ((fun k => (100 * Z.of_nat (S k0 + k))%Z) <$> seq 0 n).
Proof.
  change (seq 0 (S n)) with (0%nat :: seq 1 n).
  rewrite fmap_cons, Nat.add_0_r. f_equal.
  rewrite <- seq_shift, <- list_fmap_compose.
  apply list_fmap_ext. intros _ k _. cbn. f_equal. f_equal. lia.
Qed.

Lemma spaces_loop_pages (init : list (list (string * value)))
    (rs : list (list value)) :
  Forall2 (fun d r => page_results d = Some r /\ r <> [] /\ has_next d) init rs ->
  forall (last : list (string * value)) (r_last : list value) (k0 : nat)
         (acc : list value) (req : list Z) (fuel : nat),
    page_results last = Some r_last -> omits_next last ->
    (forall (k : nat) d, (init ++ [last]) !! k = Some d ->
       get_all_spaces E (100 * Z.of_nat (k0 + k)) 100 = Some d) ->
    length init < fuel ->
    spaces_loop E fuel (100 * Z.of_nat k0) 100 acc req
    = (Done (Ok (acc ++ List.concat (rs ++ [r_last]))),
       req ++ ((fun k => (100 * Z.of_nat (k0 + k))%Z) <$> seq 0 (S (length init)))).
Proof.
  induction 1 as [|d r init rs (Hres & Hne & Hnext) _ IH];
    intros last r_last k0 acc req fuel Hlast Homit Hserve Hfuel.
  - destruct fuel as [|fuel]; [cbn in Hfuel; lia|].
    rewrite (spaces_loop_last fuel _ acc req last r_last); auto.
    + cbn. rewrite app_nil_r, Nat.add_0_r. reflexivity.
    + specialize (Hserve 0%nat last eq_refl). rewrite Nat.add_0_r in Hserve.
      exact Hserve.
  - destruct fuel as [|fuel]; [cbn in Hfuel; lia|].
    rewrite (spaces_loop_next fuel _ acc req d r); auto.
    + replace (100 * Z.of_nat k0 + 100)%Z with (100 * Z.of_nat (S k0))%Z by lia.
      rewrite (IH last r_last (S k0)); auto.
      * f_equal.
        -- cbn [app List.concat]. rewrite <- !app_assoc. reflexivity.
        -- rewrite <- app_assoc. f_equal. cbn [length].
           rewrite (offsets_from_S k0). reflexivity.
      * intros k d' Hk. specialize (Hserve (S k) d' Hk).
        replace (S k0 + k)%nat with (k0 + S k)%nat by lia. exact Hserve.
      * cbn in Hfuel. lia.
    + specialize (Hserve 0%nat d eq_refl). rewrite Nat.add_0_r in Hserve.
      exact Hserve.
Qed.

(** C2 (amended).  When the server answers with a sequence of pages each
    carrying a results list, the pages before the last carry a next link
    and a results list that is not empty, and the last page omits the next
    link, [get_all_spaces_list] terminates, returns the concatenation of
    all the pages' results in order, and requests exactly the start
    offsets 0, 100, 200, ... of these pages, none beyond the page lacking
    the next link.  When the first response is absent or its results list
    is empty it returns the empty list after that one request. *)
Theorem get_all_spaces_list_pages
    (init : list (list (string * value))) (rs : list (list value))
    (last : list (string * value)) (r_last : list value) (fuel : nat) :
  (Forall2 (fun d r => page_results d = Some r /\ r <> [] /\ has_next d) init rs ->
   page_results last = Some r_last -> omits_next last ->
   serves E (init ++ [last]) ->
   length (init ++ [last]) <= fuel ->
   get_all_spaces_list E fuel
   = (Done (Ok (List.concat (rs ++ [r_last]))),
      offsets (length (init ++ [last]))))
  /\ (get_all_spaces E 0 100 = None
      \/ (exists d, get_all_spaces E 0 100 = Some d /\ page_results d = Some []) ->
      get_all_spaces_list E (S fuel) = (Done (Ok []), [0%Z])).
Proof.
  split.
  - intros Hinit Hlast Homit Hserve Hfuel.
    rewrite length_app in *. cbn [length] in *.
    unfold get_all_spaces_list.
    change 0%Z with (100 * Z.of_nat 0)%Z.
    rewrite (spaces_loop_pages init rs Hinit last r_last 0 [] [] fuel);
      auto; try lia.
    cbn -[Z.mul seq]. unfold offsets. rewrite Nat.add_1_r. reflexivity.
  - intros [Hnone|(d & Hget & Hres)]; unfold get_all_spaces_list;
      cbn [spaces_loop].
    + rewrite Hnone. reflexivity.
    + rewrite Hget. destruct d as [|kv d]; [reflexivity|].
      rewrite (page_results_get _ _ Hres). reflexivity.
Qed.

Lemma scan_labels_dicts (items : list value) (b : bool) :
  Forall (fun item => is_dict item = true) items ->
  scan_labels items b = Ok (b || existsb is_internal_only items).
Proof.
  intros Hall. revert b.
  induction Hall as [|item items Hd _ IH]; intros b.
  - cbn. rewrite orb_false_r. reflexivity.
  - destruct item; try discriminate Hd. cbn [scan_labels]. rewrite IH.
    cbn [existsb is_internal_only].
    destruct (str_eq _ _); cbn; [rewrite orb_true_r|]; reflexivity.
Qed.

(** C9.  What [fetch_labels] returns: nothing when the API call yields no
    result (or an empty object); for a response whose results list holds
    label objects, true exactly when one of them is named [internal_only]
    and false otherwise; and, where the specification expects an absent result,
    false for a response that has no results list at all. *)
Theorem fetch_labels_cases (page_id : string) (d : list (string * value))
    (items : list value) :
  (api_call E (labels_url E page_id) = None -> fetch_labels E page_id = Ok None)
  /\ (api_call E (labels_url E page_id) = Some [] ->
      fetch_labels E page_id = Ok None)
  /\ (api_call E (labels_url E page_id) = Some d ->
      page_results d = Some items ->
      Forall (fun item => is_dict item = true) items ->
      fetch_labels E page_id = Ok (Some (existsb is_internal_only items)))
  /\ (api_call E (labels_url E page_id) = Some d ->
      d <> [] -> dict_get d "results" = None ->
      fetch_labels E page_id = Ok (Some false)).
Proof.
  unfold fetch_labels. repeat split.
  - intros ->. reflexivity.
  - intros ->. reflexivity.
  - intros -> Hres Hall. destruct d as [|kv d']; [discriminate Hres|].
    rewrite (page_results_get _ _ Hres). cbn [default from_option id py_iter].
    rewrite (scan_labels_dicts _ _ Hall). reflexivity.
  - intros -> Hne Hnone. destruct d as [|kv d']; [congruence|].
    rewrite Hnone. reflexivity.
Qed.

End confluence.

Lemma has_next_page_with_next (results : list value) :
  has_next (confluence_examples.page_with_next results).
Proof. eexists _, _. repeat split. discriminate. Qed.

Lemma omits_next_page_without_next (results : list value) :
  omits_next (confluence_examples.page_without_next results).
Proof. right. eexists. split; reflexivity. Qed.

Lemma get_all_spaces_list_pages_witness :
  get_all_spaces_list
    (demo.confluence_env (demo.serve_spaces 0 confluence_examples.two_pages)) 2
  = (Done (Ok [confluence_examples.space "ENG"; confluence_examples.space "OPS"]),
     [0%Z; 100%Z]).
Proof.
  refine (proj1 (get_all_spaces_list_pages
            (demo.confluence_env (demo.serve_spaces 0 confluence_examples.two_pages))
            [confluence_examples.page_with_next [confluence_examples.space "ENG"]]
            [[confluence_examples.space "ENG"]]
            (confluence_examples.page_without_next [confluence_examples.space "OPS"])
            [confluence_examples.space "OPS"] 2) _ _ _ _ _).
  - constructor; [|constructor]. split; [reflexivity|].
    split; [discriminate|apply has_next_page_with_next].
  - reflexivity.
  - apply omits_next_page_without_next.
  - intros [|[|k]] d Hk; cbn in Hk; try discriminate;
      injection Hk as <-; vm_compute; reflexivity.
  - cbn. lia.
Defined.

(** C2, as written, fails: the first page carries an empty results list and
    a next link, the second page carries one space and no next link.  The
    listing stops after the first request and returns the empty list, not
    the concatenation of the two pages' results. *)
Lemma get_all_spaces_list_stops_at_empty_page :
  let pages := confluence_examples.empty_first_page in
  let E := demo.confluence_env (demo.serve_spaces 0 pages) in
  serves E pages
  /\ Forall2 (fun d r => page_results d = Some r) pages
             [[]; [confluence_examples.space "OPS"]]
  /\ has_next (confluence_examples.page_with_next [])
  /\ omits_next (confluence_examples.page_without_next [confluence_examples.space "OPS"])
  /\ get_all_spaces_list E 5 = (Done (Ok []), [0%Z])
  /\ List.concat [[]; [confluence_examples.space "OPS"]]
     = [confluence_examples.space "OPS"].
Proof.
  cbn zeta. repeat split.
  - intros [|[|k]] d Hk; cbn in Hk; try discriminate;
      injection Hk as <-; vm_compute; reflexivity.
  - repeat constructor.
  - apply has_next_page_with_next.
  - apply omits_next_page_without_next.
Qed.

Lemma fetch_labels_cases_witness :
  fetch_labels (demo.confluence_env confluence_examples.labels_without_results)
               "12345" = Ok (Some false).
Proof.
  refine (proj2 (proj2 (proj2 (fetch_labels_cases
            (demo.confluence_env confluence_examples.labels_without_results)
            "12345" [("message", VStr "ok")] []))) _ _ _).
  - reflexivity.
  - discriminate.
  - reflexivity.
Defined.

(** ** The chat completion retry loop *)

Section chat.
Context (E : Env).

(** One turn of the loop when the request is refused for rate limiting. *)
Lemma chat_loop_rate_limited (turns : nat) (retry_count : Z) (w : world) :
  chat_completions_create E (chat_requests w) = Failure RateLimitError ->
  (retry_count <= max_retries)%Z ->
  let w1 := mkWorld (error_tracker w) (clock w) (files w)
                    (embedding_requests w) (S (chat_requests w))
                    (trace w ++ [EvChatRequest]) in
  chat_loop E (S turns) retry_count w =
    if (retry_count + 1 >? max_retries)%Z then (Ok (Some sorry_traffic), w1)
    else chat_loop E turns (retry_count + 1)
           (exec (time_sleep (inject_Z (2 ^ (retry_count + 1) * 5))) w1).
Proof.
  intros Hfail Hle. cbn [chat_loop].
  destruct (retry_count <=? max_retries)%Z eqn:Hc;
    [|apply Z.leb_gt in Hc; lia].
  cbn [negb]. unfold try_except, bind, chat_request. rewrite Hfail.
  destruct (retry_count + 1 >? max_retries)%Z; reflexivity.
Qed.

(** C5.  When every attempt is refused for rate limiting,
    [get_chat_completion_messages] sends four requests (the first attempt
    and three retries, never a fourth retry), returns the fixed apology
    instead of raising, and the waits before retries 1, 2 and 3 are 10, 20
    and 40 seconds: the delay is computed after the retry counter has been
    incremented, so the schedule is not the 5, 10, 20 of the specification. *)
Theorem chat_rate_limit_schedule (messages : list value) (model_chat : string)
    (temperature : Q) (w : world) :
  (forall n, chat_completions_create E n = Failure RateLimitError) ->
  let run := get_chat_completion_messages E messages model_chat temperature in
  result run w = Ok (Some sorry_traffic)
  /\ trace (exec run w)
     = trace w ++ [EvChatRequest; EvSleep 10; EvChatRequest; EvSleep 20;
                   EvChatRequest; EvSleep 40; EvChatRequest]
  /\ chat_requests (exec run w) = (4 + chat_requests w)%nat.
Proof.
  intros Hfail run. unfold run, result, exec, get_chat_completion_messages.
  change (Z.to_nat (max_retries + 1)) with 4%nat.
  rewrite chat_loop_rate_limited by (auto; unfold max_retries; lia).
  change (0 + 1 >? max_retries)%Z with false. cbn iota.
  rewrite chat_loop_rate_limited by (auto; unfold max_retries; lia).
  change (0 + 1 + 1 >? max_retries)%Z with false. cbn iota.
  rewrite chat_loop_rate_limited by (auto; unfold max_retries; lia).
  change (0 + 1 + 1 + 1 >? max_retries)%Z with false. cbn iota.
  rewrite chat_loop_rate_limited by (auto; unfold max_retries; lia).
  change (0 + 1 + 1 + 1 + 1 >? max_retries)%Z with true. cbn iota.
  cbn. rewrite <- !app_assoc. cbn. auto.
Qed.

(** The loop always returns: whatever the service answers, four turns
    are enough, and the function never hands back the loop's fall-through
    [None] nor any exception but the [AttributeError] of an [APIError]
    without a status code. *)
Lemma chat_loop_returns (turns : nat) (retry_count : Z) (w : world) :
  (0 <= retry_count)%Z -> (max_retries + 1 - retry_count <= Z.of_nat turns)%Z ->
  (retry_count <= max_retries)%Z ->
  (exists s, result (chat_loop E turns retry_count) w = Ok (Some s))
  \/ result (chat_loop E turns retry_count) w = Raise AttributeError.
Proof.
  revert retry_count w. induction turns as [|turns IH]; intros rc w H0 Hfuel Hle.
  - unfold max_retries in *. lia.
  - unfold result. cbn [chat_loop].
    destruct (rc <=? max_retries)%Z eqn:Hc; [|apply Z.leb_gt in Hc; lia].
    cbn [negb]. unfold try_except, bind, chat_request.
    destruct (chat_completions_create E (chat_requests w)) as [content|e].
    + left. eexists. reflexivity.
    + destruct e as [| |[status|]| | | | | |]; try (left; eexists; reflexivity).
      * destruct (rc + 1 >? max_retries)%Z eqn:Hgt; [left; eexists; reflexivity|].
        cbn. apply IH; unfold max_retries in *; lia.
      * destruct (rc + 1 >? max_retries)%Z eqn:Hgt; [left; eexists; reflexivity|].
        cbn. apply IH; unfold max_retries in *; lia.
      * destruct (status =? 429)%Z; [|left; eexists; reflexivity].
        destruct (rc + 1 >? max_retries)%Z eqn:Hgt; [left; eexists; reflexivity|].
        cbn. apply IH; unfold max_retries in *; lia.
      * right. reflexivity.
Qed.

End chat.

Lemma chat_rate_limit_schedule_witness :
  let E := demo.env true [] demo.no_embeddings demo.no_chat demo.no_api in
  let run := get_chat_completion_messages E [] "gpt-3.5-turbo-0125" 0 in
  let w := startup "./logs" 1000 ∅ in
  result run w = Ok (Some sorry_traffic)
  /\ trace (exec run w)
     = trace w ++ [EvChatRequest; EvSleep 10; EvChatRequest; EvSleep 20;
                   EvChatRequest; EvSleep 40; EvChatRequest]
  /\ chat_requests (exec run w) = (4 + chat_requests w)%nat.
Proof.
  cbn zeta.
  apply (chat_rate_limit_schedule
           (demo.env true [] demo.no_embeddings demo.no_chat demo.no_api)).
  intros n. reflexivity.
Defined.

(** ** Cleaning the exported table *)

Section cleaning.
Context (E : Env).

Lemma has_content_missing (r : row) : has_content r = negb (content_missing r).
Proof.
  unfold has_content, content_missing, cell.
  destruct (r !! "content") as [[]|]; cbn; try reflexivity.
  f_equal.
  destruct (String.eqb_spec s ""); [rewrite bool_decide_eq_true_2|
                                    rewrite bool_decide_eq_false_2]; auto.
Qed.

Lemma forallb_required (df : DataFrame) :
  forallb (fun c => has_column c df) required_columns = true
  <-> required_columns ⊆ columns df.
Proof.
  unfold required_columns, has_column. cbn.
  rewrite !andb_true_iff, !bool_decide_eq_true. split.
  - intros (H1 & H2 & H3 & _) c Hc.
    repeat (apply elem_of_cons in Hc as [->|Hc]; [assumption|]).
    inversion Hc.
  - intros H. repeat split; apply H; repeat constructor.
Qed.

(** The cells of a row that survive [df[['id', 'metadata']]]. *)
Lemma select_id_metadata (r : row) (a b s : value) :
  filter (fun kv : string * value => kv.1 ∈ ["id"; "metadata"])
    (<["metadata" := b]> (<["source" := s]> (delete "tiny_link" (<["id" := a]> r))))
  = {[ "id" := a; "metadata" := b ]}.
Proof.
  apply map_eq. intros k. apply option_eq. intros v.
  rewrite map_lookup_filter_Some. cbn.
  destruct (decide (k = "metadata")) as [->|Hm].
  { rewrite lookup_insert_eq, lookup_insert_ne, lookup_singleton_eq
      by discriminate.
    split; [tauto|]. intros ->. split; [reflexivity|].
    apply elem_of_cons. right. apply elem_of_cons. left. reflexivity. }
  rewrite (lookup_insert_ne _ "metadata") by congruence.
  destruct (decide (k = "id")) as [->|Hi].
  { rewrite lookup_insert_ne, lookup_delete_ne, !lookup_insert_eq by discriminate.
    split; [tauto|]. intros ->. split; [reflexivity|].
    apply elem_of_cons. left. reflexivity. }
  rewrite (lookup_insert_ne _ "id" k), lookup_singleton_ne by congruence.
  split; [|discriminate]. intros [_ Hin]. exfalso.
  apply elem_of_cons in Hin as [->|Hin]; [congruence|].
  apply elem_of_cons in Hin as [->|Hin]; [congruence|]. inversion Hin.
Qed.

Lemma filter_rows_surviving (df : DataFrame) :
  rows (filter_rows has_content df) = surviving df.
Proof.
  unfold filter_rows, surviving. cbn.
  induction (rows df) as [|ir l IH]; [reflexivity|]. cbn.
  rewrite has_content_missing, IH. reflexivity.
Qed.

Lemma clean_with_required_columns (df : DataFrame) :
  required_columns ⊆ columns df -> "source" ∉ columns df ->
  clean_data_pinecone_schema E df
  = Ok (mkDataFrame ["id"; "metadata"] (cleaned_record E <$> surviving df)).
Proof.
  unfold clean_data_pinecone_schema. intros Hreq Hsrc.
  destruct (forallb _ required_columns) eqn:Hall;
    [|apply not_true_iff_false in Hall; rewrite forallb_required in Hall; tauto].
  cbn [negb].
  assert (Hid : "id" ∈ columns df) by (apply Hreq; repeat constructor).
  destruct (df_empty (filter_rows has_content df)) eqn:Hemp.
  { unfold df_empty in Hemp. rewrite filter_rows_surviving in Hemp.
    cbn [filter_rows columns] in Hemp.
    destruct (surviving df); [reflexivity|].
    destruct (columns df); [inversion Hid|discriminate]. }
  unfold has_column. cbn [set_column columns filter_rows].
  unfold has_column. cbn [columns].
  rewrite (bool_decide_eq_true_2 ("id" ∈ columns df)) by exact Hid.
  rewrite (bool_decide_eq_false_2 ("source" ∈ columns df)) by exact Hsrc.
  f_equal. unfold select_columns. cbn [columns rows set_column rename_column].
  f_equal. rewrite filter_rows_surviving.
  rewrite <- !list_fmap_compose. apply list_fmap_ext.
  intros _ [i r] _. cbn. unfold cleaned_record, metadata_of, cell. cbn.
  rewrite select_id_metadata, lookup_insert_eq.
  rewrite !(lookup_insert_ne _ "id") by discriminate.
  rewrite lookup_insert_ne, lookup_delete_ne, lookup_insert_ne by discriminate.
  reflexivity.
Qed.

Lemma clean_without_required_columns (df : DataFrame) :
  ~ required_columns ⊆ columns df ->
  clean_data_pinecone_schema E df = Ok (mkDataFrame ["id"; "metadata"] []).
Proof.
  unfold clean_data_pinecone_schema. intros Hreq.
  destruct (forallb _ required_columns) eqn:Hall;
    [rewrite forallb_required in Hall; tauto|reflexivity].
Qed.

(** C3 (amended).  On a frame that has the columns [id], [tiny_link] and
    [content] and no column named [source], [clean_data_pinecone_schema]
    drops exactly the rows whose content is absent or the empty string, in
    place and in order; every surviving row keeps its label and has only
    the cells [id], coerced to a string, and [metadata], the JSON encoding
    of [{source: the row's tiny_link, text: the row's content}]; the result
    has the columns [id] and [metadata], also when no row survives.  On a
    frame that lacks a required column it returns the empty frame with the
    columns [id] and [metadata]. *)
Theorem clean_data_pinecone_schema_spec (df : DataFrame) :
  (required_columns ⊆ columns df -> "source" ∉ columns df ->
   clean_data_pinecone_schema E df
   = Ok (mkDataFrame ["id"; "metadata"] (cleaned_record E <$> surviving df)))
  /\ (~ required_columns ⊆ columns df ->
      clean_data_pinecone_schema E df = Ok (mkDataFrame ["id"; "metadata"] [])).
Proof.
  split.
  - apply clean_with_required_columns.
  - apply clean_without_required_columns.
Qed.

End cleaning.

Lemma clean_data_pinecone_schema_spec_witness :
  clean_data_pinecone_schema (demo.disk_env true) data_examples.exported
  = Ok (mkDataFrame ["id"; "metadata"]
          (cleaned_record (demo.disk_env true) <$> surviving data_examples.exported)).
Proof.
  apply (proj1 (clean_data_pinecone_schema_spec (demo.disk_env true)
                  data_examples.exported)).
  - apply (bool_decide_unpack _). vm_compute. reflexivity.
  - apply (bool_decide_unpack _). vm_compute. reflexivity.
Defined.

(** C3, as written, fails: a frame that has the three required columns and
    also a column [source], with a row that has a content.  The function
    raises and returns no frame. *)
Lemma clean_data_pinecone_schema_source_column :
  required_columns ⊆ columns data_examples.with_source_column
  /\ length (surviving data_examples.with_source_column) = 1%nat
  /\ clean_data_pinecone_schema (demo.disk_env true)
       data_examples.with_source_column = Raise TypeError.
Proof.
  split; [|split].
  - apply (bool_decide_unpack _). vm_compute. reflexivity.
  - vm_compute. reflexivity.
  - vm_compute. reflexivity.
Qed.

(** ** Generating the embeddings of a batch *)

Section generate.
Context (E : Env).

(** *** What the steps do to the trace *)

Lemma should_continue_answers (ty : string) (th : Z) (win : Q) (w : world) :
  exists (go : bool) (w' : world),
    should_continue ty th win w = (Ok go, w')
    /\ trace w' = trace w
    /\ embedding_requests w' = embedding_requests w
    /\ files w' = files w /\ clock w' = clock w.
Proof.
  rewrite should_continue_run.
  destruct (error_count w ty) as [c|]; [|eexists _, _; eauto].
  destruct (c <? th)%Z; [eexists _, _; eauto|]. cbn zeta.
  destruct (Qltb win _); eexists _, _; (split; [reflexivity|]);
    destruct w as [[ld ec lt sc] ck fs er cr tr]; cbn; auto.
Qed.


Lemma log_success_run (op : string) (w : world) :
  log_success op w
  = (Ok tt, with_tracker (with_success_counts (fun c =>
              <[op := (default 0 (c !! op) + 1)%Z]> c)) w).
Proof. reflexivity. Qed.


Lemma request_embedding_run (index : Z) (text : value) (m : string)
    (p : progress) (w : world) :
  request_embedding E index text m p w =
    match create_embeddings E text m (exec (time_sleep 0.1) w) with
    | (Ok response, w4) =>
        (Ok (NextRow,
             mkProgress
               (at_set index "values" (VList (VFloat <$> response)) (frame p))
               (successful_embeddings p + 1) (failed_embeddings p)),
         exec (log_success "embedding_generation") w4)
    | (Raise e, w4) => (Raise e, w4)
    end.
Proof.
  unfold request_embedding, bind, exec. cbn [time_sleep snd].
  destruct (create_embeddings E text m _) as [[response|e] w4]; reflexivity.
Qed.

(** *** Composing traces *)










(** *** What the loop keeps of the frame *)

(** A property of frames that setting the [values] cell of the rows worked
    on keeps is kept by the whole loop. *)
Section frame_invariant.
Context (P : DataFrame -> Prop) (touched : Z -> Prop).
Context (P_at_set : forall i v f, touched i -> P f -> P (at_set i "values" v f)).

Local Abbreviation keeps := (keeps P).

Lemma keeps_ret (p : progress) (x : row_exit) : keeps p (ret (x, p)).
Proof. intros HP w x' p' w' [= <- <- <-]. exact HP. Qed.

Lemma keeps_ret_failed (p : progress) (x : row_exit) :
  keeps p (ret (x, one_more_failed p)).
Proof. intros HP w x' p' w' [= <- <- <-]. exact HP. Qed.

Lemma keeps_bind {A} (p : progress) (m0 : M world A)
    (k : A -> M world (row_exit * progress)) :
  (forall a, keeps p (k a)) -> keeps p (bind m0 k).
Proof.
  intros Hk HP w x p' w'. unfold bind.
  destruct (m0 w) as [[a|e] w1]; [|discriminate]. apply Hk, HP.
Qed.

Lemma on_embedding_error_keeps (index retries : Z) (p : progress)
    (retry : Z -> M world (row_exit * progress)) (e : exn) :
  (forall r, keeps p (retry r)) ->
  keeps p (on_embedding_error E index retries p retry e).
Proof.
  intros Hretry. unfold on_embedding_error.
  destruct e as [| |status| | | | | |];
    try (apply keeps_bind; intros _; apply keeps_ret_failed).
  - apply keeps_bind. intros _.
    destruct (_ >? _)%Z; [apply keeps_ret_failed|].
    apply keeps_bind. intros _. apply Hretry.
  - apply keeps_bind. intros _.
    destruct (_ <? _)%Z; [|apply keeps_ret_failed].
    apply keeps_bind. intros _. apply Hretry.
  - destruct (bool_decide _).
    + destruct (_ >? _)%Z; [apply keeps_ret_failed|].
      apply keeps_bind. intros _. apply Hretry.
    + apply keeps_bind. intros _. apply keeps_ret_failed.
Qed.

Lemma embed_row_keeps (turns : nat) (index : Z) (text : value) (m : string)
    (retries : Z) (p : progress) :
  touched index ->
  keeps p (embed_row E turns index text m retries p).
Proof.
  intros Htouched. revert retries. induction turns as [|turns IH]; intros retries.
  - apply keeps_ret.
  - cbn [embed_row]. destruct (negb _); [apply keeps_ret|].
    apply keeps_bind. intros go. apply keeps_bind. intros _.
    destruct go; cbn [negb]; [|apply keeps_ret].
    intros HP w x p' w'. unfold try_except. rewrite request_embedding_run.
    destruct (create_embeddings E text m _) as [[response|e] w4].
    + intros [= <- <- <-]. cbn. apply P_at_set; [exact Htouched|exact HP].
    + apply on_embedding_error_keeps; [intros r; apply IH|exact HP].
Qed.

Lemma embed_rows_keeps (its : list (Z * row)) (m : string) (p : progress) :
  Forall touched its.*1 ->
  keeps p (embed_rows E its m p).
Proof.
  intros Hall. revert p.
  induction its as [|[index r] its IH]; intros p.
  - apply keeps_ret.
  - rewrite fmap_cons in Hall. apply Forall_cons in Hall as [Hindex Hall].
    specialize (IH Hall).
    cbn [embed_rows]. apply keeps_bind. intros [| |text].
    + apply keeps_bind. intros _. apply (IH (one_more_failed p)).
    + apply keeps_bind. intros _. apply (IH (one_more_failed p)).
    + intros HP w x p' w'. unfold bind.
      pose proof (embed_row_keeps (Z.to_nat (max_retries + 1)) index text m 0 p
                    Hindex HP w) as Hrow.
      destruct (embed_row E _ index text m 0 p w) as [[[[] p1]|e] w1];
        [| |discriminate].
      * apply IH. exact (Hrow _ _ _ eq_refl).
      * intros [= <- <- <-]. exact (Hrow _ _ _ eq_refl).
Qed.

End frame_invariant.

Lemma at_set_labels (i : Z) (c : string) (v : value) (f : DataFrame) :
  labels (at_set i c v f) = labels f.
Proof.
  unfold labels, at_set. cbn [rows]. rewrite <- list_fmap_compose.
  apply list_fmap_ext. intros _ [j r] _. cbn. destruct (j =? i)%Z; reflexivity.
Qed.

Lemma at_set_rows_labelled (i0 j : Z) (c : string) (v : value) (f : DataFrame) :
  j <> i0 -> rows_labelled i0 (at_set j c v f) = rows_labelled i0 f.
Proof.
  intros Hne. unfold rows_labelled, at_set. cbn [rows].
  induction (rows f) as [|[i r] l IH]; [reflexivity|].
  rewrite fmap_cons. cbn [List.filter fst snd].
  destruct (Z.eqb_spec i j) as [->|Hij]; cbn [fst].
  - destruct (Z.eqb_spec j i0); [congruence|]. exact IH.
  - destruct (i =? i0)%Z; rewrite IH; reflexivity.
Qed.

(** The rows with a label that the loop does not work on come out of the
    loop as they went in: an embedding stored for a row is not changed by
    the work on the other rows of the batch, whether it succeeds or
    fails. *)
Lemma embed_rows_leaves_other_rows (its : list (Z * row)) (m : string)
    (p p' : progress) (w w' : world) (x : row_exit) (i0 : Z) :
  i0 ∉ its.*1 ->
  embed_rows E its m p w = (Ok (x, p'), w') ->
  rows_labelled i0 (frame p') = rows_labelled i0 (frame p).
Proof.
  intros Hnot Hrun.
  apply (embed_rows_keeps
           (fun f => rows_labelled i0 f = rows_labelled i0 (frame p))
           (fun j => j <> i0)
           (fun j v f Hj Hf => eq_trans (at_set_rows_labelled i0 j "values" v f Hj) Hf)
           its m p) with (w := w) (x := x) (w' := w').
  - apply Forall_forall. intros j Hj ->. exact (Hnot Hj).
  - reflexivity.
  - exact Hrun.
Qed.

(** Every row of a tagged frame is tagged by what its [values] cell holds. *)
Lemma tag_embedding_status_rows (df : DataFrame) :
  Forall (fun ir => tagged_by_values ir.2) (rows (tag_embedding_status df)).
Proof.
  unfold tag_embedding_status, set_column. cbn [rows].
  apply Forall_fmap, Forall_forall. intros [i r] _. cbn.
  unfold tagged_by_values, holds_embedding, tagged_success, tagged_not_processed.
  rewrite !lookup_insert_eq, !lookup_insert_ne by discriminate.
  destruct (r !! "values") as [v|] eqn:Hv; cbn.
  - destruct v; cbn; try (right; split; [intros [l [=]]|reflexivity]).
    left. eauto.
  - right. split; [intros [l [=]]|reflexivity].
Qed.

Lemma tag_embedding_status_labels (df : DataFrame) :
  labels (tag_embedding_status df) = labels df.
Proof.
  unfold labels, tag_embedding_status, set_column. cbn [rows].
  rewrite <- list_fmap_compose. apply list_fmap_ext. intros _ [i r] _. reflexivity.
Qed.

(** Whatever [generate_embeddings_and_add_to_df] returns, its rows are
    tagged by what their [values] cells hold. *)
Lemma generate_tagged (df : DataFrame) (m : string) (w : world)
    (out : DataFrame) :
  result (generate_embeddings_and_add_to_df E df m) w = Ok out ->
  Forall (fun ir => tagged_by_values ir.2) (rows out).
Proof.
  unfold result, generate_embeddings_and_add_to_df.
  destruct (df_empty df); [intros [= <-]; constructor|].
  destruct (negb _); [intros [= <-]; constructor|].
  unfold bind.
  destruct (embed_rows E _ m _ w) as [[[[] p']|e] w1]; cbn.
  - intros [= <-]. apply tag_embedding_status_rows.
  - intros [= <-]. apply tag_embedding_status_rows.
  - discriminate.
Qed.

(** *** A batch whose requests are all answered *)

Lemma should_continue_closed (w : world) :
  circuit_closed w -> should_continue "rate_limit" 5 60 w = (Ok true, w).
Proof.
  unfold circuit_closed. rewrite should_continue_run.
  destruct (error_count w "rate_limit") as [c|]; [|reflexivity].
  intros Hc. apply Z.ltb_lt in Hc. rewrite Hc. reflexivity.
Qed.

Lemma log_error_appended (ty : string) (details : value) (api : string)
    (w : world) :
  fs_appendable E (log_filename E (log_dir (error_tracker w)) api (clock w)) = true ->
  exists entry,
    log_error E ty details api w = (Ok entry, exec (log_error E ty details api) w).
Proof.
  intros Happ. unfold exec. rewrite log_error_run. cbn zeta. rewrite Happ.
  eexists. reflexivity.
Qed.

Lemma log_error_keeps_circuit (ty : string) (details : value) (api : string)
    (w : world) :
  ty <> "rate_limit" -> circuit_closed w ->
  circuit_closed (exec (log_error E ty details api) w).
Proof.
  intros Hne. unfold circuit_closed, error_count.
  destruct (log_error_tracker E ty details api w) as [-> _]. cbn.
  rewrite lookup_insert_ne by exact Hne. auto.
Qed.

Lemma embed_rows_skipped (index : Z) (r : row) (its : list (Z * row))
    (m : string) (p : progress) (w : world) :
  skipped E r ->
  fs_appendable E (log_filename E (log_dir (error_tracker w)) "openai" (clock w)) = true ->
  exists (ty : string) (details : value),
    (ty = "json_decode" \/ ty = "missing_text")
    /\ embed_rows E ((index, r) :: its) m p w
       = embed_rows E its m (one_more_failed p)
           (exec (log_error E ty details "openai") w).
Proof.
  intros [Hd|Hd] Happ; cbn [embed_rows]; unfold bind, of_outcome; rewrite Hd.
  - eexists "json_decode", _. split; [auto|].
    destruct (log_error_appended "json_decode"
                (VStr ("Error decoding JSON for row " +:+ pretty index))
                "openai" w Happ) as [entry ->].
    reflexivity.
  - eexists "missing_text", _. split; [auto|].
    destruct (log_error_appended "missing_text"
                (VStr ("Warning: Missing 'text' in metadata for row "
                         +:+ pretty index +:+ ". Skipping."))
                "openai" w Happ) as [entry ->].
    reflexivity.
Qed.

Lemma create_embeddings_answered (s : string) (m : string) (w : world) :
  (forall n t, exists e, embeddings_create E n t = Answer e) ->
  exists e w',
    create_embeddings E (VStr s) m w = (Ok e, w')
    /\ error_tracker w' = error_tracker w.
Proof.
  intros Hans. unfold create_embeddings, bind, modify, embeddings_request.
  cbn [py_len py_slice emit error_tracker embedding_requests].
  destruct (_ <? String.length s)%nat;
    match goal with
    | |- context [embeddings_create E ?n ?t] => destruct (Hans n t) as [e ->]
    end; eexists _, _; split; reflexivity.
Qed.

Lemma embed_row_answered (turns : nat) (index : Z) (s : string) (m : string)
    (p : progress) (w : world) :
  (forall n t, exists e, embeddings_create E n t = Answer e) ->
  circuit_closed w ->
  exists e w',
    embed_row E (S turns) index (VStr s) m 0 p w
    = (Ok (NextRow,
           mkProgress (at_set index "values" (VList (VFloat <$> e)) (frame p))
                      (successful_embeddings p + 1) (failed_embeddings p)),
       w')
    /\ circuit_closed w'.
Proof.
  intros Hans Hc. cbn [embed_row].
  change (negb (0 <=? max_retries)%Z) with false. cbn iota.
  unfold bind. rewrite (should_continue_closed w Hc). cbn [modify negb].
  unfold try_except. rewrite request_embedding_run.
  destruct (create_embeddings_answered s m
              (exec (time_sleep 0.1) (emit (EvShouldContinue "rate_limit" true) w))
              Hans) as (e & w4 & -> & Ht).
  eexists e, _. split; [reflexivity|].
  unfold circuit_closed, error_count, exec in *. rewrite log_success_run.
  cbn [snd with_tracker error_tracker with_success_counts error_counts].
  rewrite Ht. destruct w as [[ld ec lt sc] ck fs er cr tr]. exact Hc.
Qed.

Lemma embed_rows_all_answered (m : string) (its : list (Z * row)) :
  (forall path, fs_appendable E path = true) ->
  (forall n t, exists e, embeddings_create E n t = Answer e) ->
  Forall (fun ir => skipped E ir.2 \/ exists s, has_text E ir.2 (VStr s)) its ->
  forall (p : progress) (w : world),
    circuit_closed w ->
    exists (updates : list (Z * list value)) (p' : progress) (w' : world),
      embed_rows E its m p w = (Ok (NextRow, p'), w')
      /\ frame p' = store_all updates (frame p)
      /\ updates.*1 = (List.filter (fun ir => embeddable E ir.2) its).*1
      /\ circuit_closed w'.
Proof.
  intros Happ Hans Hall.
  induction Hall as [|[index r] its Hrow _ IH]; intros p w Hc.
  - exists [], p, w. repeat split; auto.
  - destruct Hrow as [Hskip|[s Htext]]; cbn [snd] in *.
    + destruct (embed_rows_skipped index r its m p w Hskip (Happ _))
        as (ty & details & Hty & ->).
      destruct (IH (one_more_failed p) (exec (log_error E ty details "openai") w))
        as (updates & p' & w' & Hrun & Hf & Hu & Hc').
      { apply log_error_keeps_circuit; [|exact Hc].
        destruct Hty as [-> | ->]; discriminate. }
      exists updates, p', w'. repeat split; auto.
      cbn [List.filter snd]. unfold embeddable at 1.
      destruct Hskip as [-> | ->]; exact Hu.
    + cbn [embed_rows]. unfold bind, of_outcome. unfold has_text in Htext.
      rewrite Htext.
      change (Z.to_nat (max_retries + 1)) with 4%nat.
      destruct (embed_row_answered 3 index s m p w Hans Hc)
        as (e & w1 & -> & Hc1).
      match goal with
      | |- context [embed_rows E its m ?p1 w1] =>
          destruct (IH p1 w1 Hc1) as (updates & p' & w' & Hrun & Hf & Hu & Hc')
      end.
      exists ((index, VFloat <$> e) :: updates), p', w'.
      repeat split; auto.
      cbn [List.filter snd]. unfold embeddable at 1. rewrite Htext.
      cbn. rewrite Hu. reflexivity.
Qed.

(** *** The stored embeddings, row by row *)

Lemma store_all_rows (updates : list (Z * list value)) (f : DataFrame) :
  rows (store_all updates f) = store_in_row updates <$> rows f
  /\ columns (store_all updates f) = columns f.
Proof.
  revert f. induction updates as [|u updates IH]; intros f.
  - cbn. split; [|reflexivity]. rewrite <- (list_fmap_id (rows f)) at 1.
    apply list_fmap_ext. intros _ ir _. reflexivity.
  - cbn [store_all foldl]. fold (store_all updates (at_set u.1 "values" (VList u.2) f)).
    destruct (IH (at_set u.1 "values" (VList u.2) f)) as [-> ->].
    split; [|reflexivity]. unfold at_set. cbn [rows].
    rewrite <- list_fmap_compose. apply list_fmap_ext.
    intros _ [i r] _. cbn. destruct (i =? u.1)%Z; reflexivity.
Qed.

Lemma store_in_row_label (updates : list (Z * list value)) (ir : Z * row) :
  (store_in_row updates ir).1 = ir.1.
Proof.
  revert ir. induction updates as [|u updates IH]; intros ir; [reflexivity|].
  cbn [store_in_row foldl].
  fold (store_in_row updates
          (if (ir.1 =? u.1)%Z then (ir.1, <["values" := VList u.2]> ir.2) else ir)).
  rewrite IH. destruct (ir.1 =? u.1)%Z; reflexivity.
Qed.

Lemma store_in_row_other (updates : list (Z * list value)) (ir : Z * row)
    (c : string) :
  c <> "values" -> (store_in_row updates ir).2 !! c = ir.2 !! c.
Proof.
  intros Hc. revert ir. induction updates as [|u updates IH]; intros ir;
    [reflexivity|].
  cbn [store_in_row foldl].
  fold (store_in_row updates
          (if (ir.1 =? u.1)%Z then (ir.1, <["values" := VList u.2]> ir.2) else ir)).
  rewrite IH. destruct (ir.1 =? u.1)%Z; [|reflexivity].
  cbn. rewrite lookup_insert_ne by congruence. reflexivity.
Qed.

Lemma store_in_row_values (updates : list (Z * list value)) (ir : Z * row) :
  is_list (default VNone ((store_in_row updates ir).2 !! "values"))
  = bool_decide (ir.1 ∈ updates.*1)
    || is_list (default VNone (ir.2 !! "values")).
Proof.
  revert ir. induction updates as [|u updates IH]; intros ir.
  - cbn. rewrite bool_decide_eq_false_2; [reflexivity|]. apply not_elem_of_nil.
  - cbn [store_in_row foldl].
    fold (store_in_row updates
            (if (ir.1 =? u.1)%Z then (ir.1, <["values" := VList u.2]> ir.2) else ir)).
    rewrite IH. rewrite fmap_cons.
    destruct (Z.eqb_spec ir.1 u.1) as [Heq|Hne].
    + cbn [fst snd]. rewrite lookup_insert_eq. cbn [default from_option id is_list].
      rewrite orb_true_r. symmetry. apply orb_true_iff. left.
      apply bool_decide_eq_true. rewrite Heq. apply elem_of_cons. auto.
    + f_equal. apply bool_decide_ext. rewrite elem_of_cons. tauto.
Qed.

Lemma same_label_same_row (l : list (Z * row)) (ir ir' : Z * row) :
  NoDup l.*1 -> ir ∈ l -> ir' ∈ l -> ir.1 = ir'.1 -> ir = ir'.
Proof.
  induction l as [|x l IH]; intros Hnd Hin Hin' Heq; [inversion Hin|].
  rewrite fmap_cons in Hnd. apply NoDup_cons in Hnd as [Hx Hnd].
  apply elem_of_cons in Hin as [->|Hin]; apply elem_of_cons in Hin' as [->|Hin'].
  - reflexivity.
  - exfalso. apply Hx. rewrite Heq. apply list_elem_of_fmap. eauto.
  - exfalso. apply Hx. rewrite <- Heq. apply list_elem_of_fmap. eauto.
  - auto.
Qed.

Lemma label_of_embeddable (l : list (Z * row)) (ir : Z * row) :
  NoDup l.*1 -> ir ∈ l ->
  bool_decide (ir.1 ∈ (List.filter (fun ir => embeddable E ir.2) l).*1)
  = embeddable E ir.2.
Proof.
  intros Hnd Hin. destruct (embeddable E ir.2) eqn:He.
  - apply bool_decide_eq_true. apply list_elem_of_fmap. exists ir.
    split; [reflexivity|]. apply list_elem_of_In, filter_In.
    split; [apply list_elem_of_In, Hin|exact He].
  - apply bool_decide_eq_false. intros Hin'.
    apply list_elem_of_fmap in Hin' as (ir' & Heq & Hin').
    apply list_elem_of_In, filter_In in Hin' as [Hin' He'].
    apply list_elem_of_In in Hin'.
    rewrite (same_label_same_row l ir ir' Hnd Hin Hin' Heq) in He. congruence.
Qed.

Lemma cell_after_values (r : row) (v : value) (c : string) :
  c <> "values" -> cell (<["values" := v]> r) c = cell r c.
Proof. intros Hc. unfold cell. rewrite lookup_insert_ne by congruence. reflexivity. Qed.

(** A batch with distinct labels, on a disk that takes every append, with
    an endpoint that answers every request and a closed circuit: the run
    returns the batch with exactly the rows that have a text tagged
    success, each holding an embedding list. *)
Lemma generate_all_answered (df : DataFrame) (m : string) (w : world) :
  df_empty df = false -> has_column "metadata" df = true ->
  NoDup (labels df) ->
  (forall path, fs_appendable E path = true) ->
  (forall n t, exists e, embeddings_create E n t = Answer e) ->
  Forall (fun ir => skipped E ir.2 \/ exists s, has_text E ir.2 (VStr s)) (rows df) ->
  circuit_closed w ->
  exists (out : DataFrame) (w' : world),
    generate_embeddings_and_add_to_df E df m w = (Ok out, w')
    /\ circuit_closed w'
    /\ Forall2 (fun ir ir' =>
                  ir'.1 = ir.1
                  /\ if embeddable E ir.2
                     then tagged_success ir'.2 /\ holds_embedding ir'.2
                     else tagged_not_processed ir'.2)
               (rows df) (rows out).
Proof.
  intros He Hm Hnd Happ Hans Hall Hc.
  unfold generate_embeddings_and_add_to_df. rewrite He, Hm. cbn [negb].
  set (with_values := fun ir : Z * row => (ir.1, <["values" := VNone]> ir.2)).
  set (df0 := set_column "values" (fun _ _ => VNone) df).
  assert (Hrows0 : rows df0 = with_values <$> rows df) by reflexivity.
  assert (Hall0 : Forall (fun ir => skipped E ir.2 \/ exists s, has_text E ir.2 (VStr s))
                         (rows df0)).
  { rewrite Hrows0. apply Forall_fmap. eapply Forall_impl; [exact Hall|].
    intros [i r]. unfold skipped, has_text. cbn.
    rewrite cell_after_values by discriminate. auto. }
  destruct (embed_rows_all_answered m (rows df0) Happ Hans Hall0
              (mkProgress df0 0 0) w Hc)
    as (updates & p' & w' & Hrun & Hf & Hu & Hc').
  unfold bind. rewrite Hrun. cbn [frame] in Hf.
  rewrite get_error_summary_run. eexists _, w'. split; [reflexivity|].
  split; [exact Hc'|].
  rewrite Hf. unfold tag_embedding_status, set_column. cbn [rows].
  destruct (store_all_rows updates df0) as [-> _]. rewrite Hrows0.
  rewrite <- !list_fmap_compose. apply Forall2_fmap_r.
  apply Forall_Forall2_diag, Forall_forall. intros [i r] Hin. cbn.
  rewrite store_in_row_label. split; [reflexivity|].
  rewrite store_in_row_values. cbn.
  rewrite lookup_insert_eq. cbn. rewrite orb_false_r.
  rewrite Hu.
  assert (Hemb : bool_decide (i ∈ (List.filter (fun ir => embeddable E ir.2) (rows df0)).*1)
                 = embeddable E r).
  { transitivity (embeddable E (with_values (i, r)).2).
    - apply (label_of_embeddable (rows df0) (with_values (i, r))).
      + rewrite Hrows0, <- list_fmap_compose.
        replace (fst ∘ with_values) with (@fst Z row); [exact Hnd|reflexivity].
      + rewrite Hrows0. apply list_elem_of_fmap. eauto.
    - unfold embeddable. cbn. rewrite cell_after_values by discriminate.
      reflexivity. }
  rewrite Hemb. unfold tagged_success, tagged_not_processed, holds_embedding.
  destruct (embeddable E r); rewrite lookup_insert_eq; [|reflexivity].
  split; [reflexivity|].
  rewrite lookup_insert_ne by discriminate.
  pose proof (store_in_row_values updates (with_values (i, r))) as Hv.
  cbn in Hv. rewrite lookup_insert_eq in Hv. cbn in Hv.
  rewrite orb_false_r, Hu, Hemb in Hv.
  remember ((store_in_row updates (with_values (i, r))).2 !! "values") as o eqn:Ho.
  clear Ho. destruct o as [[]|]; try discriminate Hv. eauto.
Qed.

(** The frame [generate_embeddings_and_add_to_df] returns for a batch that
    has rows and a [metadata] column has the rows of the batch, label by
    label. *)
Lemma generate_labels (df : DataFrame) (m : string) (w : world)
    (out : DataFrame) :
  df_empty df = false -> has_column "metadata" df = true ->
  result (generate_embeddings_and_add_to_df E df m) w = Ok out ->
  labels out = labels df.
Proof.
  intros He Hm. unfold result, generate_embeddings_and_add_to_df.
  rewrite He, Hm. cbn [negb]. unfold bind.
  set (df0 := set_column "values" (fun _ _ => VNone) df).
  assert (H0 : labels df0 = labels df).
  { unfold labels, df0, set_column. cbn [rows]. rewrite <- list_fmap_compose.
    apply list_fmap_ext. intros _ [i r] _. reflexivity. }
  pose proof (embed_rows_keeps (fun f => labels f = labels df) (fun _ => True)
                (fun i v f _ Hf => eq_trans (at_set_labels i "values" v f) Hf)
                (rows df0) m (mkProgress df0 0 0)
                (proj2 (Forall_forall _ _) (fun _ _ => I)) H0 w) as Hk.
  destruct (embed_rows E _ m _ w) as [[[[] p']|e] w1]; cbn.
  - intros [= <-]. rewrite tag_embedding_status_labels. exact (Hk _ _ _ eq_refl).
  - intros [= <-]. rewrite tag_embedding_status_labels. exact (Hk _ _ _ eq_refl).
  - discriminate.
Qed.

Lemma filter_all (A : Type) (f : A -> bool) (l : list A) :
  Forall (fun x => f x = true) l -> List.filter f l = l.
Proof.
  induction 1 as [|x l Hx _ IH]; [reflexivity|]. cbn. rewrite Hx, IH. reflexivity.
Qed.



End generate.




(** ** The account of a run of the embedding loop, row by row *)

Section account.
Context (E : Env).

(** *** The requests counted by the steps *)

Lemma log_error_requests (ty : string) (details : value) (api : string)
    (w w' : world) (o : outcome value) :
  log_error E ty details api w = (o, w') ->
  embedding_requests w' = embedding_requests w.
Proof.
  rewrite log_error_run. cbn zeta.
  destruct (fs_appendable E _); intros [= <- <-];
    destruct w as [[ld ec lt sc] ck fs er cr tr]; reflexivity.
Qed.

(** [create_embeddings] sends what [text_sent] says, as the next request
    of the process, and nothing when the text cannot be measured. *)
Lemma create_embeddings_account (text : value) (m : string) (w : world) :
  exists w',
    create_embeddings E text m w
    = (match text_sent text with
       | None => Raise TypeError
       | Some q =>
           match embeddings_create E (embedding_requests w) q with
           | Answer e => Ok e
           | Failure ex => Raise ex
           end
       end, w')
    /\ embedding_requests w'
       = match text_sent text with
         | None => embedding_requests w
         | Some _ => S (embedding_requests w)
         end.
Proof.
  unfold create_embeddings, text_sent, bind, modify, raise.
  destruct (py_len text) as [n|]; [|eexists; split; reflexivity].
  destruct (8000 <? n)%nat.
  - destruct (py_slice 8000 text) as [q|]; [|eexists; split; reflexivity].
    unfold embeddings_request. cbn [emit embedding_requests].
    destruct (embeddings_create E _ q); eexists; split; reflexivity.
  - unfold embeddings_request. cbn [emit embedding_requests].
    destruct (embeddings_create E _ text); eexists; split; reflexivity.
Qed.

(** The handlers of a failed request: the row is given up, or the loop
    takes another turn; no request is sent in between. *)
Lemma on_embedding_error_cases (index retries : Z) (p : progress)
    (retry : Z -> M world (row_exit * progress)) (ex : exn)
    (w w' : world) (x : row_exit) (p' : progress) :
  on_embedding_error E index retries p retry ex w = (Ok (x, p'), w') ->
  (x = NextRow /\ p' = one_more_failed p
   /\ embedding_requests w' = embedding_requests w)
  \/ exists r w1,
       embedding_requests w1 = embedding_requests w
       /\ retry r w1 = (Ok (x, p'), w').
Proof.
  assert (Hlog : forall ty details (k : M world (row_exit * progress)),
            (forall w1, embedding_requests w1 = embedding_requests w ->
                        k w1 = (Ok (x, p'), w') ->
                        (x = NextRow /\ p' = one_more_failed p
                         /\ embedding_requests w' = embedding_requests w)
                        \/ exists r w2,
                             embedding_requests w2 = embedding_requests w
                             /\ retry r w2 = (Ok (x, p'), w')) ->
            (log_error E ty details "openai" ;;; k) w = (Ok (x, p'), w') ->
            (x = NextRow /\ p' = one_more_failed p
             /\ embedding_requests w' = embedding_requests w)
            \/ exists r w2,
                 embedding_requests w2 = embedding_requests w
                 /\ retry r w2 = (Ok (x, p'), w')).
  { intros ty details k Hk. unfold bind.
    destruct (log_error E ty details "openai" w) as [[entry|e] w1] eqn:Hl;
      [|discriminate].
    apply Hk. exact (log_error_requests _ _ _ _ _ _ Hl). }
  assert (Hgive : forall w1, embedding_requests w1 = embedding_requests w ->
            ret (NextRow, one_more_failed p) w1 = (Ok (x, p'), w') ->
            (x = NextRow /\ p' = one_more_failed p
             /\ embedding_requests w' = embedding_requests w)
            \/ exists r w2,
                 embedding_requests w2 = embedding_requests w
                 /\ retry r w2 = (Ok (x, p'), w')).
  { intros w1 Hw1 [= <- <- <-]. left. auto. }
  assert (Hretry : forall seconds r w1,
            embedding_requests w1 = embedding_requests w ->
            (time_sleep seconds ;;; retry r) w1 = (Ok (x, p'), w') ->
            (x = NextRow /\ p' = one_more_failed p
             /\ embedding_requests w' = embedding_requests w)
            \/ exists r w2,
                 embedding_requests w2 = embedding_requests w
                 /\ retry r w2 = (Ok (x, p'), w')).
  { intros seconds r w1 Hw1 Hrun. right. unfold bind, time_sleep in Hrun.
    eexists r, _. split; [|exact Hrun]. exact Hw1. }
  unfold on_embedding_error.
  destruct ex as [| |status| | | | | |];
    try (apply Hlog; exact Hgive).
  - apply Hlog. intros w1 Hw1.
    destruct (_ >? _)%Z; [apply Hgive, Hw1|apply Hretry, Hw1].
  - apply Hlog. intros w1 Hw1.
    destruct (_ <? _)%Z; [apply Hretry, Hw1|apply Hgive, Hw1].
  - destruct (bool_decide _).
    + destruct (_ >? _)%Z; [apply Hgive; reflexivity|apply Hretry; reflexivity].
    + apply Hlog. exact Hgive.
Qed.

(** *** One row *)

(** The work on one row, whatever the endpoint answers: at most one
    request a turn, each for what the text sends; the row is left when a
    request is answered, and only then is anything stored. *)
Lemma embed_row_outcome (index : Z) (text : value) (m : string) (p : progress) :
  forall (turns : nat) (retries : Z) (w w' : world) (x : row_exit)
         (p' : progress),
    embed_row E turns index text m retries p w = (Ok (x, p'), w') ->
    (embedding_requests w' <= embedding_requests w + turns)%nat
    /\ (embedding_requests w <= embedding_requests w')%nat
    /\ (forall n, (embedding_requests w <= n)%nat ->
                  (S n < embedding_requests w')%nat ->
                  refused E n (text_sent text))
    /\ ((x = NextRow /\ (embedding_requests w < embedding_requests w')%nat
         /\ exists e,
              answered_with E (embedding_requests w' - 1) (text_sent text) e
              /\ frame p'
                 = at_set index "values" (VList (VFloat <$> e)) (frame p))
        \/ (((embedding_requests w < embedding_requests w')%nat ->
             refused E (embedding_requests w' - 1) (text_sent text))
            /\ frame p' = frame p)).
Proof.
  assert (Hidle : forall (turns : nat) (w w' : world) x p',
            embedding_requests w' = embedding_requests w -> frame p' = frame p ->
            (embedding_requests w' <= embedding_requests w + turns)%nat
            /\ (embedding_requests w <= embedding_requests w')%nat
            /\ (forall n, (embedding_requests w <= n)%nat ->
                          (S n < embedding_requests w')%nat ->
                          refused E n (text_sent text))
            /\ ((x = NextRow /\ (embedding_requests w < embedding_requests w')%nat
                 /\ exists e,
                      answered_with E (embedding_requests w' - 1) (text_sent text) e
                      /\ frame p'
                         = at_set index "values" (VList (VFloat <$> e)) (frame p))
                \/ (((embedding_requests w < embedding_requests w')%nat ->
                     refused E (embedding_requests w' - 1) (text_sent text))
                    /\ frame p' = frame p))).
  { intros turns w w' x p' Hreq Hframe. rewrite Hreq.
    split; [lia|]. split; [lia|]. split; [intros n; lia|].
    right. split; [lia|exact Hframe]. }
  induction turns as [|turns IH]; intros retries w w' x p' Hrun.
  - injection Hrun as <- <- <-. apply Hidle; reflexivity.
  - cbn [embed_row] in Hrun.
    destruct (negb (retries <=? max_retries)%Z).
    { injection Hrun as <- <- <-. apply Hidle; reflexivity. }
    unfold bind at 1 in Hrun.
    destruct (should_continue_answers "rate_limit" 5 60 w)
      as (go & w1 & Hsc & _ & Hreq1 & _).
    rewrite Hsc in Hrun. unfold bind at 1, modify at 1 in Hrun.
    destruct go; cbn [negb] in Hrun.
    2:{ injection Hrun as <- <- <-. apply Hidle; [exact Hreq1|reflexivity]. }
    unfold try_except in Hrun. rewrite request_embedding_run in Hrun.
    set (w2 := exec (time_sleep 0.1) (emit (EvShouldContinue "rate_limit" true) w1))
      in Hrun.
    assert (Hreq2 : embedding_requests w2 = embedding_requests w)
      by (rewrite <- Hreq1; reflexivity).
    destruct (create_embeddings_account text m w2) as (w4 & Hce & Hreq4).
    rewrite Hreq2 in Hreq4, Hce. rewrite Hce in Hrun. clear Hce.
    destruct (text_sent text) as [q|] eqn:Hsent.
    + destruct (embeddings_create E (embedding_requests w) q) as [e|ex] eqn:Hans.
      * injection Hrun as <- <- <-. unfold exec. rewrite log_success_run.
        cbn [snd with_tracker embedding_requests frame]. rewrite Hreq4.
        split; [lia|]. split; [lia|]. split; [intros n; lia|].
        left. split; [reflexivity|]. split; [lia|].
        exists e. split; [|reflexivity].
        exists q. split; [reflexivity|].
        replace (S (embedding_requests w) - 1)%nat with (embedding_requests w)
          by lia.
        exact Hans.
      * assert (Hfirst : refused E (embedding_requests w) (Some q))
          by (exists q, ex; auto).
        apply on_embedding_error_cases in Hrun
          as [(-> & -> & Hreq')|(r & w5 & Hreq5 & Hretry)].
        -- rewrite Hreq', Hreq4. split; [lia|]. split; [lia|].
           split; [intros n; lia|]. right. split; [|reflexivity].
           intros _. replace (S (embedding_requests w) - 1)%nat
             with (embedding_requests w) by lia. exact Hfirst.
        -- destruct (IH r w5 w' x p' Hretry) as (Hle & Hge & Hbefore & Hlast).
           rewrite Hreq5, Hreq4 in *.
           split; [lia|]. split; [lia|]. split.
           { intros n Hn Hlt.
             destruct (Nat.eq_dec n (embedding_requests w)) as [->|Hne];
               [exact Hfirst|]. apply Hbefore; lia. }
           destruct Hlast as [(-> & Hlt & e & Hans' & Hframe)|[Hlast Hframe]].
           ++ left. split; [reflexivity|]. split; [lia|]. eauto.
           ++ right. split; [|exact Hframe]. intros _.
              destruct (Nat.eq_dec (embedding_requests w') (S (embedding_requests w)))
                as [Heq|Hne].
              ** rewrite Heq.
                 replace (S (embedding_requests w) - 1)%nat
                   with (embedding_requests w) by lia. exact Hfirst.
              ** apply Hlast. lia.
    + apply on_embedding_error_cases in Hrun
        as [(-> & -> & Hreq')|(r & w5 & Hreq5 & Hretry)].
      * apply Hidle; [rewrite Hreq', Hreq4; reflexivity|reflexivity].
      * destruct (IH r w5 w' x p' Hretry) as (Hle & Hge & Hbefore & Hlast).
        rewrite Hreq5, Hreq4 in *.
        split; [lia|]. split; [lia|]. split; [exact Hbefore|exact Hlast].
Qed.

(** *** The rows of the frame, one after the other *)

Lemma spans_idle (R : nat -> nat -> Z * row -> Z * row -> Prop) (n : nat)
    (l : list (Z * row)) :
  (forall ir, ir ∈ l -> R n n ir ir) -> spans R n n l l.
Proof.
  induction l as [|ir l IH]; intros HR; [constructor|].
  apply (spans_cons R n n n).
  - apply HR. left.
  - apply IH. intros ir' Hin. apply HR. right. exact Hin.
Qed.

Lemma spans_bounds (R : nat -> nat -> Z * row -> Z * row -> Prop)
    (lo hi : nat) (l l' : list (Z * row)) :
  (forall a b ir ir', R a b ir ir' -> (a <= b)%nat) ->
  spans R lo hi l l' -> (lo <= hi)%nat.
Proof.
  intros HR. induction 1 as [n|lo mid hi ir ir' l l' Hr _ IH]; [lia|].
  pose proof (HR _ _ _ _ Hr). lia.
Qed.

Lemma spans_length (R : nat -> nat -> Z * row -> Z * row -> Prop)
    (lo hi : nat) (l l' : list (Z * row)) :
  spans R lo hi l l' -> length l = length l'.
Proof. induction 1; cbn; congruence. Qed.

(** The rows accounted for, seen through what is done to them before and
    after the loop. *)
Lemma spans_fmap (R R' : nat -> nat -> Z * row -> Z * row -> Prop)
    (f g : Z * row -> Z * row) (l : list (Z * row)) :
  (forall lo hi ir ir', ir ∈ l -> R lo hi (f ir) ir' -> R' lo hi ir (g ir')) ->
  forall (lo hi : nat) (l' : list (Z * row)),
    spans R lo hi (f <$> l) l' -> spans R' lo hi l (g <$> l').
Proof.
  induction l as [|ir l IH]; intros HR lo hi l' Hs.
  - inversion Hs; subst. constructor.
  - rewrite fmap_cons in Hs. inversion Hs as [|? mid ? ? ir' ? l2 Hr Hrest]; subst.
    rewrite fmap_cons. apply (spans_cons R' lo mid hi).
    + apply HR; [left|exact Hr].
    + apply IH; [|exact Hrest]. intros lo' hi' a b Hin. apply HR. right. exact Hin.
Qed.

Lemma row_stored_idle (n : nat) (ir : Z * row) : row_stored E n n ir ir.
Proof.
  split.
  - split; [lia|]. intros k; lia.
  - right. split; [lia|reflexivity].
Qed.

(** Setting the cell of the one row under a label. *)
Lemma at_set_one_row (index : Z) (v : value) (f : DataFrame)
    (before after : list (Z * row)) (r : row) :
  rows f = before ++ (index, r) :: after ->
  NoDup (before ++ (index, r) :: after).*1 ->
  rows (at_set index "values" v f)
  = before ++ (index, <["values" := v]> r) :: after.
Proof.
  intros Hrows Hnd. unfold at_set. cbn [rows]. rewrite Hrows.
  rewrite fmap_app, fmap_cons in Hnd. cbn [fst] in Hnd.
  apply NoDup_app in Hnd as (_ & Hbefore & Hnd).
  apply NoDup_cons in Hnd as [Hafter _].
  rewrite fmap_app, fmap_cons. cbn [fst snd]. rewrite Z.eqb_refl.
  assert (Hother : forall l : list (Z * row),
            index ∉ l.*1 ->
            (fun ir : Z * row =>
               if (ir.1 =? index)%Z then (ir.1, <["values" := v]> ir.2) else ir)
              <$> l = l).
  { intros l Hl. induction l as [|[j r'] l IHl]; [reflexivity|].
    rewrite fmap_cons. cbn [fst snd].
    destruct (Z.eqb_spec j index) as [->|Hne].
    - exfalso. apply Hl. rewrite fmap_cons. left.
    - f_equal. apply IHl. intros Hin. apply Hl. rewrite fmap_cons. right.
      exact Hin. }
  rewrite (Hother before), (Hother after); [reflexivity|exact Hafter|].
  intros Hin. apply (Hbefore index Hin). left.
Qed.

(** Every row the loop is given has its account in the frame the loop
    leaves: the rows the loop has not come to are in it as they were. *)
Lemma embed_rows_stored (m : string) :
  forall (its before : list (Z * row)) (p p' : progress) (w w' : world)
         (x : row_exit),
    rows (frame p) = before ++ its ->
    NoDup (before ++ its).*1 ->
    embed_rows E its m p w = (Ok (x, p'), w') ->
    exists its',
      rows (frame p') = before ++ its'
      /\ spans (row_stored E) (embedding_requests w) (embedding_requests w')
               its its'.
Proof.
  induction its as [|[index r] its IH];
    intros before p p' w w' x Hrows Hnd Hrun.
  - injection Hrun as <- <- <-. exists []. split; [exact Hrows|constructor].
  - assert (Hskip : forall ty details,
              row_request E r = None ->
              (log_error E ty details "openai" ;;;
               embed_rows E its m (one_more_failed p)) w = (Ok (x, p'), w') ->
              exists its',
                rows (frame p') = before ++ its'
                /\ spans (row_stored E) (embedding_requests w)
                         (embedding_requests w') ((index, r) :: its) its').
    { intros ty details Hnone Hstep. unfold bind in Hstep.
      destruct (log_error E ty details "openai" w) as [[entry|e] w1] eqn:Hl;
        [|discriminate].
      apply log_error_requests in Hl.
      destruct (IH (before ++ [(index, r)]) (one_more_failed p) p' w1 w' x)
        as (its' & Hrows' & Hspans).
      { cbn [one_more_failed frame]. rewrite Hrows, <- app_assoc. reflexivity. }
      { rewrite <- app_assoc. exact Hnd. }
      { exact Hstep. }
      exists ((index, r) :: its'). split.
      - rewrite Hrows', <- app_assoc. reflexivity.
      - rewrite Hl in Hspans.
        apply (spans_cons _ _ (embedding_requests w)); [|exact Hspans].
        apply row_stored_idle. }
    cbn [embed_rows] in Hrun. unfold bind at 1, of_outcome at 1 in Hrun.
    destruct (decode_metadata E (cell r "metadata")) as [[| |text]|e] eqn:Hd;
      [| | |discriminate].
    + eapply Hskip; [|exact Hrun]. unfold row_request. rewrite Hd. reflexivity.
    + eapply Hskip; [|exact Hrun]. unfold row_request. rewrite Hd. reflexivity.
    + assert (Hsent : row_request E r = text_sent text)
        by (unfold row_request; rewrite Hd; reflexivity).
      unfold bind in Hrun.
      destruct (embed_row E (Z.to_nat (max_retries + 1)) index text m 0 p w)
        as [[[x1 p1]|e] w1] eqn:Hrow; [|discriminate].
      destruct (embed_row_outcome index text m p _ _ _ _ _ _ Hrow)
        as (Hle & Hge & Hbefore & Hlast).
      change (Z.to_nat (max_retries + 1)) with 4%nat in Hle.
      assert (Hspan : row_span E (embedding_requests w) (embedding_requests w1)
                               (row_request E r)).
      { rewrite Hsent. split; [lia|exact Hbefore]. }
      destruct Hlast as [(-> & Hlt & e & Hans & Hframe)|[Hlast Hframe]].
      * destruct (IH (before ++ [(index, <["values" := VList (VFloat <$> e)]> r)])
                    p1 p' w1 w' x) as (its' & Hrows' & Hspans).
        { rewrite Hframe, <- app_assoc.
          apply (at_set_one_row index _ (frame p) before its r Hrows Hnd). }
        { rewrite <- app_assoc. rewrite !fmap_app, !fmap_cons in *. exact Hnd. }
        { exact Hrun. }
        exists ((index, <["values" := VList (VFloat <$> e)]> r) :: its').
        split; [rewrite Hrows', <- app_assoc; reflexivity|].
        apply (spans_cons _ _ (embedding_requests w1)); [|exact Hspans].
        split; [exact Hspan|]. left. split; [exact Hlt|].
        exists e. cbn [fst snd]. rewrite Hsent. split; [exact Hans|reflexivity].
      * assert (Hrow_stored : row_stored E (embedding_requests w)
                                (embedding_requests w1) (index, r) (index, r)).
        { split; [exact Hspan|]. right. cbn [fst snd]. rewrite Hsent.
          split; [exact Hlast|reflexivity]. }
        destruct x1.
        -- destruct (IH (before ++ [(index, r)]) p1 p' w1 w' x)
             as (its' & Hrows' & Hspans).
           { rewrite Hframe, Hrows, <- app_assoc. reflexivity. }
           { rewrite <- app_assoc. exact Hnd. }
           { exact Hrun. }
           exists ((index, r) :: its').
           split; [rewrite Hrows', <- app_assoc; reflexivity|].
           apply (spans_cons _ _ (embedding_requests w1)); assumption.
        -- injection Hrun as <- <- <-.
           exists ((index, r) :: its).
           split; [rewrite Hframe; exact Hrows|].
           apply (spans_cons _ _ (embedding_requests w1)); [exact Hrow_stored|].
           apply spans_idle. intros ir _. apply row_stored_idle.
Qed.

(** *** The frame that is returned *)

(** The row the loop starts from, and the row that is returned for the
    row the loop leaves. *)
Lemma row_account_of_stored (lo hi : nat) (ir ir' : Z * row) :
  row_stored E lo hi (ir.1, <["values" := VNone]> ir.2) ir' ->
  row_account E lo hi ir
    (ir'.1,
     <["embedding_status" :=
         if is_list (default VNone (ir'.2 !! "values"))
         then VStr "success" else VStr "not_processed"]> ir'.2).
Proof.
  assert (Hreq : row_request E (<["values" := VNone]> ir.2) = row_request E ir.2).
  { unfold row_request, cell. rewrite lookup_insert_ne by discriminate.
    reflexivity. }
  intros [Hspan Hcases]. cbn [fst snd] in *. rewrite Hreq in *.
  destruct Hcases as [(Hlt & e & Hans & ->)|[Hlast ->]]; cbn [fst snd].
  - split; [|split; [exact Hspan|]].
    + split; [reflexivity|]. intros c Hv Hs. cbn [fst snd].
      rewrite !lookup_insert_ne by congruence. reflexivity.
    + left. split; [exact Hlt|]. exists e. split; [exact Hans|].
      rewrite insert_insert_eq, lookup_insert_eq. cbn.
      unfold tagged_success.
      rewrite lookup_insert_ne, lookup_insert_eq by discriminate.
      rewrite lookup_insert_eq. auto.
  - split; [|split; [exact Hspan|]].
    + split; [reflexivity|]. intros c Hv Hs. cbn [fst snd].
      rewrite !lookup_insert_ne by congruence. reflexivity.
    + right. split; [exact Hlast|].
      rewrite lookup_insert_eq. cbn. unfold tagged_not_processed.
      rewrite lookup_insert_ne, lookup_insert_eq by discriminate.
      rewrite lookup_insert_eq. auto.
Qed.

(** The account of a run that returns: on a frame with a [metadata]
    column and no two rows under one label, whether the loop came to its
    end or the circuit opened on the way, every row of the frame returned
    is the row that was passed with its account, over the requests the
    run made. *)
Lemma generate_account (df : DataFrame) (m : string) (w w' : world)
    (out : DataFrame) :
  has_column "metadata" df = true -> NoDup (labels df) ->
  generate_embeddings_and_add_to_df E df m w = (Ok out, w') ->
  accounted E (embedding_requests w) (embedding_requests w')
            (rows df) (rows out).
Proof.
  intros Hmeta Hnd. unfold generate_embeddings_and_add_to_df.
  destruct (df_empty df) eqn:Hempty.
  { intros [= <- <-]. unfold df_empty in Hempty.
    destruct (rows df) as [|ir l]; [constructor|].
    apply bool_decide_eq_true in Hmeta.
    destruct (columns df); [inversion Hmeta|discriminate]. }
  rewrite Hmeta. cbn [negb]. unfold bind.
  set (df0 := set_column "values" (fun _ _ => VNone) df).
  destruct (embed_rows E (rows df0) m (mkProgress df0 0 0) w)
    as [[[x p']|e] w1] eqn:Hloop; [|discriminate].
  destruct (embed_rows_stored m (rows df0) [] (mkProgress df0 0 0) p' w w1 x)
    as (its' & Hrows & Hspans); [reflexivity| |exact Hloop|].
  { cbn [app df0 set_column rows]. rewrite <- list_fmap_compose. exact Hnd. }
  cbn [app] in Hrows.
  assert (Hout : accounted E (embedding_requests w) (embedding_requests w1)
                   (rows df) (rows (tag_embedding_status (frame p')))).
  { unfold tag_embedding_status, set_column. cbn [rows]. rewrite Hrows.
    apply (spans_fmap (row_stored E) (row_account E)
             (fun ir => (ir.1, <["values" := VNone]> ir.2))); [|exact Hspans].
    intros lo hi ir ir' _. apply row_account_of_stored. }
  destruct x.
  - rewrite get_error_summary_run. intros [= <- <-]. exact Hout.
  - intros [= <- <-]. exact Hout.
Qed.

(** *** A run that is stopped *)



End account.


(** ** The ingestion refresh *)

Section refresh.
Context (E : Env).

Lemma generate_shape (df : DataFrame) (m : string) (w : world)
    (out : DataFrame) :
  result (generate_embeddings_and_add_to_df E df m) w = Ok out ->
  has_column "embedding_status" out = true \/ rows out = [].
Proof.
  unfold result, generate_embeddings_and_add_to_df.
  destruct (df_empty df); [intros [= <-]; right; reflexivity|].
  destruct (negb _); [intros [= <-]; right; reflexivity|].
  unfold bind.
  assert (Htag : forall f, has_column "embedding_status" (tag_embedding_status f) = true).
  { intros f. unfold tag_embedding_status, set_column, has_column at 1. cbn [columns].
    apply bool_decide_eq_true. unfold has_column.
    destruct (bool_decide ("embedding_status" ∈ columns f)) eqn:Hc.
    - apply bool_decide_eq_true in Hc. exact Hc.
    - apply elem_of_app. right. apply elem_of_cons. left. reflexivity. }
  destruct (embed_rows E _ m _ w) as [[[[] p']|e] w1]; cbn.
  - intros [= <-]. left. apply Htag.
  - intros [= <-]. left. apply Htag.
  - discriminate.
Qed.

Lemma success_rows_of_run (b : DataFrame) :
  match success_rows_of b with
  | Ok sr => rows sr = success_rows b /\ columns sr = columns b
             /\ has_column "embedding_status" b = true
  | Raise _ => has_column "embedding_status" b = false
  end.
Proof.
  unfold success_rows_of. destruct (has_column _ b); [|reflexivity].
  repeat split.
Qed.

Lemma pd_concat_status (a b : DataFrame) :
  has_column "embedding_status" b = true ->
  has_column "embedding_status" (pd_concat a b) = true.
Proof.
  unfold has_column, pd_concat. cbn [columns]. rewrite !bool_decide_eq_true.
  intros Hb. destruct (decide ("embedding_status" ∈ columns a)) as [Ha|Ha].
  - apply elem_of_app. left. exact Ha.
  - apply elem_of_app. right. apply list_elem_of_In, filter_In.
    split; [apply list_elem_of_In, Hb|].
    apply negb_true_iff, bool_decide_eq_false. exact Ha.
Qed.

Lemma generate_distinct_labels (df : DataFrame) (m : string) (w : world)
    (out : DataFrame) :
  NoDup (labels df) ->
  result (generate_embeddings_and_add_to_df E df m) w = Ok out ->
  NoDup (labels out).
Proof.
  intros Hnd Hres.
  destruct (df_empty df) eqn:He.
  { revert Hres. unfold result, generate_embeddings_and_add_to_df. rewrite He.
    intros [= <-]. constructor. }
  destruct (has_column "metadata" df) eqn:Hm.
  - rewrite (generate_labels E df m w out He Hm Hres). exact Hnd.
  - revert Hres. unfold result, generate_embeddings_and_add_to_df.
    rewrite He, Hm. intros [= <-]. constructor.
Qed.

Lemma iloc_distinct_labels (i j : nat) (df : DataFrame) :
  NoDup (labels df) -> NoDup (labels (iloc i j df)).
Proof.
  unfold labels, iloc. cbn [rows]. intros Hnd.
  eapply sublist_NoDup; [exact Hnd|]. apply fmap_sublist.
  etrans; [apply sublist_take|apply sublist_drop].
Qed.

Lemma frame_of_records_distinct_labels (records : list (value * value * value)) :
  NoDup (labels (frame_of_records records)).
Proof.
  unfold labels, frame_of_records. cbn [rows].
  rewrite fmap_imap.
  rewrite (imap_ext _ (fun j _ => Z.of_nat j)) by (intros; reflexivity).
  rewrite imap_seq_0. apply NoDup_fmap_2; [apply _|apply NoDup_seq].
Qed.

Lemma import_csv_distinct_labels (file : string) (n : nat) (cols : list string) :
  NoDup (labels (import_csv E (mkDataFrame cols []) file n)).
Proof.
  unfold import_csv. destruct (read_csv E file).
  - apply frame_of_records_distinct_labels.
  - constructor.
Qed.

Lemma filter_sublist_of {A} (f : A -> bool) (l : list A) :
  List.filter f l `sublist_of` l.
Proof.
  induction l as [|x l IH]; [constructor|]. cbn.
  destruct (f x); [apply sublist_skip|apply sublist_cons]; exact IH.
Qed.

Lemma surviving_distinct_labels (df : DataFrame) :
  NoDup (labels df) ->
  NoDup (labels (mkDataFrame ["id"; "metadata"] (cleaned_record E <$> surviving df))).
Proof.
  unfold labels. cbn [rows]. rewrite <- list_fmap_compose.
  replace (fst ∘ cleaned_record E) with (@fst Z row) by reflexivity.
  intros Hnd. eapply sublist_NoDup; [exact Hnd|].
  apply fmap_sublist, filter_sublist_of.
Qed.

(** One turn of the batch loop: at most one batch is embedded, nothing is
    upserted, and the rows tagged success in the batch are added to
    [processed_df]. *)
Lemma process_batch_ledger (i : nat) (batch_df : DataFrame) (total : nat)
    (m : string) (processed : DataFrame) (pause : Q) (s : app_state) :
  NoDup (labels batch_df) ->
  let run := process_batch E i batch_df total m processed pause in
  exists bs : list DataFrame,
    embedded_batches (exec run s).2 = embedded_batches s.2 ++ bs
    /\ upserts (exec run s).2 = upserts s.2
    /\ Forall tagged_batch bs
    /\ forall x, result run s = Ok x ->
         rows x.1 = rows processed ++ all_success_rows bs
         /\ (status_column_if_rows processed -> status_column_if_rows x.1).
Proof.
  intros Hnd. cbn zeta. destruct s as [w led].
  unfold process_batch, exec, result, try_except, bind, lift, time_time,
    record_batch, modify, of_outcome, ret. cbn [fst snd].
  pose proof (fun out H => conj (generate_tagged E batch_df m w out H)
                                (generate_distinct_labels batch_df m w out Hnd H))
    as Htag.
  pose proof (generate_shape batch_df m w) as Hshape.
  unfold result in Htag, Hshape.
  destruct (generate_embeddings_and_add_to_df E batch_df m w) as [[b|e] w1];
    cbn [fst snd] in *.
  - specialize (Htag b eq_refl). specialize (Hshape b eq_refl).
    pose proof (success_rows_of_run b) as Hsr.
    destruct (success_rows_of b) as [sr|e]; cbn [fst snd].
    + destruct Hsr as (Hrows & Hcols & Hcol).
      exists [b]. unfold all_success_rows. cbn [mbind list_bind app].
      rewrite app_nil_r.
      destruct (i + batch_size <? total)%nat; cbn [fst snd time_sleep];
        (split; [reflexivity|]; split; [reflexivity|];
         split; [constructor; [exact Htag|constructor]|]);
        intros x [= <-]; cbn [fst];
        (destruct (df_empty sr) eqn:Hemp; cbn [negb];
         [ assert (Hnil : success_rows b = [])
             by (rewrite <- Hrows; unfold df_empty in Hemp;
                 destruct (rows sr); [reflexivity|];
                 rewrite Hcols in Hemp;
                 apply bool_decide_eq_true in Hcol;
                 destruct (columns b); [inversion Hcol|discriminate]);
           rewrite Hnil, app_nil_r; auto
         | cbn [pd_concat rows]; rewrite Hrows; split; [reflexivity|];
           intros _ _; apply pd_concat_status;
           unfold has_column; rewrite Hcols; exact Hcol ]).
    + assert (Hnil : success_rows b = []).
      { destruct Hshape as [Hc|Hr]; [congruence|].
        unfold success_rows. rewrite Hr. reflexivity. }
      exists [b]. unfold all_success_rows. cbn [mbind list_bind app].
      rewrite Hnil.
      destruct (log_error E _ _ _ w1) as [[entry|e'] w2]; cbn [fst snd time_sleep];
        (split; [reflexivity|]; split; [reflexivity|];
         split; [constructor; [exact Htag|constructor]|]).
      * intros x [= <-]. cbn. rewrite app_nil_r. auto.
      * discriminate.
  - exists []. unfold all_success_rows. cbn [mbind list_bind].
    destruct (log_error E _ _ _ w1) as [[entry|e'] w2]; cbn [fst snd time_sleep];
      rewrite !app_nil_r; (split; [reflexivity|]; split; [reflexivity|];
                           split; [constructor|]).
    + intros x [= <-]. cbn. auto.
    + discriminate.
Qed.

Lemma all_success_rows_app (bs1 bs2 : list DataFrame) :
  all_success_rows (bs1 ++ bs2) = all_success_rows bs1 ++ all_success_rows bs2.
Proof. unfold all_success_rows. apply bind_app. Qed.

Lemma batch_loop_turn (i : nat) (starts : list nat) (df : DataFrame)
    (total : nat) (m : string) (processed : DataFrame) (pause : Q)
    (w w1 : world) (led : ledger) (go : bool) :
  should_continue "rate_limit" 10 60 w = (Ok go, w1) ->
  batch_loop E (i :: starts) df total m processed pause (w, led)
  = if go
    then match process_batch E i (iloc i (i + batch_size) df) total m
                 processed pause (w1, led) with
         | (Ok x, s2) => batch_loop E starts df total m x.1 x.2 s2
         | (Raise e, s2) => (Raise e, s2)
         end
    else (Ok processed, (w1, led)).
Proof.
  intros Hsc. cbn [batch_loop]. unfold bind, lift. cbn [fst snd]. rewrite Hsc.
  destruct go; reflexivity.
Qed.

Lemma batch_loop_ledger (starts : list nat) (df : DataFrame) (total : nat)
    (m : string) :
  NoDup (labels df) ->
  forall (processed : DataFrame) (pause : Q) (s : app_state),
    let run := batch_loop E starts df total m processed pause in
    exists bs : list DataFrame,
      embedded_batches (exec run s).2 = embedded_batches s.2 ++ bs
      /\ upserts (exec run s).2 = upserts s.2
      /\ Forall tagged_batch bs
      /\ forall processed', result run s = Ok processed' ->
           rows processed' = rows processed ++ all_success_rows bs
           /\ (status_column_if_rows processed -> status_column_if_rows processed').
Proof.
  intros Hnd.
  induction starts as [|i starts IH]; intros processed pause s; cbn zeta.
  - exists []. cbn. rewrite !app_nil_r. repeat split; auto.
    + injection H as <-. reflexivity.
    + injection H as <-. auto.
  - destruct s as [w led].
    destruct (should_continue_answers "rate_limit" 10 60 w)
      as (go & w1 & Hsc & _).
    unfold exec, result. rewrite (batch_loop_turn _ _ _ _ _ _ _ _ _ _ _ Hsc).
    destruct go.
    + pose proof (process_batch_ledger i (iloc i (i + batch_size) df) total m
                    processed pause (w1, led)
                    (iloc_distinct_labels i (i + batch_size) df Hnd)) as Hpb.
      cbn zeta in Hpb. unfold exec, result in Hpb.
      destruct (process_batch E i _ total m processed pause (w1, led))
        as [[x|e] s2]; cbn [fst snd] in *.
      * destruct Hpb as (bs1 & Hb1 & Hu1 & Ht1 & Hx).
        destruct (Hx x eq_refl) as [Hrows1 Hinv1].
        destruct (IH x.1 x.2 s2) as (bs2 & Hb2 & Hu2 & Ht2 & Hp).
        unfold exec, result in *.
        exists (bs1 ++ bs2). rewrite Hb2, Hb1, Hu2, Hu1, app_assoc.
        split; [reflexivity|]. split; [reflexivity|].
        split; [apply Forall_app; auto|].
        intros processed' Hres. destruct (Hp processed' Hres) as [Hrows2 Hinv2].
        rewrite Hrows2, Hrows1, all_success_rows_app, app_assoc. auto.
      * destruct Hpb as (bs1 & Hb1 & Hu1 & Ht1 & _).
        exists bs1. repeat split; auto; discriminate.
    + exists []. cbn. rewrite !app_nil_r. repeat split; auto.
      * injection H as <-. reflexivity.
      * injection H as <-. auto.
Qed.

Lemma lift_then_ret_ledger {A} (m0 : M world A) (s : app_state) :
  ((lift m0 ;;; ret tt) s).2.2 = s.2.
Proof.
  unfold bind, lift, ret. destruct (m0 s.1) as [[a|e] w1]; reflexivity.
Qed.

(** After the loop: either nothing is handed to the index, or the frame
    handed over is [processed_df] without its bookkeeping column. *)
Lemma upsert_processed_ledger (processed : DataFrame) (s : app_state) :
  let s' := exec (upsert_processed E processed) s in
  embedded_batches s'.2 = embedded_batches s.2
  /\ (upserts s'.2 = upserts s.2
      \/ rows processed <> []
         /\ upserts s'.2
            = upserts s.2
                ++ [if has_column "embedding_status" processed
                    then drop_column "embedding_status" processed
                    else processed]).
Proof.
  cbn zeta. unfold upsert_processed, exec.
  destruct (df_empty processed) eqn:Hemp; cbn [negb].
  - rewrite lift_then_ret_ledger. auto.
  - assert (Hne : rows processed <> []).
    { unfold df_empty in Hemp. destruct (rows processed); discriminate. }
    unfold try_except, upsert_data.
    destruct (upsert_ok E _); cbn [fst snd upserts embedded_batches].
    + auto.
    + rewrite lift_then_ret_ledger. cbn. auto.
Qed.

(** *** On a disk that takes every append, the refresh does not raise *)

Section appendable.
Hypothesis Happ : forall path, fs_appendable E path = true.

Lemma log_then_ret_ok (ty : string) (details : value) (s : app_state) :
  exists s1, (lift (log_error E ty details "openai") ;;; ret tt) s = (Ok tt, s1).
Proof.
  unfold bind, lift, ret.
  destruct (log_error_appended E ty details "openai" s.1 (Happ _)) as [entry ->].
  eexists. reflexivity.
Qed.

Lemma process_batch_ok (i : nat) (batch_df : DataFrame) (total : nat)
    (m : string) (processed : DataFrame) (pause : Q) (s : app_state) :
  exists x s2, process_batch E i batch_df total m processed pause s = (Ok x, s2).
Proof.
  destruct s as [w led].
  unfold process_batch, try_except, bind, lift, time_time, record_batch, modify,
    of_outcome, ret. cbn [fst snd].
  destruct (generate_embeddings_and_add_to_df E batch_df m w) as [[b|e] w1];
    cbn [fst snd].
  - destruct (success_rows_of b) as [sr|e]; cbn [fst snd].
    + destruct (i + batch_size <? total)%nat; eexists _, _; reflexivity.
    + destruct (log_error_appended E "batch_processing"
                  (VStr ("Error processing batch " +:+ pretty (i / batch_size + 1)%nat))
                  "openai" w1 (Happ _)) as [entry ->].
      eexists _, _. reflexivity.
  - destruct (log_error_appended E "batch_processing"
                (VStr ("Error processing batch " +:+ pretty (i / batch_size + 1)%nat))
                "openai" w1 (Happ _)) as [entry ->].
    eexists _, _. reflexivity.
Qed.

Lemma batch_loop_ok (starts : list nat) (df : DataFrame) (total : nat)
    (m : string) :
  forall (processed : DataFrame) (pause : Q) (s : app_state),
    exists processed' s', batch_loop E starts df total m processed pause s
                          = (Ok processed', s').
Proof.
  induction starts as [|i starts IH]; intros processed pause [w led].
  - eexists _, _. reflexivity.
  - destruct (should_continue_answers "rate_limit" 10 60 w)
      as (go & w1 & Hsc & _).
    rewrite (batch_loop_turn _ _ _ _ _ _ _ _ _ _ _ Hsc).
    destruct go; [|eexists _, _; reflexivity].
    destruct (process_batch_ok i (iloc i (i + batch_size) df) total m
                processed pause (w1, led)) as (x & s2 & ->).
    apply IH.
Qed.

End appendable.

Lemma import_csv_columns (df0 : DataFrame) (file : string) (n : nat) :
  columns df0 = ["id"; "tiny_link"; "content"] ->
  columns (import_csv E df0 file n) = ["id"; "tiny_link"; "content"].
Proof.
  intros H0. unfold import_csv. destruct (read_csv E file); [reflexivity|exact H0].
Qed.

Lemma clean_imported (df : DataFrame) :
  columns df = ["id"; "tiny_link"; "content"] ->
  NoDup (labels df) ->
  exists cleaned,
    clean_data_pinecone_schema E df = Ok cleaned /\ NoDup (labels cleaned).
Proof.
  intros Hc Hnd. eexists. split.
  - apply clean_with_required_columns.
    + rewrite Hc. intros c Hin. exact Hin.
    + rewrite Hc. intros Hin.
      repeat (apply elem_of_cons in Hin as [Heq|Hin]; [discriminate Heq|]).
      inversion Hin.
  - apply surviving_distinct_labels, Hnd.
Qed.

Lemma success_row_holds_embedding (b : DataFrame) (ir : Z * row) :
  tagged_batch b -> ir ∈ success_rows b ->
  holds_embedding (without_status ir).2
  /\ (without_status ir).2 !! "embedding_status" = None.
Proof.
  intros Htag Hin. unfold success_rows in Hin.
  apply list_elem_of_In, filter_In in Hin as [Hin Hs].
  apply list_elem_of_In in Hin.
  destruct Htag as [Htag _]. rewrite Forall_forall in Htag.
  specialize (Htag ir Hin). unfold without_status. cbn.
  split; [|apply lookup_delete_eq].
  unfold holds_embedding. rewrite lookup_delete_ne by discriminate.
  destruct Htag as [[Hh _]|[_ Hn]]; [exact Hh|].
  unfold tagged_not_processed in Hn. unfold cell in Hs. rewrite Hn in Hs.
  discriminate Hs.
Qed.

Lemma all_success_rows_hold (batches : list DataFrame) :
  Forall tagged_batch batches ->
  Forall (fun ir => holds_embedding ir.2 /\ ir.2 !! "embedding_status" = None)
         (without_status <$> all_success_rows batches).
Proof.
  intros Hall. apply Forall_fmap, Forall_forall. intros ir Hin.
  unfold all_success_rows in Hin. apply list_elem_of_bind in Hin as (b & Hin & Hb).
  rewrite Forall_forall in Hall.
  exact (success_row_holds_embedding b ir (Hall b Hb) Hin).
Qed.

(** What the refresh does to the ledger, stated on the block of [main]
    that holds the loop and the upsert. *)
Lemma refresh_body_ledger (s : app_state) :
  let s' := exec (refresh_body E) s in
  exists batches : list DataFrame,
    embedded_batches s'.2 = embedded_batches s.2 ++ batches
    /\ Forall tagged_batch batches
    /\ (upserts s'.2 = upserts s.2
        \/ exists u,
             upserts s'.2 = upserts s.2 ++ [u]
             /\ rows u = without_status <$> all_success_rows batches
             /\ rows u <> []
             /\ ("embedding_status" ∉ columns u)
             /\ Forall (fun ir => holds_embedding ir.2
                                  /\ ir.2 !! "embedding_status" = None) (rows u))
    /\ ((forall path, fs_appendable E path = true) ->
        all_success_rows batches <> [] ->
        exists u, upserts s'.2 = upserts s.2 ++ [u]).
Proof.
  cbn zeta. unfold refresh_body.
  set (df := import_csv E _ csv_file 2000).
  assert (Hcols : columns df = ["id"; "tiny_link"; "content"])
    by (apply import_csv_columns; reflexivity).
  set (m0 := if df_empty df
             then lift (log_error E "empty_data"
                          (VStr ("Warning: No data found in " +:+ csv_file)) "openai") ;;;
                  ret tt
             else ret tt).
  assert (Hm0 : (m0 s).2.2 = s.2
                /\ ((forall path, fs_appendable E path = true) ->
                    exists s0, m0 s = (Ok tt, s0))).
  { unfold m0. destruct (df_empty df).
    - split; [apply lift_then_ret_ledger|]. intros Happ. apply log_then_ret_ok, Happ.
    - split; [reflexivity|]. intros _. eexists. reflexivity. }
  destruct Hm0 as [Hl0 Hok0].
  unfold exec, bind. destruct (m0 s) as [[[]|e0] s0]; cbn [fst snd] in *.
  2:{ exists []. rewrite app_nil_r, Hl0. repeat split; auto; try constructor.
      intros Happ. destruct (Hok0 Happ) as [s0' [=]]. }
  unfold of_outcome.
  destruct (clean_imported df Hcols) as (cleaned & Hclean & Hnd).
  { apply import_csv_distinct_labels. }
  rewrite Hclean.
  pose proof (batch_loop_ledger (py_range (length (rows cleaned)) batch_size)
                cleaned (length (rows cleaned)) model_for_openai_embedding Hnd
                (empty_frame ["id"; "metadata"; "values"]) 2 s0) as Hloop.
  cbn zeta in Hloop. unfold exec, result in Hloop.
  destruct (batch_loop E _ cleaned _ _ _ 2 s0) as [[processed|e1] s1] eqn:Hbl;
    cbn [fst snd] in *.
  2:{ destruct Hloop as (bs & Hb & Hu & Ht & _).
      exists bs. rewrite Hb, Hu, Hl0. repeat split; auto.
      intros Happ.
      destruct (batch_loop_ok Happ (py_range (length (rows cleaned)) batch_size)
                  cleaned (length (rows cleaned)) model_for_openai_embedding
                  (empty_frame ["id"; "metadata"; "values"]) 2 s0)
        as (p' & s' & Hok). rewrite Hok in Hbl. discriminate Hbl. }
  destruct Hloop as (bs & Hb & Hu & Ht & Hp).
  destruct (Hp processed eq_refl) as [Hrows Hinv]. cbn [rows empty_frame app] in Hrows.
  assert (Hstatus : status_column_if_rows processed).
  { apply Hinv. intros Hne. exfalso. apply Hne. reflexivity. }
  destruct (upsert_processed_ledger processed s1) as [Hb' Hu'].
  unfold exec in Hb', Hu'.
  exists bs. rewrite Hb', Hb, Hl0. split; [reflexivity|]. split; [exact Ht|].
  assert (Hcase : rows processed <> [] ->
            let u := if has_column "embedding_status" processed
                     then drop_column "embedding_status" processed else processed in
            rows u = without_status <$> all_success_rows bs
            /\ rows u <> [] /\ ("embedding_status" ∉ columns u)
            /\ Forall (fun ir => holds_embedding ir.2
                                 /\ ir.2 !! "embedding_status" = None) (rows u)).
  { intros Hne. cbn zeta. rewrite (Hstatus Hne).
    assert (Hr : rows (drop_column "embedding_status" processed)
                 = without_status <$> all_success_rows bs).
    { unfold drop_column. cbn [rows]. rewrite Hrows. reflexivity. }
    split; [exact Hr|]. split; [|split].
    - rewrite Hr, <- Hrows. destruct (rows processed); [congruence|discriminate].
    - unfold drop_column. cbn [columns]. intros Hin.
      apply list_elem_of_In, filter_In in Hin as [_ Hneq].
      discriminate Hneq.
    - rewrite Hr. apply all_success_rows_hold, Ht. }
  split.
  - destruct Hu' as [Hsame|[Hne Hup]].
    + left. rewrite Hsame, Hu, Hl0. reflexivity.
    + right. eexists. rewrite Hup, Hu, Hl0. split; [reflexivity|].
      apply (Hcase Hne).
  - intros Happ Hsome. rewrite <- Hrows in Hsome.
    destruct Hu' as [Hsame|[Hne Hup]].
    + exfalso. revert Hsame. unfold upsert_processed.
      assert (Hemp : df_empty processed = false).
      { unfold df_empty. destruct (rows processed) eqn:Hr; [congruence|].
        assert (Hne' : rows processed <> []) by (rewrite Hr; discriminate).
        pose proof (Hstatus Hne') as Hcol.
        apply bool_decide_eq_true in Hcol.
        destruct (columns processed); [inversion Hcol|reflexivity]. }
      rewrite Hemp. cbn [negb]. unfold try_except, upsert_data.
      destruct (upsert_ok E _); cbn [fst snd upserts].
      * intros Heq. apply (f_equal length) in Heq. rewrite length_app in Heq.
        cbn in Heq. lia.
      * rewrite lift_then_ret_ledger. cbn [snd upserts].
        intros Heq. apply (f_equal length) in Heq. rewrite length_app in Heq.
        cbn in Heq. lia.
    + eexists. rewrite Hup, Hu, Hl0. reflexivity.
Qed.

Lemma ingestion_refresh_ledger (s : app_state) :
  (exec (ingestion_refresh E) s).2 = (exec (refresh_body E) s).2.
Proof.
  unfold ingestion_refresh, exec, try_except.
  destruct (refresh_body E s) as [[[]|e] s1]; cbn [fst snd]; [reflexivity|].
  pose proof (lift_then_ret_ledger
                (log_error E "data_preparation"
                   (VStr ("Error preparing data: " +:+ exn_name e)) "openai") s1)
    as Hl.
  destruct ((lift _ ;;; ret tt) s1) as [[[]|e'] s2]; exact Hl.
Qed.

(** *** The batches and the requests *)

(** A property of every frame the embedding function returns on a batch
    of the frame is a property of every batch the loop embeds. *)
Lemma process_batch_batches (P : DataFrame -> Prop) (i : nat)
    (batch_df : DataFrame) (total : nat) (m : string) (processed : DataFrame)
    (pause : Q) (s : app_state) :
  (forall w out w',
      generate_embeddings_and_add_to_df E batch_df m w = (Ok out, w') -> P out) ->
  exists bs : list DataFrame,
    embedded_batches (exec (process_batch E i batch_df total m processed pause) s).2
    = embedded_batches s.2 ++ bs
    /\ Forall P bs.
Proof.
  intros HP. destruct s as [w led].
  unfold process_batch, exec, try_except, bind, lift, time_time,
    record_batch, modify, of_outcome, ret. cbn [fst snd].
  specialize (HP w).
  destruct (generate_embeddings_and_add_to_df E batch_df m w) as [[b|e] w1];
    cbn [fst snd] in *.
  - specialize (HP b w1 eq_refl).
    destruct (success_rows_of b) as [sr|e]; cbn [fst snd].
    + exists [b].
      destruct (i + batch_size <? total)%nat; cbn [fst snd time_sleep];
        (split; [reflexivity|constructor; [exact HP|constructor]]).
    + exists [b].
      destruct (log_error E _ _ _ w1) as [[entry|e'] w2]; cbn [fst snd time_sleep];
        (split; [reflexivity|constructor; [exact HP|constructor]]).
  - exists [].
    destruct (log_error E _ _ _ w1) as [[entry|e'] w2]; cbn [fst snd time_sleep];
      rewrite app_nil_r; (split; [reflexivity|constructor]).
Qed.

Lemma batch_loop_batches (P : DataFrame -> Prop) (starts : list nat)
    (df : DataFrame) (total : nat) (m : string) :
  (forall i w out w',
      generate_embeddings_and_add_to_df E (iloc i (i + batch_size) df) m w
      = (Ok out, w') -> P out) ->
  forall (processed : DataFrame) (pause : Q) (s : app_state),
    exists bs : list DataFrame,
      embedded_batches (exec (batch_loop E starts df total m processed pause) s).2
      = embedded_batches s.2 ++ bs
      /\ Forall P bs.
Proof.
  intros HP.
  induction starts as [|i starts IH]; intros processed pause s.
  - exists []. cbn. rewrite app_nil_r. split; [reflexivity|constructor].
  - destruct s as [w led].
    destruct (should_continue_answers "rate_limit" 10 60 w)
      as (go & w1 & Hsc & _).
    unfold exec. rewrite (batch_loop_turn _ _ _ _ _ _ _ _ _ _ _ Hsc).
    destruct go.
    + destruct (process_batch_batches P i (iloc i (i + batch_size) df) total m
                  processed pause (w1, led) (HP i)) as (bs1 & Hb1 & HP1).
      unfold exec in Hb1.
      destruct (process_batch E i _ total m processed pause (w1, led))
        as [[x|e] s2]; cbn [fst snd] in *.
      * destruct (IH x.1 x.2 s2) as (bs2 & Hb2 & HP2). unfold exec in Hb2.
        exists (bs1 ++ bs2). rewrite Hb2, Hb1, app_assoc.
        split; [reflexivity|apply Forall_app; auto].
      * exists bs1. auto.
    + exists []. cbn. rewrite app_nil_r. split; [reflexivity|constructor].
Qed.

(** Every batch the refresh embeds is a batch of the cleaned export with
    its account. *)
Lemma refresh_body_batches (s : app_state) :
  let exported := import_csv E (mkDataFrame ["id"; "tiny_link"; "content"] [])
                    csv_file 2000 in
  exists bs : list DataFrame,
    embedded_batches (exec (refresh_body E) s).2 = embedded_batches s.2 ++ bs
    /\ Forall (fun b =>
                 exists (i lo hi : nat),
                   accounted E lo hi
                     (take batch_size
                        (drop i (cleaned_record E <$> surviving exported)))
                     (rows b)) bs.
Proof.
  cbn zeta. unfold refresh_body.
  set (df := import_csv E _ csv_file 2000).
  assert (Hcols : columns df = ["id"; "tiny_link"; "content"])
    by (apply import_csv_columns; reflexivity).
  set (m0 := if df_empty df
             then lift (log_error E "empty_data"
                          (VStr ("Warning: No data found in " +:+ csv_file)) "openai") ;;;
                  ret tt
             else ret tt).
  assert (Hl0 : (m0 s).2.2 = s.2).
  { unfold m0. destruct (df_empty df); [apply lift_then_ret_ledger|reflexivity]. }
  unfold exec, bind. destruct (m0 s) as [[[]|e0] s0]; cbn [fst snd] in *.
  2:{ exists []. rewrite app_nil_r, Hl0. split; [reflexivity|constructor]. }
  unfold of_outcome. rewrite (clean_with_required_columns E df).
  2:{ rewrite Hcols. intros c Hin. exact Hin. }
  2:{ rewrite Hcols. intros Hin.
      repeat (apply elem_of_cons in Hin as [Heq|Hin]; [discriminate Heq|]).
      inversion Hin. }
  set (cleaned := mkDataFrame ["id"; "metadata"] (cleaned_record E <$> surviving df)).
  assert (Hnd : NoDup (labels cleaned)).
  { apply surviving_distinct_labels, import_csv_distinct_labels. }
  destruct (batch_loop_batches
              (fun b => exists (i lo hi : nat),
                          accounted E lo hi
                            (take batch_size
                               (drop i (cleaned_record E <$> surviving df)))
                            (rows b))
              (py_range (length (rows cleaned)) batch_size) cleaned
              (length (rows cleaned)) model_for_openai_embedding)
    with (processed := empty_frame ["id"; "metadata"; "values"]) (pause := 2%Q)
         (s := s0) as (bs & Hb & HP).
  { intros i w out w' Hrun. exists i, (embedding_requests w), (embedding_requests w').
    pose proof (generate_account E (iloc i (i + batch_size) cleaned)
                  model_for_openai_embedding w w' out eq_refl
                  (iloc_distinct_labels i (i + batch_size) cleaned Hnd) Hrun) as Hacc.
    unfold iloc in Hacc. cbn [rows cleaned] in Hacc.
    replace (i + batch_size - i)%nat with batch_size in Hacc by lia.
    exact Hacc. }
  unfold exec in Hb.
  destruct (batch_loop E _ cleaned _ _ _ 2 s0) as [[processed|e1] s1];
    cbn [fst snd] in *.
  2:{ exists bs. rewrite Hb, Hl0. auto. }
  destruct (upsert_processed_ledger processed s1) as [Hb' _].
  unfold exec in Hb'. exists bs. rewrite Hb', Hb, Hl0. auto.
Qed.

(** C1 (amended).  Whenever the ingestion refresh hands a frame to
    [upsert_data], it does so once, and the records of that frame are
    exactly the rows that [generate_embeddings_and_add_to_df] tagged
    success in the batches of this refresh, in order and without the
    [embedding_status] cell, the frame having no such column; each of them
    holds an embedding list in [values] (the code asks for a list, empty or
    not).  In every batch the rows have distinct labels and a row is tagged
    success when it holds such a list and not processed otherwise.  Every
    batch is a batch of the cleaned export with its account, row by row:
    the row returned is the cleaned record but for the two cells the
    function writes; it holds the answer to the last request made for it,
    and is tagged success, when that request was answered; it holds
    [None], and is tagged not processed, when no request was made for it
    or the last one was refused, so that a row whose embedding failed is
    not handed to the index.  The work on the rows of a batch, whether it
    succeeds or fails, leaves the rows under every other label as they
    were, so an embedding once stored stays.  When every append to the
    error log goes through and some row was tagged success, the frame is
    handed over. *)
Theorem refresh_upserts_rows_tagged_success (s : app_state) :
  let s' := exec (ingestion_refresh E) s in
  let batches := new_batches s s' in
  let exported := import_csv E (mkDataFrame ["id"; "tiny_link"; "content"] [])
                    csv_file 2000 in
  embedded_batches s'.2 = embedded_batches s.2 ++ batches
  /\ Forall (fun b => Forall (fun ir => tagged_by_values ir.2) (rows b)
                      /\ NoDup (labels b)) batches
  /\ Forall (fun b =>
               exists (i lo hi : nat),
                 accounted E lo hi
                   (take batch_size
                      (drop i (cleaned_record E <$> surviving exported)))
                   (rows b)) batches
  /\ (upserts s'.2 = upserts s.2
      \/ exists u,
           upserts s'.2 = upserts s.2 ++ [u]
           /\ rows u = without_status <$> all_success_rows batches
           /\ rows u <> []
           /\ ("embedding_status" ∉ columns u)
           /\ Forall (fun ir => holds_embedding ir.2
                                /\ ir.2 !! "embedding_status" = None) (rows u))
  /\ ((forall path, fs_appendable E path = true) ->
      all_success_rows batches <> [] ->
      exists u, upserts s'.2 = upserts s.2 ++ [u])
  /\ (forall (its : list (Z * row)) (m : string) (p p' : progress)
             (w w' : world) (x : row_exit) (i0 : Z),
        i0 ∉ its.*1 ->
        embed_rows E its m p w = (Ok (x, p'), w') ->
        rows_labelled i0 (frame p') = rows_labelled i0 (frame p)).
Proof.
  cbn zeta. unfold new_batches. rewrite ingestion_refresh_ledger.
  destruct (refresh_body_ledger s) as (batches & Hb & Ht & Hu & Happ).
  destruct (refresh_body_batches s) as (bs & Hb2 & Hacc).
  cbn zeta in *. rewrite Hb, drop_app_length.
  rewrite Hb in Hb2. apply app_inv_head in Hb2. subst bs.
  split; [reflexivity|]. split; [exact Ht|]. split; [exact Hacc|].
  split; [exact Hu|].
  split; [exact Happ|]. apply embed_rows_leaves_other_rows.
Qed.

End refresh.

Lemma refresh_upserts_rows_tagged_success_witness :
  let s' := exec (ingestion_refresh refresh_examples.answered) refresh_examples.start in
  exists u, upserts s'.2 = upserts refresh_examples.start.2 ++ [u].
Proof.
  cbn zeta.
  refine (proj1 (proj2 (proj2 (proj2 (proj2 (refresh_upserts_rows_tagged_success
            refresh_examples.answered refresh_examples.start))))) _ _).
  - intros path. reflexivity.
  - vm_compute. discriminate.
Defined.

(** C1, as written, fails.  With an endpoint that answers with an empty
    vector, the one record of the export is tagged success and handed to
    the index holding an empty list in [values].  And with 26 records, an
    endpoint that refuses the 26th request for rate limiting and a disk
    that refuses the appends to the error log, the 25 records of the first
    batch are tagged success and nothing is handed to the index. *)
Lemma refresh_upserts_empty_embedding :
  (let s' := exec (ingestion_refresh refresh_examples.empty_vectors)
                  refresh_examples.start in
   exists b u ir,
     embedded_batches s'.2 = [b] /\ count_success b = 1%nat
     /\ upserts s'.2 = [u] /\ rows u = [ir]
     /\ ir.2 !! "values" = Some (VList []))
  /\ (let s' := exec (ingestion_refresh refresh_examples.quota_and_disk_full)
                     refresh_examples.start in
      exists b,
        embedded_batches s'.2 = [b] /\ count_success b = 25%nat
        /\ upserts s'.2 = []).
Proof.
  cbn zeta. split.
  - eexists _, _, _. split; [vm_compute; reflexivity|].
    split; [vm_compute; reflexivity|].
    split; [vm_compute; reflexivity|].
    split; [reflexivity|]. vm_compute. reflexivity.
  - eexists. split; [vm_compute; reflexivity|].
    split; [vm_compute; reflexivity|]. vm_compute. reflexivity.
Qed.
(* ===================================================================== *)
(** * Part III: further properties of the code                             *)
(* ===================================================================== *)

(** ** The tracker: successes, consultations, the log files *)

Section tracker_more.
Context (E : Env).

Lemma log_success_tracker (op : string) (w : world) :
  exec (log_success op) w
  = with_tracker (with_success_counts (fun c =>
      <[op := (default 0 (c !! op) + 1)%Z]> c)) w.
Proof. reflexivity. Qed.

(** A logged success is counted under its operation and touches nothing
    that the circuit breaker reads: the error counts, the last-error times,
    the clock and the log files are as before, and [should_continue] gives
    the answer it would have given without it. *)
Theorem log_success_leaves_circuit (op ty : string) (th : Z) (win : Q)
    (w : world) :
  let w' := exec (log_success op) w in
  result (log_success op) w = Ok tt
  /\ success_counts (error_tracker w')
     = <[op := (default 0 (success_counts (error_tracker w) !! op) + 1)%Z]>
         (success_counts (error_tracker w))
  /\ error_counts (error_tracker w') = error_counts (error_tracker w)
  /\ last_error_time (error_tracker w') = last_error_time (error_tracker w)
  /\ clock w' = clock w /\ files w' = files w
  /\ result (should_continue ty th win) w'
     = result (should_continue ty th win) w.
Proof.
  cbn zeta. rewrite log_success_tracker.
  destruct w as [[ld ec lt sc] ck fs er cr tr].
  repeat split.
  unfold result. rewrite !should_continue_run.
  unfold error_count, elapsed_since_last; cbn.
  destruct (ec !! ty) as [c|]; [|reflexivity].
  destruct (c <? th)%Z; [reflexivity|].
  destruct (Qltb win _); reflexivity.
Qed.

(** Consulting the circuit breaker twice in a row, with no time passing in
    between, gives the same answer twice, and the second consultation
    leaves the tracker as the first left it. *)
Theorem should_continue_twice (ty : string) (th : Z) (win : Q) (w : world) :
  let w1 := exec (should_continue ty th win) w in
  should_continue ty th win w1 = (result (should_continue ty th win) w, w1).
Proof.
  cbn zeta. unfold exec, result.
  rewrite (should_continue_run ty th win w).
  destruct (error_count w ty) as [c|] eqn:Hc; cbn [fst snd].
  - destruct (c <? th)%Z eqn:Hlt; cbn [fst snd].
    + rewrite should_continue_run, Hc, Hlt. reflexivity.
    + destruct (Qltb win (elapsed_since_last w ty)) eqn:Hw; cbn [fst snd];
        rewrite should_continue_run;
        destruct w as [[ld ec lt sc] ck fs er cr tr];
        unfold error_count, elapsed_since_last in *; cbn in *.
      * rewrite lookup_insert_eq.
        destruct (0 <? th)%Z; [reflexivity|].
        unfold with_tracker, with_last_error_time, with_error_counts; cbn.
        destruct (lt !! ty) as [t0|] eqn:Hl; cbn in *;
          rewrite ?Hl, ?lookup_insert_eq; cbn; rewrite Hw, insert_insert_eq;
          reflexivity.
      * rewrite Hc, Hlt.
        unfold with_tracker, with_last_error_time, with_error_counts; cbn.
        destruct (lt !! ty) as [t0|] eqn:Hl; cbn in *;
          rewrite ?Hl, ?lookup_insert_eq; cbn; rewrite Hw; reflexivity.
  - rewrite should_continue_run, Hc. reflexivity.
Qed.

(** *** The log files only grow *)

Lemma do_call_lines (c : tracker_call) (w : world) (path : string) :
  lines_of w path `prefix_of` lines_of (do_call E c w) path.
Proof.
  unfold lines_of.
  destruct c as [ty details api|op|ty th win| |q]; cbn [do_call].
  - unfold exec. rewrite log_error_run. cbn zeta.
    destruct (fs_appendable E _); cbn [snd].
    + destruct w as [t ck fs er cr tr]; cbn.
      destruct (decide (log_filename E (log_dir t) api ck = path)) as [->|Hne].
      * rewrite lookup_insert_eq. cbn. apply prefix_app_r. reflexivity.
      * rewrite lookup_insert_ne by exact Hne. reflexivity.
    + destruct w; reflexivity.
  - destruct w; reflexivity.
  - destruct (should_continue_answers ty th win w) as (go & w' & Hrun & _ & _ & Hf & _).
    unfold exec. rewrite Hrun. cbn. rewrite Hf. reflexivity.
  - reflexivity.
  - destruct w; reflexivity.
Qed.

(** Whatever calls are made on the tracker, every log file keeps the lines
    it had, in their order: the lines a file holds before a history are a
    prefix of the lines it holds after it. *)
Theorem log_files_only_grow (cs : list tracker_call) (w : world)
    (path : string) :
  lines_of w path `prefix_of` lines_of (run_calls E cs w) path.
Proof.
  revert w. induction cs as [|c cs IH]; intros w; [reflexivity|].
  cbn [run_calls foldl]. fold (run_calls E cs (do_call E c w)).
  etransitivity; [apply do_call_lines | apply IH].
Qed.

(** *** The counts and the errors logged *)

Lemma sum_values_insert (m : gmap string Z) (k : string) (v : Z) :
  sum_values (<[k := v]> m) = (v - default 0 (m !! k) + sum_values m)%Z.
Proof.
  unfold sum_values.
  assert (Hcomm : forall (m' : gmap string Z) (j1 j2 : string) (z1 z2 y : Z),
             j1 <> j2 -> m' !! j1 = Some z1 -> m' !! j2 = Some z2 ->
             (z1 + (z2 + y) = z2 + (z1 + y))%Z) by (intros; lia).
  destruct (m !! k) as [old|] eqn:Hk; cbn.
  - rewrite <- insert_delete_eq.
    rewrite map_fold_insert_L;
      [|apply Hcomm|apply lookup_delete_eq].
    rewrite (map_fold_delete_L _ _ k old m); [lia|apply Hcomm|exact Hk].
  - rewrite map_fold_insert_L; [lia|apply Hcomm|exact Hk].
Qed.

Lemma run_calls_snoc (cs : list tracker_call) (c : tracker_call) (w : world) :
  run_calls E (cs ++ [c]) w = do_call E c (run_calls E cs w).
Proof. unfold run_calls. rewrite foldl_app. reflexivity. Qed.

Lemma times_logged_snoc (ty : string) (cs : list tracker_call)
    (c : tracker_call) :
  times_logged ty (cs ++ [c]) = (times_logged ty cs + times_logged ty [c])%nat.
Proof.
  induction cs as [|c0 cs IH]; [cbn; lia|].
  destruct c0; cbn [app times_logged]; rewrite IH; cbn; lia.
Qed.

Lemma do_call_error_count (c : tracker_call) (w : world) (ty : string) :
  error_count (do_call E c w) ty
  = match c with
    | CallLogError ty' _ _ =>
        if bool_decide (ty' = ty)
        then Some (default 0 (error_count w ty) + 1)%Z
        else error_count w ty
    | CallShouldContinue ty' th win =>
        if bool_decide (ty' = ty)
        then match error_count w ty with
             | Some n =>
                 if (n <? th)%Z then Some n
                 else if Qltb win (elapsed_since_last w ty) then Some 0%Z
                      else Some n
             | None => None
             end
        else error_count w ty
    | _ => error_count w ty
    end.
Proof.
  destruct c as [ty' details api|op|ty' th win| |q]; cbn [do_call].
  - destruct (log_error_tracker E ty' details api w) as [Ht _].
    unfold error_count. rewrite Ht. cbn.
    case_bool_decide as Heq.
    + subst. rewrite lookup_insert_eq. reflexivity.
    + rewrite lookup_insert_ne by exact Heq. reflexivity.
  - destruct w as [[ld ec lt sc] ck fs er cr tr]; reflexivity.
  - unfold exec. rewrite should_continue_run.
    case_bool_decide as Heq.
    + subst ty'. destruct (error_count w ty) as [n|] eqn:Hn; cbn [snd];
        [|exact Hn].
      destruct (n <? th)%Z; cbn [snd]; [exact Hn|].
      destruct w as [[ld ec lt sc] ck fs er cr tr].
      unfold error_count, elapsed_since_last in *; cbn in *.
      destruct (Qltb win _); cbn; [apply lookup_insert_eq|exact Hn].
    + destruct (error_count w ty') as [n|] eqn:Hn; cbn [snd]; [|reflexivity].
      destruct (n <? th)%Z; cbn [snd]; [reflexivity|].
      destruct w as [[ld ec lt sc] ck fs er cr tr].
      unfold error_count, elapsed_since_last in *; cbn in *.
      destruct (Qltb win _); cbn; [|reflexivity].
      apply lookup_insert_ne. exact Heq.
  - reflexivity.
  - destruct w as [[ld ec lt sc] ck fs er cr tr]; reflexivity.
Qed.

Lemma run_calls_count_bounded (cs : list tracker_call) (dir : string)
    (now : Q) (fs : gmap string (list string)) (ty : string) (c : Z) :
  error_count (run_calls E cs (startup dir now fs)) ty = Some c ->
  (0 <= c <= Z.of_nat (times_logged ty cs))%Z.
Proof.
  revert c. induction cs as [|c0 cs IH] using rev_ind; intros c.
  - cbn. unfold error_count; cbn. rewrite lookup_empty. discriminate.
  - rewrite run_calls_snoc, times_logged_snoc, do_call_error_count.
    destruct (error_count (run_calls E cs (startup dir now fs)) ty) as [n|];
      destruct c0 as [ty' details api|op|ty' th win| |q]; cbn [times_logged];
      try case_bool_decide; cbn [default];
      try (intros [= <-]; specialize (IH _ eq_refl); lia);
      try discriminate.
    + destruct (n <? th)%Z; [|destruct (Qltb win _)];
        intros [= <-]; specialize (IH _ eq_refl); lia.
    + intros [= <-]. lia.
Qed.

Lemma run_calls_count_exact (cs : list tracker_call) (dir : string)
    (now : Q) (fs : gmap string (list string)) (ty : string) :
  Forall (fun c => consults c = false) cs ->
  let w := run_calls E cs (startup dir now fs) in
  error_count w ty
  = match times_logged ty cs with
    | O => None
    | S n => Some (Z.of_nat (S n))
    end
  /\ sum_values (error_counts (error_tracker w)) = Z.of_nat (errors_logged cs).
Proof.
  cbn zeta. induction cs as [|c0 cs IH] using rev_ind; intros Hcs.
  - cbn. unfold error_count; cbn. rewrite lookup_empty. split; reflexivity.
  - apply Forall_app in Hcs as [Hcs Hc0]. apply Forall_inv in Hc0.
    cbn beta in Hc0.
    destruct (IH Hcs) as [IHc IHs]. clear IH.
    rewrite run_calls_snoc, times_logged_snoc, do_call_error_count.
    unfold errors_logged in *. rewrite List.filter_app, length_app.
    split.
    + rewrite IHc.
      destruct c0 as [ty' details api|op|ty' th win| |q];
        cbn [times_logged consults] in *; try discriminate Hc0;
        try case_bool_decide; rewrite ?Nat.add_0_r; try reflexivity.
      destruct (times_logged ty cs) as [|n]; cbn [default Nat.add].
      * reflexivity.
      * f_equal. unfold id. lia.
    + destruct c0 as [ty' details api|op|ty' th win| |q];
        cbn [consults] in Hc0; try discriminate Hc0;
        cbn [do_call List.filter length];
        rewrite ?Nat.add_0_r.
      * destruct (log_error_tracker E ty' details api
                    (run_calls E cs (startup dir now fs))) as [Ht _].
        rewrite Ht. cbn. rewrite sum_values_insert, IHs. lia.
      * rewrite log_success_tracker.
        destruct (run_calls E cs (startup dir now fs)) as [[ld ec lt sc] ck fs' er cr tr].
        exact IHs.
      * exact IHs.
      * destruct (run_calls E cs (startup dir now fs)) as [[ld ec lt sc] ck fs' er cr tr].
        exact IHs.
Qed.

(** The count the tracker holds for an error type never exceeds the number
    of errors of that type logged since start-up, whatever else was called
    in between; as long as [should_continue] was not called, the count is
    exactly that number (and the type has no entry when none was logged),
    and the summary's [total_errors] is the number of errors logged. *)
Theorem error_counts_count_logged (cs : list tracker_call) (dir : string)
    (now : Q) (fs : gmap string (list string)) (ty : string) :
  let w := run_calls E cs (startup dir now fs) in
  (forall c, error_count w ty = Some c ->
             (0 <= c <= Z.of_nat (times_logged ty cs))%Z)
  /\ (Forall (fun c => consults c = false) cs ->
      error_count w ty
      = match times_logged ty cs with
        | O => None
        | S n => Some (Z.of_nat (S n))
        end
      /\ exists s, result (get_error_summary E) w = Ok s
                   /\ total_errors s = Z.of_nat (errors_logged cs)).
Proof.
  cbn zeta. split.
  - intros c. apply run_calls_count_bounded.
  - intros Hcs. destruct (run_calls_count_exact cs dir now fs ty Hcs) as [H1 H2].
    split; [exact H1|].
    unfold result. rewrite get_error_summary_run. cbn.
    eexists. split; [reflexivity|]. exact H2.
Qed.

End tracker_more.

Lemma error_counts_count_logged_witness :
  let E := demo.disk_env true in
  let cs := [CallLogError "rate_limit" (VStr "quota") "openai";
             CallSleep 2; CallLogSuccess "embedding_generation";
             CallLogError "rate_limit" (VStr "quota") "openai";
             CallLogError "unknown" (VStr "boom") "openai"] in
  let w := run_calls E cs (startup "./logs" 1000 ∅) in
  error_count w "rate_limit" = Some 2%Z
  /\ exists s, result (get_error_summary E) w = Ok s /\ total_errors s = 3%Z.
Proof.
  apply (error_counts_count_logged (demo.disk_env true)
           [CallLogError "rate_limit" (VStr "quota") "openai";
            CallSleep 2; CallLogSuccess "embedding_generation";
            CallLogError "rate_limit" (VStr "quota") "openai";
            CallLogError "unknown" (VStr "boom") "openai"]
           "./logs" 1000 ∅ "rate_limit").
  repeat constructor.
Defined.
(** ** The Confluence look-ups *)

Section lookups.
Context (E : Env).

Lemma find_space_first (key : string) (pre post : list value)
    (space : list (string * value)) :
  Forall (fun v => other_space key v = true) pre ->
  has_key key (VDict space) = true ->
  find_space (pre ++ VDict space :: post) key = Ok (Some space).
Proof.
  intros Hpre Hkey. induction Hpre as [|v pre Hv _ IH]; cbn.
  - cbn in Hkey. rewrite Hkey. reflexivity.
  - destruct v; try discriminate Hv. cbn in Hv.
    apply negb_true_iff in Hv. rewrite Hv. exact IH.
Qed.

Lemma find_space_none (key : string) (items : list value) :
  Forall (fun v => other_space key v = true) items ->
  find_space items key = Ok None.
Proof.
  induction 1 as [|v items Hv _ IH]; cbn; [reflexivity|].
  destruct v; try discriminate Hv. cbn in Hv.
  apply negb_true_iff in Hv. rewrite Hv. exact IH.
Qed.

Lemma find_space_sound (key : string) (items : list value)
    (space : list (string * value)) :
  find_space items key = Ok (Some space) ->
  VDict space ∈ items /\ has_key key (VDict space) = true.
Proof.
  induction items as [|v items IH]; cbn; [discriminate|].
  destruct v; try discriminate.
  destruct (str_eq _ key) eqn:Hk.
  - intros [= <-]. split; [left|exact Hk].
  - intros H. destruct (IH H) as [Hin Hkey]. split; [right; exact Hin|exact Hkey].
Qed.

Lemma get_space_by_key_lists (key : string) (items : list value) :
  lists_spaces E items ->
  get_space_by_key E key = find_space items key.
Proof.
  intros (d & Hd & Hne & Hres). unfold get_space_by_key. rewrite Hd.
  destruct d as [|kv d]; [congruence|]. rewrite Hres. reflexivity.
Qed.

(** [get_space_by_key] returns the first space of the listing whose key is
    the one asked for, whatever follows it in the listing; it returns
    [None] when the request fails, when the answer has no results, and
    when no listed space has the key; and a space it returns is a listed
    one and has the key. *)
Theorem get_space_by_key_first_match (key : string) :
  (api_call E (spaces_root_url E) = None -> get_space_by_key E key = Ok None)
  /\ (forall d, api_call E (spaces_root_url E) = Some d ->
                dict_get d "results" = None ->
                get_space_by_key E key = Ok None)
  /\ (forall pre post space,
        lists_spaces E (pre ++ VDict space :: post) ->
        Forall (fun v => other_space key v = true) pre ->
        has_key key (VDict space) = true ->
        get_space_by_key E key = Ok (Some space))
  /\ (forall items,
        lists_spaces E items ->
        Forall (fun v => other_space key v = true) items ->
        get_space_by_key E key = Ok None)
  /\ (forall items space,
        lists_spaces E items ->
        get_space_by_key E key = Ok (Some space) ->
        VDict space ∈ items
        /\ dict_get space "key" = Some (VStr key)).
Proof.
  repeat split.
  - intros H. unfold get_space_by_key. rewrite H. reflexivity.
  - intros d Hd Hres. unfold get_space_by_key. rewrite Hd.
    destruct d; [reflexivity|]. rewrite Hres. reflexivity.
  - intros pre post space Hl Hpre Hkey.
    rewrite (get_space_by_key_lists _ _ Hl). apply find_space_first; assumption.
  - intros items Hl Hall.
    rewrite (get_space_by_key_lists _ _ Hl). apply find_space_none; assumption.
  - rewrite (get_space_by_key_lists _ _ H) in H0.
    apply find_space_sound in H0. tauto.
  - rewrite (get_space_by_key_lists _ _ H) in H0.
    apply find_space_sound in H0 as [_ Hk]. cbn in Hk.
    destruct (dict_get space "key") as [[]|]; cbn in Hk; try discriminate.
    apply String.eqb_eq in Hk. congruence.
Qed.

(** [get_pages_by_space_key] asks for the pages of the first listed space
    with the key, under that space's id; when no space has the key, or the
    space has no id, or its id is falsy (zero, the empty string, null), it
    returns [None]. *)
Theorem get_pages_by_space_key_resolves (key : string) (start limit : Z) :
  (forall pre post space id,
      lists_spaces E (pre ++ VDict space :: post) ->
      Forall (fun v => other_space key v = true) pre ->
      has_key key (VDict space) = true ->
      dict_get space "id" = Some id ->
      get_space_id_by_key E key = Ok id
      /\ get_pages_by_space_key E key start limit
         = Ok (if truthy id
               then api_call E (pages_url E id start limit) else None))
  /\ (forall pre post space,
        lists_spaces E (pre ++ VDict space :: post) ->
        Forall (fun v => other_space key v = true) pre ->
        has_key key (VDict space) = true ->
        dict_get space "id" = None ->
        get_pages_by_space_key E key start limit = Ok None)
  /\ (forall items,
        lists_spaces E items ->
        Forall (fun v => other_space key v = true) items ->
        get_pages_by_space_key E key start limit = Ok None).
Proof.
  repeat split.
  - unfold get_space_id_by_key.
    rewrite (get_space_by_key_lists _ _ H), find_space_first by assumption.
    destruct space; [discriminate|]. rewrite H2. reflexivity.
  - unfold get_pages_by_space_key, get_space_id_by_key.
    rewrite (get_space_by_key_lists _ _ H), find_space_first by assumption.
    destruct space; [discriminate|]. rewrite H2.
    destruct (truthy id); reflexivity.
  - intros pre post space Hl Hpre Hkey Hid.
    unfold get_pages_by_space_key, get_space_id_by_key.
    rewrite (get_space_by_key_lists _ _ Hl), find_space_first by assumption.
    destruct space; [reflexivity|]. rewrite Hid. reflexivity.
  - intros items Hl Hall.
    unfold get_pages_by_space_key, get_space_id_by_key.
    rewrite (get_space_by_key_lists _ _ Hl), find_space_none by assumption.
    reflexivity.
Qed.

(** [fetch_page_content] returns the value under [body.storage.value] of
    the answer; it returns [None] when the request fails or when one of the
    three keys is missing from the dictionary it is looked up in; when
    [body] or [storage] is present but is not a dictionary, the
    [TypeError] of the subscript is not handled and reaches the caller. *)
Theorem fetch_page_content_cases (page_id : string) :
  (api_call E (page_url E page_id) = None ->
   fetch_page_content E page_id = Ok VNone)
  /\ (forall d body storage v,
        serves_page E page_id d ->
        dict_get d "body" = Some (VDict body) ->
        dict_get body "storage" = Some (VDict storage) ->
        dict_get storage "value" = Some v ->
        fetch_page_content E page_id = Ok v)
  /\ (forall d,
        serves_page E page_id d ->
        (dict_get d "body" = None
         \/ (exists body, dict_get d "body" = Some (VDict body)
                          /\ dict_get body "storage" = None)
         \/ (exists body storage,
               dict_get d "body" = Some (VDict body)
               /\ dict_get body "storage" = Some (VDict storage)
               /\ dict_get storage "value" = None)) ->
        fetch_page_content E page_id = Ok VNone)
  /\ (forall d,
        serves_page E page_id d ->
        ((exists body, dict_get d "body" = Some body /\ is_dict body = false)
         \/ (exists body storage,
               dict_get d "body" = Some (VDict body)
               /\ dict_get body "storage" = Some storage
               /\ is_dict storage = false)) ->
        fetch_page_content E page_id = Raise TypeError).
Proof.
  repeat split.
  - intros H. unfold fetch_page_content. rewrite H. reflexivity.
  - intros d body storage v [Hd Hne] Hb Hs Hv.
    unfold fetch_page_content. rewrite Hd. destruct d; [congruence|].
    unfold storage_value, subscript. rewrite Hb, Hs, Hv. reflexivity.
  - intros d [Hd Hne] Hmiss.
    unfold fetch_page_content. rewrite Hd. destruct d; [congruence|].
    unfold storage_value, subscript.
    destruct Hmiss as [Hb|[(body & Hb & Hs)|(body & storage & Hb & Hs & Hv)]].
    + rewrite Hb. reflexivity.
    + rewrite Hb, Hs. reflexivity.
    + rewrite Hb, Hs, Hv. reflexivity.
  - intros d [Hd Hne] Hbad.
    unfold fetch_page_content. rewrite Hd. destruct d; [congruence|].
    unfold storage_value, subscript.
    destruct Hbad as [(body & Hb & Hnd)|(body & storage & Hb & Hs & Hnd)].
    + rewrite Hb. destruct body; try discriminate Hnd; reflexivity.
    + rewrite Hb, Hs. destruct storage; try discriminate Hnd; reflexivity.
Qed.

End lookups.

(** ** The export of the pages of a space *)

Section export.
Context (E : Env).

Lemma page_offsets_S (limit : Z) (n : nat) :
  page_offsets limit (S n) = page_offsets limit n ++ [(limit * Z.of_nat n)%Z].
Proof.
  unfold page_offsets. rewrite seq_S, fmap_app. reflexivity.
Qed.

(** One turn of the loop on a response that is not the last. *)
Lemma pages_loop_next (fetch : Z -> outcome (option (list (string * value))))
    (fuel : nat) (start limit : Z) (acc : list value) (req : list Z)
    (d : list (string * value)) (r : list value) :
  fetch start = Ok (Some d) -> full_page d r ->
  pages_loop fetch (S fuel) start limit acc req
  = pages_loop fetch fuel (start + limit) limit (acc ++ r) (req ++ [start]).
Proof.
  intros Hget (Hres & Hne & links & u & Hlinks & Hnext & Hu).
  cbn [pages_loop]. rewrite Hget.
  destruct d as [|kv d']; [discriminate Hres|].
  rewrite (page_results_get _ _ Hres).
  destruct r as [|x r]; [congruence|]. cbn [truthy negb py_iter].
  rewrite Hlinks. cbn [default from_option id]. rewrite Hnext.
  cbn [default from_option id truthy].
  destruct (String.eqb u "") eqn:Heq; [apply String.eqb_eq in Heq; congruence|].
  reflexivity.
Qed.

(** The turn of the loop on the response that omits the next link. *)
Lemma pages_loop_last (fetch : Z -> outcome (option (list (string * value))))
    (fuel : nat) (start limit : Z) (acc : list value) (req : list Z)
    (d : list (string * value)) (r : list value) :
  fetch start = Ok (Some d) -> page_results d = Some r -> omits_next d ->
  pages_loop fetch (S fuel) start limit acc req
  = (Done (Ok (acc ++ r)), req ++ [start]).
Proof.
  intros Hget Hres Homit.
  cbn [pages_loop]. rewrite Hget.
  destruct d as [|kv d']; [discriminate Hres|].
  rewrite (page_results_get _ _ Hres).
  destruct r as [|x r]; cbn [truthy negb py_iter].
  - rewrite app_nil_r. reflexivity.
  - destruct Homit as [Hnone|(links & Hlinks & Hnext)].
    + rewrite Hnone. reflexivity.
    + rewrite Hlinks. cbn [default from_option id]. rewrite Hnext. reflexivity.
Qed.

(** The turn of the loop on a request that fails. *)
Lemma pages_loop_failed (fetch : Z -> outcome (option (list (string * value))))
    (fuel : nat) (start limit : Z) (acc : list value) (req : list Z) :
  fetch start = Ok None ->
  pages_loop fetch (S fuel) start limit acc req = (Done (Ok acc), req ++ [start]).
Proof. intros Hget. cbn [pages_loop]. rewrite Hget. reflexivity. Qed.

(** The turns of the loop on a run of responses none of which is the
    last. *)
Lemma pages_loop_full_pages
    (fetch : Z -> outcome (option (list (string * value)))) (limit : Z)
    (init : list (list (string * value))) (rs : list (list value)) :
  Forall2 full_page init rs ->
  forall (k0 : nat) (acc : list value) (req : list Z) (fuel : nat),
    (forall (k : nat) d, init !! k = Some d ->
       fetch (limit * Z.of_nat (k0 + k))%Z = Ok (Some d)) ->
    pages_loop fetch (length init + fuel) (limit * Z.of_nat k0) limit acc req
    = pages_loop fetch fuel (limit * Z.of_nat (k0 + length init)) limit
        (acc ++ List.concat rs)
        (req ++ ((fun k => (limit * Z.of_nat (k0 + k))%Z) <$> seq 0 (length init))).
Proof.
  induction 1 as [|d r init rs Hfull _ IH]; intros k0 acc req fuel Hserve.
  - cbn. rewrite !app_nil_r, Nat.add_0_r. reflexivity.
  - cbn [length Nat.add].
    rewrite (pages_loop_next fetch _ _ limit acc req d r); [|
      specialize (Hserve 0%nat d eq_refl); rewrite Nat.add_0_r in Hserve;
      exact Hserve | exact Hfull].
    replace (limit * Z.of_nat k0 + limit)%Z with (limit * Z.of_nat (S k0))%Z by lia.
    rewrite (IH (S k0)).
    + f_equal.
      * f_equal. lia.
      * cbn [List.concat]. rewrite app_assoc. reflexivity.
      * rewrite <- app_assoc. f_equal.
        change (seq 0 (S (length init))) with (0%nat :: seq 1 (length init)).
        rewrite fmap_cons, Nat.add_0_r. cbn [app]. f_equal.
        rewrite <- seq_shift, <- list_fmap_compose.
        apply list_fmap_ext. intros _ k _. cbn. f_equal. f_equal. lia.
    + intros k d' Hk. specialize (Hserve (S k) d' Hk).
      replace (S k0 + k)%nat with (k0 + S k)%nat by lia. exact Hserve.
Qed.

(** When the look-up of the space gives an id, [get_pages_for_space_key]
    asks for the pages of that space at the offsets 0, limit, 2 limit, ...
    As long as the responses carry results and a next link it goes on;
    at the response that omits the next link it stops and returns the
    results of all the responses, in order; and at a request that fails
    it also stops, and returns the results collected so far as if they
    were all the pages. *)
Theorem get_pages_for_space_key_pages (key : string) (space_id : value)
    (limit : Z) (init : list (list (string * value))) (rs : list (list value))
    (fuel : nat) :
  get_space_id_by_key E key = Ok space_id -> truthy space_id = true ->
  Forall2 full_page init rs ->
  serves_pages E space_id limit init ->
  length init < fuel ->
  (forall last r_last,
      get_pages_by_space_id E space_id (limit * Z.of_nat (length init)) limit
        = Some last ->
      page_results last = Some r_last -> omits_next last ->
      get_pages_for_space_key E fuel key limit
      = (Done (Ok (List.concat (rs ++ [r_last]))),
         page_offsets limit (S (length init))))
  /\ (get_pages_by_space_id E space_id (limit * Z.of_nat (length init)) limit
        = None ->
      get_pages_for_space_key E fuel key limit
      = (Done (Ok (List.concat rs)), page_offsets limit (S (length init)))).
Proof.
  intros Hid Htrue Hinit Hserve Hfuel.
  assert (Hrun : forall fuel',
    pages_loop (fun start => Ok (get_pages_by_space_id E space_id start limit))
      (length init + fuel') 0 limit [] []
    = pages_loop (fun start => Ok (get_pages_by_space_id E space_id start limit))
        fuel' (limit * Z.of_nat (length init)) limit (List.concat rs)
        (page_offsets limit (length init))).
  { intros fuel'.
    replace 0%Z with (limit * Z.of_nat 0)%Z at 1 by lia.
    rewrite (pages_loop_full_pages _ limit init rs Hinit 0 [] [] fuel').
    - reflexivity.
    - intros k d Hk. cbn [Nat.add]. f_equal. apply Hserve. exact Hk. }
  replace fuel with (length init + S (fuel - length init - 1))%nat by lia.
  unfold get_pages_for_space_key. rewrite Hid, Htrue, Hrun.
  split.
  - intros last r_last Hlast Hres Homit.
    rewrite (pages_loop_last _ _ _ limit _ _ last r_last); auto;
      [|rewrite Hlast; reflexivity].
    rewrite concat_app, page_offsets_S. cbn [List.concat].
    rewrite app_nil_r. reflexivity.
  - intros Hnone.
    rewrite pages_loop_failed by (rewrite Hnone; reflexivity).
    rewrite page_offsets_S. reflexivity.
Qed.

(** *** Flags and contents *)

Lemma same_label_str (a b : value) :
  is_str a = true -> is_str b = true ->
  same_label a b = true <-> a = b.
Proof.
  destruct a, b; try discriminate; intros _ _; cbn.
  rewrite String.eqb_eq. split; congruence.
Qed.

Lemma loc_set_rows (l : value) (c : string) (v : value) (df : KeyedFrame) :
  krows (loc_set l c v df)
  = (fun ir => if same_label ir.1 l then (ir.1, <[c := v]> ir.2) else ir)
      <$> krows df.
Proof. reflexivity. Qed.

Lemma loc_set_columns (l : value) (c : string) (v : value) (df : KeyedFrame) :
  khas_column c df = true -> kcolumns (loc_set l c v df) = kcolumns df.
Proof. intros H. unfold loc_set; cbn. rewrite H. reflexivity. Qed.

Lemma loc_set_has_column (l : value) (c c' : string) (v : value)
    (df : KeyedFrame) :
  khas_column c' df = true -> khas_column c' (loc_set l c v df) = true.
Proof.
  unfold khas_column, loc_set; cbn. intros H%bool_decide_eq_true.
  apply bool_decide_eq_true. destruct (khas_column c df); [exact H|].
  apply elem_of_app. left. exact H.
Qed.

Lemma kset_scalar_has_own (c : string) (v : value) (df : KeyedFrame) :
  khas_column c (kset_scalar c v df) = true.
Proof.
  unfold kset_scalar, khas_column at 1; cbn. apply bool_decide_eq_true.
  destruct (khas_column c df) eqn:H.
  - apply bool_decide_eq_true in H. exact H.
  - apply elem_of_app. right. apply list_elem_of_singleton. reflexivity.
Qed.

Lemma kset_scalar_has_other (c c' : string) (v : value) (df : KeyedFrame) :
  c' <> c -> khas_column c' (kset_scalar c v df) = khas_column c' df.
Proof.
  intros Hne. unfold kset_scalar, khas_column at 1; cbn.
  destruct (khas_column c df); [reflexivity|].
  unfold khas_column. apply bool_decide_ext. rewrite elem_of_app.
  rewrite list_elem_of_singleton. tauto.
Qed.

(** The rows after the loop: each row went through the turns of all the
    page ids, in order. *)
Lemma process_pages_rows (soup : value -> option string) (ids : list value) :
  Forall (fetches_return E) ids ->
  forall df : KeyedFrame,
    khas_column "is_internal" df = true -> khas_column "content" df = true ->
    exists df',
      process_pages E soup ids df = Ok df'
      /\ kcolumns df' = kcolumns df
      /\ krows df'
         = (fun ir => foldl (fun ir l => mark_under E soup l ir) ir ids)
             <$> krows df.
Proof.
  induction 1 as [|l ids [(lab & Hlab) (con & Hcon)] _ IH]; intros df Hi Hc.
  - exists df. cbn. rewrite list_fmap_id. auto.
  - cbn [process_pages]. rewrite Hlab, Hcon.
    set (df1 := match lab with
                | Some b => loc_set l "is_internal" (VBool b) df
                | None => df
                end).
    set (df2 := match con with
                | VNone => df1
                | _ => match soup con with
                       | Some page_content =>
                           loc_set l "content" (VStr page_content) df1
                       | None => df1
                       end
                end).
    assert (H1 : khas_column "is_internal" df1 = true
                 /\ khas_column "content" df1 = true
                 /\ kcolumns df1 = kcolumns df
                 /\ krows df1
                    = (fun ir => if same_label ir.1 l
                                 then (ir.1, match lab with
                                             | Some b => <["is_internal" := VBool b]> ir.2
                                             | None => ir.2
                                             end)
                                 else ir) <$> krows df).
    { subst df1. destruct lab as [b|].
      - rewrite loc_set_columns by exact Hi.
        repeat split; auto using loc_set_has_column.
      - repeat split; auto.
        rewrite <- (list_fmap_id (krows df)) at 1.
        apply list_fmap_ext. intros _ ir _. destruct (same_label _ _), ir; reflexivity. }
    destruct H1 as (Hi1 & Hc1 & Hcols1 & Hrows1).
    assert (H2 : khas_column "is_internal" df2 = true
                 /\ khas_column "content" df2 = true
                 /\ kcolumns df2 = kcolumns df
                 /\ krows df2 = mark_under E soup l <$> krows df).
    { assert (Hext : extracted E soup l
                     = match con with VNone => None | _ => soup con end).
      { unfold extracted. rewrite Hcon. destruct con; reflexivity. }
      assert (Hkeep : krows df1 = mark_under E soup l <$> krows df ->
                      extracted E soup l = None ->
                      krows df1 = mark_under E soup l <$> krows df) by auto.
      assert (Hnone : extracted E soup l = None ->
                      krows df1 = mark_under E soup l <$> krows df).
      { intros Hx. rewrite Hrows1. apply list_fmap_ext. intros _ ir _.
        unfold mark_under. rewrite Hlab, Hx.
        destruct (same_label _ _), lab; reflexivity. }
      assert (Hsome : forall text, extracted E soup l = Some text ->
                krows (loc_set l "content" (VStr text) df1)
                = mark_under E soup l <$> krows df).
      { intros text Hx. rewrite loc_set_rows, Hrows1, <- list_fmap_compose.
        apply list_fmap_ext. intros _ ir _. cbn.
        unfold mark_under. rewrite Hlab, Hx.
        destruct (same_label ir.1 l) eqn:Hs; cbn; rewrite ?Hs;
          destruct lab; reflexivity. }
      subst df2.
      destruct con; try (destruct (soup _) as [text|] eqn:Hsoup);
        rewrite ?loc_set_columns by exact Hc1;
        repeat split; auto using loc_set_has_column. }
    destruct H2 as (Hi2 & Hc2 & Hcols2 & Hrows2).
    destruct (IH df2 Hi2 Hc2) as (df' & Hrun & Hcols & Hrows).
    exists df'. split; [exact Hrun|]. split; [congruence|].
    rewrite Hrows, Hrows2, <- list_fmap_compose. reflexivity.
Qed.

Lemma mark_under_own (soup : value -> option string) (ir : value * row) :
  is_str ir.1 = true ->
  mark_under E soup ir.1 ir = marked E soup ir.
Proof.
  intros Hs. unfold mark_under, marked.
  assert (H : same_label ir.1 ir.1 = true) by (apply same_label_str; auto).
  rewrite H. reflexivity.
Qed.

Lemma mark_under_other (soup : value -> option string) (l : value)
    (ir : value * row) :
  is_str ir.1 = true -> is_str l = true -> ir.1 <> l ->
  mark_under E soup l ir = ir.
Proof.
  intros Hs Hl Hne. unfold mark_under.
  destruct (same_label ir.1 l) eqn:H; [|reflexivity].
  apply same_label_str in H; auto. contradiction.
Qed.

Lemma mark_under_miss (soup : value -> option string) (l : value)
    (ir : value * row) :
  same_label ir.1 l = false -> mark_under E soup l ir = ir.
Proof. intros H. unfold mark_under. rewrite H. reflexivity. Qed.

Lemma marked_twice (soup : value -> option string) (ir : value * row) :
  marked E soup (marked E soup ir) = marked E soup ir.
Proof.
  unfold marked; cbn [fst snd]. f_equal.
  destruct (fetch_labels E _) as [[b|]|]; destruct (extracted E soup _) as [t|];
    rewrite ?insert_insert_eq; try reflexivity.
  rewrite (insert_insert_ne _ "is_internal" "content") by discriminate.
  rewrite !insert_insert_eq. reflexivity.
Qed.

Lemma marks_folded (soup : value -> option string) (ids : list value)
    (ir : value * row) :
  is_str ir.1 = true -> Forall (fun l => is_str l = true) ids ->
  ir.1 ∈ ids ->
  foldl (fun ir l => mark_under E soup l ir) ir ids = marked E soup ir.
Proof.
  intros Hs Hids.
  assert (Hfix : forall ids', Forall (fun l => is_str l = true) ids' ->
            foldl (fun ir l => mark_under E soup l ir) (marked E soup ir) ids'
            = marked E soup ir).
  { induction 1 as [|l ids' Hl _ IH]; [reflexivity|]. cbn [foldl].
    destruct (same_label ir.1 l) eqn:Hsame.
    - apply same_label_str in Hsame as <-; auto.
      change ir.1 with (marked E soup ir).1 at 1.
      rewrite mark_under_own by exact Hs. rewrite marked_twice. exact IH.
    - rewrite mark_under_miss by exact Hsame. exact IH. }
  induction Hids as [|l ids Hl Hids IH]; intros Hin.
  - apply elem_of_nil in Hin. contradiction.
  - cbn [foldl]. destruct (same_label ir.1 l) eqn:Hsame.
    + apply same_label_str in Hsame as <-; auto.
      rewrite mark_under_own by exact Hs. apply Hfix. exact Hids.
    + rewrite mark_under_miss by exact Hsame. apply IH.
      apply elem_of_cons in Hin as [Heq|Hin]; [|exact Hin].
      apply (same_label_str _ _ Hs Hl) in Heq. congruence.
Qed.

Lemma add_content_and_labels_run (soup : value -> option string)
    (df : KeyedFrame) :
  Forall (fun ir => is_str ir.1 = true) (krows df) ->
  Forall (fun ir => fetches_return E ir.1) (krows df) ->
  exists df',
    add_content_and_labels_to_dataframe E soup df = Ok df'
    /\ krows df' = marked E soup <$> (with_defaults df <$> krows df)
    /\ khas_column "is_internal" df' = true
    /\ khas_column "content" df' = true.
Proof.
  intros Hstr Hret. unfold add_content_and_labels_to_dataframe.
  set (df1 := if khas_column "is_internal" df then df
              else kset_scalar "is_internal" (VBool false) df).
  set (df2 := if khas_column "content" df1 then df1
              else kset_scalar "content" (VStr "") df1).
  assert (H1 : khas_column "is_internal" df1 = true
               /\ khas_column "content" df1 = khas_column "content" df
               /\ krows df1
                  = (fun ir => (ir.1, if khas_column "is_internal" df then ir.2
                                      else <["is_internal" := VBool false]> ir.2))
                      <$> krows df).
  { subst df1. destruct (khas_column "is_internal" df) eqn:Hi.
    - repeat split; auto. rewrite <- (list_fmap_id (krows df)) at 1.
      apply list_fmap_ext. intros _ [] _. reflexivity.
    - split; [apply kset_scalar_has_own|].
      split; [apply kset_scalar_has_other; discriminate|reflexivity]. }
  destruct H1 as (Hi1 & Hc1 & Hrows1).
  assert (H2 : khas_column "is_internal" df2 = true
               /\ khas_column "content" df2 = true
               /\ krows df2 = with_defaults df <$> krows df).
  { subst df2. destruct (khas_column "content" df1) eqn:Hc.
    - repeat split; auto. rewrite Hrows1. apply list_fmap_ext.
      intros _ ir _. unfold with_defaults. rewrite <- Hc1. reflexivity.
    - split; [rewrite kset_scalar_has_other by discriminate; exact Hi1|].
      split; [apply kset_scalar_has_own|].
      cbn. rewrite Hrows1, <- list_fmap_compose. apply list_fmap_ext.
      intros _ ir _. unfold with_defaults. rewrite <- Hc1. reflexivity. }
  destruct H2 as (Hi2 & Hc2 & Hrows2).
  assert (Hlabels : (krows df2).*1 = (krows df).*1).
  { rewrite Hrows2, <- list_fmap_compose. apply list_fmap_ext. intros _ [] _.
    reflexivity. }
  destruct (process_pages_rows soup ((krows df2).*1)) with (df := df2)
    as (df' & Hrun & Hcols & Hrows); auto.
  { rewrite Hlabels. apply Forall_fmap. exact Hret. }
  exists df'. split; [exact Hrun|]. split.
  - rewrite Hrows, <- Hrows2. apply list_fmap_ext. intros k ir Hk.
    apply marks_folded.
    + rewrite Hrows2 in Hk.
      apply list_lookup_fmap_Some in Hk as (ir0 & -> & Hk0). cbn.
      eapply (Forall_lookup_1 _ _ _ _ Hstr Hk0).
    + rewrite Hlabels. apply Forall_fmap. exact Hstr.
    + apply list_elem_of_fmap. exists ir. split; [reflexivity|].
      eapply list_elem_of_lookup_2. exact Hk.
  - unfold khas_column in *. rewrite Hcols. auto.
Qed.

(** On a frame indexed by page ids that are strings, and as long as no
    request raises, [add_content_and_labels_to_dataframe] returns the rows
    it was given, in their order and under their labels, each with its
    flag set to what the labels of its page say (left as it was when the
    labels could not be fetched, [False] if the frame had no such column)
    and its content set to the text extracted from the page (left as it
    was when the content could not be fetched or extracted, the empty
    string if the frame had no such column); every other cell is as it
    was.  When the labels request of the first page raises, the function
    raises and returns no frame. *)
Theorem add_content_and_labels_marks (soup : value -> option string)
    (df : KeyedFrame) :
  (Forall (fun ir => is_str ir.1 = true) (krows df) ->
   Forall (fun ir => fetches_return E ir.1) (krows df) ->
   exists df',
     add_content_and_labels_to_dataframe E soup df = Ok df'
     /\ krows df' = marked E soup <$> (with_defaults df <$> krows df)
     /\ khas_column "is_internal" df' = true
     /\ khas_column "content" df' = true)
  /\ (forall ir rest e,
        krows df = ir :: rest ->
        fetch_labels E (py_str E ir.1) = Raise e ->
        add_content_and_labels_to_dataframe E soup df = Raise e).
Proof.
  split; [apply add_content_and_labels_run|].
  intros ir rest e Hrows Hraise.
  unfold add_content_and_labels_to_dataframe.
  set (df1 := if khas_column "is_internal" df then df
              else kset_scalar "is_internal" (VBool false) df).
  set (df2 := if khas_column "content" df1 then df1
              else kset_scalar "content" (VStr "") df1).
  assert (H : (krows df2).*1 = ir.1 :: rest.*1).
  { subst df2 df1.
    destruct (khas_column "is_internal" df);
      destruct (khas_column "content" _); cbn;
      rewrite ?Hrows; cbn; rewrite <- ?list_fmap_compose; reflexivity. }
  rewrite H. cbn [process_pages]. rewrite Hraise. reflexivity.
Qed.

(** *** What [main] saves *)

Lemma page_records_listed (pages : list value) :
  Forall listed_page pages ->
  exists recs, page_records pages = Ok recs /\ recs.*1 = id_of <$> pages.
Proof.
  induction 1 as [|page pages (p & -> & Hid & Hlinks) _ (recs & Hrecs & Hids)].
  - exists []. split; reflexivity.
  - cbn [page_records page_record].
    destruct (default (VDict []) (dict_get p "_links")) eqn:Hl;
      try discriminate Hlinks.
    rewrite Hrecs. eexists. split; [reflexivity|].
    cbn. rewrite Hids. reflexivity.
Qed.

Lemma filter_fmap_comm {A B} (q : B -> bool) (f : A -> B) (l : list A) :
  List.filter q (f <$> l) = f <$> List.filter (fun x => q (f x)) l.
Proof.
  induction l as [|x l IH]; [reflexivity|]. cbn.
  destruct (q (f x)); cbn; rewrite IH; reflexivity.
Qed.

Lemma filter_ext_Forall {A} (p q : A -> bool) (l : list A) :
  Forall (fun x => p x = q x) l -> List.filter p l = List.filter q l.
Proof.
  induction 1 as [|x l Hx _ IH]; [reflexivity|]. cbn. rewrite Hx, IH.
  reflexivity.
Qed.

(** The cells of a row of a frame made by [create_pages_dataframe] once
    [add_content_and_labels_to_dataframe] is through with it. *)
Lemma marked_cells (soup : value -> option string) (df : KeyedFrame)
    (ir : value * row) :
  khas_column "is_internal" df = false -> khas_column "content" df = false ->
  fetches_return E ir.1 ->
  let r := (marked E soup (with_defaults df ir)).2 in
  r !! "is_internal" = Some (VBool (internal_only E ir.1))
  /\ r !! "content" = Some (VStr (default "" (extracted E soup ir.1))).
Proof.
  intros Hi Hc [(lab & Hlab) _]. unfold marked, with_defaults.
  rewrite Hi, Hc. cbn [fst snd]. unfold internal_only. rewrite Hlab.
  destruct lab as [b|]; destruct (extracted E soup ir.1) as [t|]; cbn;
    rewrite ?lookup_insert_eq;
    repeat (rewrite lookup_insert_ne by discriminate; rewrite ?lookup_insert_eq);
    try (destruct b); split; reflexivity.
Qed.

(** For a space key that is set, and when the pages of the space come back
    as the API lists them (dictionaries with a string id) and no request
    for their labels or content raises: [main] saves the pages whose
    labels do not say [internal_only], in the order they were listed,
    each with the text extracted from its content (the empty string when
    there is none); a page whose labels could not be fetched is saved
    like a page that is not internal; and when no page is left, nothing is
    saved, so that the file of an earlier run stays as it is. *)
Theorem main_saves_pages_not_internal (soup : value -> option string)
    (fuel : nat) (key : string) (pages : list value) :
  key <> "" ->
  fst (get_pages_for_space_key E fuel key 25) = Done (Ok pages) ->
  Forall listed_page pages ->
  Forall (fun page => fetches_return E (id_of page)) pages ->
  let kept := List.filter (fun page => negb (internal_only E (id_of page))) pages in
  exists saved,
    main E soup fuel (Some key) = Done (Ok saved)
    /\ match saved with
       | None => kept = []
       | Some f =>
           kept <> []
           /\ (krows f).*1 = id_of <$> kept
           /\ Forall (fun ir =>
                        internal_only E ir.1 = false
                        /\ ir.2 !! "is_internal" = Some (VBool false)
                        /\ ir.2 !! "content"
                           = Some (VStr (default "" (extracted E soup ir.1))))
                     (krows f)
       end.
Proof.
  intros Hkey Hpages Hlisted Hret kept.
  unfold main. destruct key as [|a key]; [congruence|]. rewrite Hpages.
  destruct pages as [|page pages]; [exists None; split; reflexivity|].
  destruct (page_records_listed _ Hlisted) as (recs & Hrecs & Hids).
  unfold create_pages_dataframe. rewrite Hrecs.
  set (df := mkKeyedFrame ["type"; "status"; "tiny_link"; "title"; "space_id"] recs).
  assert (Hstr : Forall (fun ir => is_str ir.1 = true) (krows df)).
  { cbn. apply Forall_fmap with (f := fst) (P := fun l => is_str l = true).
    rewrite Hids. apply Forall_fmap. eapply Forall_impl; [exact Hlisted|].
    intros ? (p & -> & Hid & _). exact Hid. }
  assert (Hfr : Forall (fun ir => fetches_return E ir.1) (krows df)).
  { cbn. apply Forall_fmap with (f := fst) (P := fetches_return E).
    rewrite Hids. apply Forall_fmap. exact Hret. }
  destruct (add_content_and_labels_run soup df Hstr Hfr)
    as (df' & Hrun & Hrows & Hi & Hc).
  rewrite Hrun.
  set (out := kfilter_rows (fun r => ne_true (cell r "is_internal")) df').
  assert (Hcells : Forall (fun ir =>
            let r := (marked E soup (with_defaults df ir)).2 in
            r !! "is_internal" = Some (VBool (internal_only E ir.1))
            /\ r !! "content" = Some (VStr (default "" (extracted E soup ir.1))))
            recs).
  { eapply Forall_impl; [exact Hfr|]. intros ir Hir.
    apply marked_cells; auto. }
  assert (Hout : krows out
                 = (fun ir => marked E soup (with_defaults df ir))
                     <$> List.filter (fun ir => negb (internal_only E ir.1)) recs).
  { subst out. unfold kfilter_rows; cbn [krows]. rewrite Hrows.
    rewrite <- list_fmap_compose, filter_fmap_comm. f_equal.
    apply filter_ext_Forall. eapply Forall_impl; [exact Hcells|].
    intros ir [H1 _]. cbn in *. unfold cell. rewrite H1. cbn.
    destruct (internal_only E ir.1); reflexivity. }
  assert (Hlabels : (krows out).*1 = id_of <$> kept).
  { rewrite Hout, <- list_fmap_compose.
    transitivity ((List.filter (fun ir => negb (internal_only E ir.1)) recs).*1);
      [apply list_fmap_ext; intros _ [] _; reflexivity|].
    subst kept.
    rewrite <- (filter_fmap_comm (fun l => negb (internal_only E l)) fst recs).
    rewrite Hids, filter_fmap_comm. reflexivity. }
  assert (Hcols : kcolumns out <> []).
  { subst out. cbn. apply bool_decide_eq_true in Hi.
    intros Hnil. rewrite Hnil in Hi. apply elem_of_nil in Hi. exact Hi. }
  unfold save_to_csv, kdf_empty.
  destruct (krows out) as [|ir0 rows0] eqn:Hrows_out.
  - exists None. split; [reflexivity|].
    destruct kept; [reflexivity|discriminate Hlabels].
  - destruct (kcolumns out) eqn:Hk; [congruence|].
    exists (Some out). split; [reflexivity|].
    split; [|split].
    + intros Hnil. rewrite Hnil in Hlabels. discriminate Hlabels.
    + rewrite Hrows_out. exact Hlabels.
    + rewrite Hrows_out, Hout. apply Forall_fmap.
      apply Forall_forall. intros ir Hin.
      apply list_elem_of_In, filter_In in Hin as [Hin Hkeep].
      apply negb_true_iff in Hkeep.
      apply list_elem_of_In in Hin.
      pose proof (proj1 (Forall_forall _ _) Hcells ir Hin) as [H1 H2].
      cbn in *. rewrite Hkeep in H1. auto.
Qed.

End export.

(** *** The look-ups and the export on an example server *)

Lemma get_space_by_key_first_match_witness :
  get_space_by_key export_examples.wiki_env "ENG"
  = Ok (Some [("key", VStr "ENG"); ("id", VStr "42")]).
Proof.
  apply (proj1 (proj2 (proj2 (get_space_by_key_first_match
                                 export_examples.wiki_env "ENG")))
           [export_examples.space "OPS" "7"] []).
  - eexists. split; [reflexivity|]. split; [discriminate|reflexivity].
  - repeat constructor.
  - reflexivity.
Defined.

Lemma get_pages_by_space_key_resolves_witness :
  get_space_id_by_key export_examples.wiki_env "ENG" = Ok (VStr "42")
  /\ get_pages_by_space_key export_examples.wiki_env "ENG" 25 25
     = Ok (Some export_examples.pages_3).
Proof.
  apply (proj1 (get_pages_by_space_key_resolves
                  export_examples.wiki_env "ENG" 25 25)
           [export_examples.space "OPS" "7"] []
           [("key", VStr "ENG"); ("id", VStr "42")] (VStr "42")).
  - eexists. split; [reflexivity|]. split; [discriminate|reflexivity].
  - repeat constructor.
  - reflexivity.
  - reflexivity.
Defined.

Lemma fetch_page_content_cases_witness :
  fetch_page_content export_examples.wiki_env "3" = Ok VNone.
Proof.
  apply (proj1 (proj2 (proj2 (fetch_page_content_cases
                                 export_examples.wiki_env "3")))
           [("title", VStr "Holidays")]).
  - split; [reflexivity|discriminate].
  - left. reflexivity.
Defined.

Lemma get_pages_for_space_key_pages_witness :
  get_pages_for_space_key export_examples.flaky_env 5 "ENG" 25
  = (Done (Ok [export_examples.page "1" "Welcome";
               export_examples.page "2" "Salaries"]),
     [0%Z; 25%Z]).
Proof.
  refine (proj2 (get_pages_for_space_key_pages export_examples.flaky_env
                   "ENG" (VStr "42") 25 [export_examples.pages_1_2]
                   [[export_examples.page "1" "Welcome";
                     export_examples.page "2" "Salaries"]] 5
                   eq_refl eq_refl _ _ _) eq_refl).
  - constructor; [|constructor].
    split; [reflexivity|]. split; [discriminate|].
    eexists _, _. split; [reflexivity|]. split; [reflexivity|discriminate].
  - intros [|k] d; [|discriminate]. intros [= <-]. reflexivity.
  - cbn. lia.
Defined.

Lemma add_content_and_labels_marks_witness :
  exists df',
    add_content_and_labels_to_dataframe export_examples.wiki_env
      export_examples.plain_text export_examples.listed_1_2 = Ok df'
    /\ krows df'
       = marked export_examples.wiki_env export_examples.plain_text
           <$> (with_defaults export_examples.listed_1_2
                  <$> krows export_examples.listed_1_2)
    /\ khas_column "is_internal" df' = true
    /\ khas_column "content" df' = true.
Proof.
  apply (proj1 (add_content_and_labels_marks export_examples.wiki_env
                  export_examples.plain_text export_examples.listed_1_2)).
  - repeat constructor.
  - repeat constructor; eexists; reflexivity.
Defined.

Lemma main_saves_pages_not_internal_witness :
  let E := export_examples.wiki_env in
  exists saved,
    main E export_examples.plain_text 5 (Some "ENG") = Done (Ok saved)
    /\ match saved with
       | None =>
           List.filter (fun page => negb (internal_only E (id_of page)))
             [export_examples.page "1" "Welcome";
              export_examples.page "2" "Salaries";
              export_examples.page "3" "Holidays"] = []
       | Some f =>
           List.filter (fun page => negb (internal_only E (id_of page)))
             [export_examples.page "1" "Welcome";
              export_examples.page "2" "Salaries";
              export_examples.page "3" "Holidays"] <> []
           /\ (krows f).*1
              = id_of <$> List.filter
                            (fun page => negb (internal_only E (id_of page)))
                            [export_examples.page "1" "Welcome";
                             export_examples.page "2" "Salaries";
                             export_examples.page "3" "Holidays"]
           /\ Forall (fun ir =>
                        internal_only E ir.1 = false
                        /\ ir.2 !! "is_internal" = Some (VBool false)
                        /\ ir.2 !! "content"
                           = Some (VStr (default ""
                                (extracted E export_examples.plain_text ir.1))))
                     (krows f)
       end.
Proof.
  apply (main_saves_pages_not_internal export_examples.wiki_env
           export_examples.plain_text 5 "ENG"
           [export_examples.page "1" "Welcome";
            export_examples.page "2" "Salaries";
            export_examples.page "3" "Holidays"]).
  - discriminate.
  - reflexivity.
  - repeat constructor; eexists; repeat split; reflexivity.
  - repeat constructor; eexists; reflexivity.
Defined.
(** ** The text sent for an embedding *)

Lemma substring_0_length (m : nat) (s : string) :
  String.length (String.substring 0 m s) = Nat.min m (String.length s).
Proof.
  revert m. induction s as [|a s IH]; intros [|m]; cbn; auto.
Qed.

Lemma substring_0_all (m : nat) (s : string) :
  (String.length s <= m)%nat -> String.substring 0 m s = s.
Proof.
  revert m. induction s as [|a s IH]; intros [|m] H; cbn in *; auto; try lia.
  f_equal. apply IH. lia.
Qed.

Lemma substring_0_prefix (m : nat) (s : string) :
  exists rest, s = String.substring 0 m s +:+ rest.
Proof.
  revert m. induction s as [|a s IH]; intros [|m]; cbn.
  - exists "". reflexivity.
  - exists "". reflexivity.
  - exists (String a s). reflexivity.
  - destruct (IH m) as [rest Hrest]. exists rest. rewrite Hrest at 1.
    reflexivity.
Qed.

Section embeddings_text.
Context (E : Env).

Lemma create_embeddings_run (s : string) (model_emb : string) (w : world) :
  create_embeddings E (VStr s) model_emb w
  = (match embeddings_create E (embedding_requests w)
             (VStr (String.substring 0 8000 s)) with
     | Answer embedding => Ok embedding
     | Failure e => Raise e
     end,
     mkWorld (error_tracker w) (clock w) (files w) (S (embedding_requests w))
             (chat_requests w) (trace w ++ [EvCreateEmbeddings (VStr s)])).
Proof.
  unfold create_embeddings, bind, modify, emit, py_len, py_slice.
  destruct (8000 <? String.length s)%nat eqn:Hlen.
  - unfold embeddings_request. cbn [error_tracker clock files embedding_requests chat_requests trace].
    destruct (embeddings_create E _ _); reflexivity.
  - apply Nat.ltb_ge in Hlen. rewrite (substring_0_all _ _ Hlen).
    unfold embeddings_request. cbn [error_tracker clock files embedding_requests chat_requests trace].
    destruct (embeddings_create E _ _); reflexivity.
Qed.

(** [create_embeddings] sends one request, for the first 8000 characters
    of the text (the whole text when it is no longer than that), and hands
    back what the service answers: its embedding, or its exception. *)
Theorem create_embeddings_sends_prefix (s : string) (model_emb : string)
    (w : world) :
  let sent := String.substring 0 8000 s in
  create_embeddings E (VStr s) model_emb w
  = (match embeddings_create E (embedding_requests w) (VStr sent) with
     | Answer embedding => Ok embedding
     | Failure e => Raise e
     end,
     mkWorld (error_tracker w) (clock w) (files w) (S (embedding_requests w))
             (chat_requests w) (trace w ++ [EvCreateEmbeddings (VStr s)]))
  /\ String.length sent = Nat.min 8000 (String.length s)
  /\ exists rest, s = sent +:+ rest.
Proof.
  cbn zeta. split; [apply create_embeddings_run|].
  split; [apply substring_0_length|apply substring_0_prefix].
Qed.

End embeddings_text.

(** ** The chat completion loop: every outcome *)

Section chat_more.
Context (E : Env).

(** The state after one chat request. *)
Lemma chat_request_run (w : world) :
  chat_request E w
  = (match chat_completions_create E (chat_requests w) with
     | Answer content => Ok content
     | Failure e => Raise e
     end,
     mkWorld (error_tracker w) (clock w) (files w) (embedding_requests w)
             (S (chat_requests w)) (trace w ++ [EvChatRequest])).
Proof.
  unfold chat_request. destruct (chat_completions_create E _); reflexivity.
Qed.

Lemma sleep_budget_step (rc : Z) (wait : Z) :
  (0 <= rc)%Z -> (rc + 1 <= max_retries)%Z ->
  (0 <= wait <= 2 ^ (rc + 1) * 5)%Z ->
  (0 <= inject_Z wait)%Q
  /\ (inject_Z wait + sleep_budget (rc + 1) <= sleep_budget rc)%Q.
Proof.
  unfold max_retries. intros H0 H1 Hw.
  assert (Hrc : rc = 0%Z \/ rc = 1%Z \/ rc = 2%Z) by lia.
  assert (H0' : (0 <= inject_Z wait)%Q).
  { change 0%Q with (inject_Z 0). rewrite <- Zle_Qle. lia. }
  split; [exact H0'|].
  destruct Hrc as [-> | [-> | ->]].
  - change (sleep_budget (0 + 1)) with (inject_Z 60).
    change (sleep_budget 0) with (inject_Z 70).
    change (2 ^ (0 + 1) * 5)%Z with 10%Z in Hw.
    rewrite <- inject_Z_plus, <- Zle_Qle. lia.
  - change (sleep_budget (1 + 1)) with (inject_Z 40).
    change (sleep_budget 1) with (inject_Z 60).
    change (2 ^ (1 + 1) * 5)%Z with 20%Z in Hw.
    rewrite <- inject_Z_plus, <- Zle_Qle. lia.
  - change (sleep_budget (2 + 1)) with (inject_Z 0).
    change (sleep_budget 2) with (inject_Z 40).
    change (2 ^ (2 + 1) * 5)%Z with 40%Z in Hw.
    rewrite <- inject_Z_plus, <- Zle_Qle. lia.
Qed.

(** What the loop does from a given retry count on: it returns a string,
    or raises the [AttributeError] of an [APIError] that has no status
    code; it sends at least one request and at most one per retry left;
    it sleeps no longer than the waits of the retries left; and it touches
    neither the tracker nor the files nor the embeddings counter. *)
Lemma chat_loop_bounds (turns : nat) (rc : Z) (w : world) :
  (0 <= rc <= max_retries)%Z -> (max_retries + 1 - rc <= Z.of_nat turns)%Z ->
  let w' := exec (chat_loop E turns rc) w in
  ((exists s, result (chat_loop E turns rc) w = Ok (Some s))
   \/ (result (chat_loop E turns rc) w = Raise AttributeError
       /\ exists n, chat_completions_create E n = Failure (APIError None)))
  /\ (chat_requests w < chat_requests w'
      <= chat_requests w + Z.to_nat (max_retries + 1 - rc))%nat
  /\ (clock w <= clock w' /\ clock w' <= clock w + sleep_budget rc)%Q
  /\ error_tracker w' = error_tracker w /\ files w' = files w
  /\ embedding_requests w' = embedding_requests w.
Proof.
  revert rc w. induction turns as [|turns IH]; intros rc w Hrc Hfuel.
  { unfold max_retries in *. lia. }
  assert (Hbudget : (0 <= sleep_budget rc)%Q).
  { unfold sleep_budget.
    destruct (rc <=? 0)%Z; [|destruct (rc =? 1)%Z; [|destruct (rc =? 2)%Z]];
      discriminate. }
  assert (Hstop : forall (o : outcome (option string)),
    ((exists s, o = Ok (Some s))
     \/ (o = Raise AttributeError
         /\ exists n, chat_completions_create E n = Failure (APIError None))) ->
    let w1 := mkWorld (error_tracker w) (clock w) (files w)
                (embedding_requests w) (S (chat_requests w))
                (trace w ++ [EvChatRequest]) in
    ((exists s, o = Ok (Some s))
     \/ (o = Raise AttributeError
         /\ exists n, chat_completions_create E n = Failure (APIError None)))
    /\ (chat_requests w < chat_requests w1
        <= chat_requests w + Z.to_nat (max_retries + 1 - rc))%nat
    /\ (clock w <= clock w1 /\ clock w1 <= clock w + sleep_budget rc)%Q
    /\ error_tracker w1 = error_tracker w /\ files w1 = files w
    /\ embedding_requests w1 = embedding_requests w).
  { intros o Ho. cbn. split; [exact Ho|]. split; [unfold max_retries in *; lia|].
    split; [|auto]. split; [apply Qle_refl|].
    rewrite <- (Qplus_0_r (clock w)) at 1. apply Qplus_le_r. exact Hbudget. }
  assert (Hretry : forall wait : Z,
    (rc + 1 >? max_retries)%Z = false ->
    (0 <= wait <= 2 ^ (rc + 1) * 5)%Z ->
    let w1 := mkWorld (error_tracker w) (clock w) (files w)
                (embedding_requests w) (S (chat_requests w))
                (trace w ++ [EvChatRequest]) in
    let m := time_sleep (inject_Z wait) ;;; chat_loop E turns (rc + 1) in
    let w' := exec m w1 in
    ((exists s, result m w1 = Ok (Some s))
     \/ (result m w1 = Raise AttributeError
         /\ exists n, chat_completions_create E n = Failure (APIError None)))
    /\ (chat_requests w < chat_requests w'
        <= chat_requests w + Z.to_nat (max_retries + 1 - rc))%nat
    /\ (clock w <= clock w' /\ clock w' <= clock w + sleep_budget rc)%Q
    /\ error_tracker w' = error_tracker w /\ files w' = files w
    /\ embedding_requests w' = embedding_requests w).
  { intros wait Hgt Hwait w1 m w'.
    assert (Hle : (rc + 1 <= max_retries)%Z) by lia.
    destruct (sleep_budget_step rc wait) as [Hw0 Hstep]; [lia|exact Hle|exact Hwait|].
    pose (w2 := exec (time_sleep (inject_Z wait)) w1).
    destruct (IH (rc + 1)%Z w2) as (Hres & Hreq & [Hck1 Hck2] & Ht & Hf & He);
      [unfold max_retries in *; lia|unfold max_retries in *; lia|].
    change (exec m w1) with (exec (chat_loop E turns (rc + 1)) w2) in w'.
    change (result m w1) with (result (chat_loop E turns (rc + 1)) w2).
    split; [exact Hres|]. subst w'.
    assert (Hw2 : chat_requests w2 = S (chat_requests w)
                  /\ clock w2 = (clock w + inject_Z wait)%Q
                  /\ error_tracker w2 = error_tracker w
                  /\ files w2 = files w
                  /\ embedding_requests w2 = embedding_requests w)
      by (repeat split; reflexivity).
    destruct Hw2 as (Hr2 & Hc2 & Ht2 & Hf2 & He2).
    rewrite Hr2 in Hreq. rewrite Hc2 in Hck1, Hck2.
    rewrite Ht, Hf, He, Ht2, Hf2, He2.
    split; [unfold max_retries in *; lia|].
    split; [|auto].
    split.
    - eapply Qle_trans; [|exact Hck1].
      rewrite <- (Qplus_0_r (clock w)) at 1. apply Qplus_le_r. exact Hw0.
    - eapply Qle_trans; [exact Hck2|].
      rewrite <- Qplus_assoc. apply Qplus_le_r. exact Hstep. }
  cbn zeta. unfold exec, result.
  remember (chat_loop E (S turns) rc w) as r eqn:Hr.
  cbn [chat_loop] in Hr.
  destruct (rc <=? max_retries)%Z eqn:Hc; [|apply Z.leb_gt in Hc; lia].
  cbn [negb] in Hr. unfold try_except, bind at 1 in Hr.
  rewrite chat_request_run in Hr.
  destruct (chat_completions_create E (chat_requests w)) as [content|e] eqn:Hans;
    unfold ret, raise in Hr; cbv beta iota in Hr.
  - subst r. apply (Hstop (Ok (Some content))). left. eexists. reflexivity.
  - destruct e as [| |[status|]| | | | | |]; cbv beta iota in Hr;
      try (subst r; apply (Hstop (Ok (Some sorry_wrong))); left; eexists;
           reflexivity).
    + destruct (rc + 1 >? max_retries)%Z eqn:Hgt; subst r.
      * apply (Hstop (Ok (Some sorry_traffic))). left. eexists. reflexivity.
      * apply (Hretry (2 ^ (rc + 1) * 5)%Z eq_refl). lia.
    + destruct (rc + 1 >? max_retries)%Z eqn:Hgt; subst r.
      * apply (Hstop (Ok (Some sorry_connection))). left. eexists. reflexivity.
      * apply (Hretry (5 * (rc + 1))%Z eq_refl).
        unfold max_retries in *.
        assert (Hrc' : rc = 0%Z \/ rc = 1%Z \/ rc = 2%Z) by lia.
        destruct Hrc' as [-> | [-> | ->]]; cbn; lia.
    + destruct (status =? 429)%Z.
      * destruct (rc + 1 >? max_retries)%Z eqn:Hgt; subst r.
        -- apply (Hstop (Ok (Some sorry_busy))). left. eexists. reflexivity.
        -- apply (Hretry (2 ^ (rc + 1) * 5)%Z eq_refl). lia.
      * subst r. apply (Hstop (Ok (Some sorry_error))). left. eexists. reflexivity.
    + subst r. apply (Hstop (Raise AttributeError)). right. split; [reflexivity|].
      eexists. exact Hans.
Qed.

(** Whatever the service answers, [get_chat_completion_messages] returns a
    string (never the [None] of a loop that runs out) or raises the
    [AttributeError] of an [APIError] without a status code, which happens
    only if the service answered one; it sends at least one and at most
    four requests, sleeps at most 70 seconds in all, and leaves the error
    tracker and the log files as they were: the failures of the chat
    service are not logged. *)
Theorem get_chat_completion_messages_bounded (messages : list value)
    (model_chat : string) (temperature : Q) (w : world) :
  let run := get_chat_completion_messages E messages model_chat temperature in
  let w' := exec run w in
  ((exists s, result run w = Ok (Some s))
   \/ (result run w = Raise AttributeError
       /\ exists n, chat_completions_create E n = Failure (APIError None)))
  /\ (chat_requests w < chat_requests w' <= chat_requests w + 4)%nat
  /\ (clock w <= clock w' /\ clock w' <= clock w + 70)%Q
  /\ error_tracker w' = error_tracker w /\ files w' = files w
  /\ embedding_requests w' = embedding_requests w.
Proof.
  apply (chat_loop_bounds 4 0 w); unfold max_retries; lia.
Qed.

(** One turn of the loop when the connection to the service fails. *)
Lemma chat_loop_connection_failed (turns : nat) (retry_count : Z) (w : world) :
  chat_completions_create E (chat_requests w) = Failure APIConnectionError ->
  (retry_count <= max_retries)%Z ->
  let w1 := mkWorld (error_tracker w) (clock w) (files w)
                    (embedding_requests w) (S (chat_requests w))
                    (trace w ++ [EvChatRequest]) in
  chat_loop E (S turns) retry_count w =
    if (retry_count + 1 >? max_retries)%Z then (Ok (Some sorry_connection), w1)
    else chat_loop E turns (retry_count + 1)
           (exec (time_sleep (inject_Z (5 * (retry_count + 1)))) w1).
Proof.
  intros Hfail Hle. cbn [chat_loop].
  destruct (retry_count <=? max_retries)%Z eqn:Hc;
    [|apply Z.leb_gt in Hc; lia].
  cbn [negb]. unfold try_except, bind, chat_request. rewrite Hfail.
  destruct (retry_count + 1 >? max_retries)%Z; reflexivity.
Qed.

(** When every attempt fails for the connection,
    [get_chat_completion_messages] sends four requests, waits 5, 10 and 15
    seconds before the retries, and returns the apology for the
    connection. *)
Theorem chat_connection_schedule (messages : list value) (model_chat : string)
    (temperature : Q) (w : world) :
  (forall n, chat_completions_create E n = Failure APIConnectionError) ->
  let run := get_chat_completion_messages E messages model_chat temperature in
  result run w = Ok (Some sorry_connection)
  /\ trace (exec run w)
     = trace w ++ [EvChatRequest; EvSleep 5; EvChatRequest; EvSleep 10;
                   EvChatRequest; EvSleep 15; EvChatRequest]
  /\ chat_requests (exec run w) = (4 + chat_requests w)%nat.
Proof.
  intros Hfail run. unfold run, result, exec, get_chat_completion_messages.
  change (Z.to_nat (max_retries + 1)) with 4%nat.
  rewrite chat_loop_connection_failed by (auto; unfold max_retries; lia).
  change (0 + 1 >? max_retries)%Z with false. cbn iota.
  rewrite chat_loop_connection_failed by (auto; unfold max_retries; lia).
  change (0 + 1 + 1 >? max_retries)%Z with false. cbn iota.
  rewrite chat_loop_connection_failed by (auto; unfold max_retries; lia).
  change (0 + 1 + 1 + 1 >? max_retries)%Z with false. cbn iota.
  rewrite chat_loop_connection_failed by (auto; unfold max_retries; lia).
  change (0 + 1 + 1 + 1 + 1 >? max_retries)%Z with true. cbn iota.
  cbn. rewrite <- !app_assoc. cbn. auto.
Qed.

(** An exception that is neither a rate limit nor a connection failure
    ends the call at the first attempt: one request, no sleep, and the
    fixed apology for the kind of failure (an [APIError] with a status
    other than 429, or anything else) is returned; on an [APIError] that
    carries no status code the handler itself raises [AttributeError],
    which reaches the caller. *)
Theorem chat_failure_not_retried (messages : list value) (model_chat : string)
    (temperature : Q) (w : world) (e : exn) :
  chat_completions_create E (chat_requests w) = Failure e ->
  retried e = false ->
  get_chat_completion_messages E messages model_chat temperature w
  = (ends_with e,
     mkWorld (error_tracker w) (clock w) (files w) (embedding_requests w)
             (S (chat_requests w)) (trace w ++ [EvChatRequest])).
Proof.
  intros Hfail Hnot. unfold get_chat_completion_messages.
  change (Z.to_nat (max_retries + 1)) with 4%nat. cbn [chat_loop].
  change (0 <=? max_retries)%Z with true. cbn [negb].
  unfold try_except, bind. rewrite chat_request_run, Hfail.
  destruct e as [| |[status|]| | | | | |]; try discriminate Hnot;
    try reflexivity.
  destruct (status =? 429)%Z eqn:Hs; [|reflexivity].
  apply Z.eqb_eq in Hs. subst status. discriminate Hnot.
Qed.

(** The loop from the first attempt on when the first [k] requests are
    refused for rate limiting. *)
Lemma chat_loop_refused (k : nat) :
  forall (turns : nat) (rc : Z) (w : world),
    refused_from E (chat_requests w) k ->
    (0 <= rc)%Z -> (rc + Z.of_nat k <= max_retries)%Z ->
    exists w',
      chat_loop E (k + turns) rc w = chat_loop E turns (rc + Z.of_nat k) w'
      /\ chat_requests w' = (chat_requests w + k)%nat
      /\ error_tracker w' = error_tracker w /\ files w' = files w.
Proof.
  induction k as [|k IH]; intros turns rc w Href H0 Hle.
  - exists w. rewrite Z.add_0_r, Nat.add_0_r. auto.
  - cbn [Nat.add].
    rewrite chat_loop_rate_limited;
      [|rewrite <- (Nat.add_0_r (chat_requests w)); apply Href; lia|lia].
    destruct (rc + 1 >? max_retries)%Z eqn:Hgt; [lia|].
    destruct (IH turns (rc + 1)%Z
                (exec (time_sleep (inject_Z (2 ^ (rc + 1) * 5)))
                   (mkWorld (error_tracker w) (clock w) (files w)
                      (embedding_requests w) (S (chat_requests w))
                      (trace w ++ [EvChatRequest]))))
      as (w' & Hrun & Hreq & Ht & Hf).
    + intros i Hi. cbn. replace (S (chat_requests w + i)) with (chat_requests w + S i)%nat by lia.
      apply Href. lia.
    + lia.
    + lia.
    + exists w'. rewrite Hrun. split; [f_equal; lia|].
      cbn in Hreq. split; [lia|]. auto.
Qed.

(** When the first [k] attempts (at most three) are refused for rate
    limiting and the next one is answered, [get_chat_completion_messages]
    returns that answer, after [k + 1] requests. *)
Theorem chat_answer_after_refusals (messages : list value)
    (model_chat : string) (temperature : Q) (w : world) (k : nat)
    (content : string) :
  (k <= 3)%nat ->
  refused_from E (chat_requests w) k ->
  chat_completions_create E (chat_requests w + k) = Answer content ->
  let run := get_chat_completion_messages E messages model_chat temperature in
  result run w = Ok (Some content)
  /\ chat_requests (exec run w) = (chat_requests w + k + 1)%nat.
Proof.
  intros Hk Href Hans run. unfold run, result, exec, get_chat_completion_messages.
  change (Z.to_nat (max_retries + 1)) with 4%nat.
  replace 4%nat with (k + S (3 - k))%nat by lia.
  destruct (chat_loop_refused k (S (3 - k)) 0 w Href) as (w' & Hrun & Hreq & _);
    [lia|unfold max_retries; lia|].
  rewrite Hrun. cbn [chat_loop].
  destruct (0 + Z.of_nat k <=? max_retries)%Z eqn:Hc;
    [|apply Z.leb_gt in Hc; unfold max_retries in Hc; lia].
  cbn [negb]. unfold try_except, bind. rewrite chat_request_run, Hreq, Hans.
  cbn. split; [reflexivity|lia].
Qed.

End chat_more.

Lemma chat_connection_schedule_witness :
  let E := demo.env true [] demo.no_embeddings
             (fun _ => Failure APIConnectionError) demo.no_api in
  let run := get_chat_completion_messages E [] "gpt-3.5-turbo-0125" 0 in
  let w := startup "./logs" 1000 ∅ in
  result run w = Ok (Some sorry_connection)
  /\ trace (exec run w)
     = trace w ++ [EvChatRequest; EvSleep 5; EvChatRequest; EvSleep 10;
                   EvChatRequest; EvSleep 15; EvChatRequest]
  /\ chat_requests (exec run w) = (4 + chat_requests w)%nat.
Proof.
  cbn zeta.
  apply (chat_connection_schedule
           (demo.env true [] demo.no_embeddings
              (fun _ => Failure APIConnectionError) demo.no_api)).
  intros n. reflexivity.
Defined.

Lemma chat_failure_not_retried_witness :
  let w := startup "./logs" 1000 ∅ in
  let after := mkWorld (error_tracker w) (clock w) (files w)
                 (embedding_requests w) (S (chat_requests w))
                 (trace w ++ [EvChatRequest]) in
  (let E := demo.env true [] demo.no_embeddings
              (fun _ => Failure (APIError (Some 500%Z))) demo.no_api in
   get_chat_completion_messages E [] "gpt-3.5-turbo-0125" 0 w
   = (Ok (Some sorry_error), after))
  /\ (let E := demo.env true [] demo.no_embeddings
                 (fun _ => Failure (APIError None)) demo.no_api in
      get_chat_completion_messages E [] "gpt-3.5-turbo-0125" 0 w
      = (Raise AttributeError, after)).
Proof.
  cbn zeta. split.
  - apply (chat_failure_not_retried
             (demo.env true [] demo.no_embeddings
                (fun _ => Failure (APIError (Some 500%Z))) demo.no_api)
             [] "gpt-3.5-turbo-0125" 0 (startup "./logs" 1000 ∅)
             (APIError (Some 500%Z))); reflexivity.
  - apply (chat_failure_not_retried
             (demo.env true [] demo.no_embeddings
                (fun _ => Failure (APIError None)) demo.no_api)
             [] "gpt-3.5-turbo-0125" 0 (startup "./logs" 1000 ∅)
             (APIError None)); reflexivity.
Defined.

Lemma chat_answer_after_refusals_witness :
  let E := demo.env true [] demo.no_embeddings
             (fun n => if (n <? 2)%nat then Failure RateLimitError
                       else Answer "Reset it from the login page.")
             demo.no_api in
  let run := get_chat_completion_messages E [] "gpt-3.5-turbo-0125" 0 in
  let w := startup "./logs" 1000 ∅ in
  result run w = Ok (Some "Reset it from the login page.")
  /\ chat_requests (exec run w) = 3%nat.
Proof.
  cbn zeta.
  apply (chat_answer_after_refusals
           (demo.env true [] demo.no_embeddings
              (fun n => if (n <? 2)%nat then Failure RateLimitError
                        else Answer "Reset it from the login page.")
              demo.no_api)
           [] "gpt-3.5-turbo-0125" 0 (startup "./logs" 1000 ∅) 2).
  - lia.
  - intros [|[|i]] Hi; [reflexivity|reflexivity|lia].
  - reflexivity.
Defined.
(** ** Reading and cleaning the export *)

Section reading.
Context (E : Env).

Lemma imap_rows_labels {A} (f : A -> row) (l : list A) (k0 : nat) :
  (imap (fun k x => (Z.of_nat (k0 + k), f x)) l).*1
  = (fun k => Z.of_nat (k0 + k)) <$> seq 0 (length l).
Proof.
  revert k0. induction l as [|x l IH]; intros k0; [reflexivity|].
  cbn [imap length fmap list_fmap]. change (seq 0 (S (length l))) with (0%nat :: seq 1 (length l)).
  cbn [fmap list_fmap fst]. f_equal.
  rewrite <- seq_shift, <- list_fmap_compose.
  transitivity ((imap (fun k x => (Z.of_nat (S k0 + k), f x)) l).*1).
  - f_equal. apply imap_ext. intros k y _. cbn. do 2 f_equal. lia.
  - rewrite IH. apply list_fmap_ext. intros _ k _. cbn. f_equal. lia.
Qed.

Lemma imap_rows_cells {A} (f : A -> row) (l : list A) (k0 : nat) :
  (imap (fun k x => (Z.of_nat (k0 + k), f x)) l).*2 = f <$> l.
Proof.
  revert k0. induction l as [|x l IH]; intros k0; [reflexivity|].
  cbn [imap fmap list_fmap snd]. f_equal.
  rewrite <- (IH (S k0)). f_equal. apply imap_ext. intros k y _. cbn.
  do 2 f_equal. lia.
Qed.

(** [import_csv] returns the frame it was given when the file cannot be
    read; otherwise the first [max_rows] records of the file (all of them
    if there are fewer), in the order of the file, labelled 0, 1, 2, ...,
    with the three columns [id], [tiny_link] and [content]. *)
Theorem import_csv_reads_at_most (df : DataFrame) (file : string)
    (max_rows : nat) :
  match read_csv E file with
  | None => import_csv E df file max_rows = df
  | Some records =>
      let out := import_csv E df file max_rows in
      columns out = ["id"; "tiny_link"; "content"]
      /\ length (rows out) = Nat.min max_rows (length records)
      /\ labels out = Z.of_nat <$> seq 0 (length (rows out))
      /\ (rows out).*2 = row_of_record <$> take max_rows records
  end.
Proof.
  unfold import_csv. destruct (read_csv E file) as [records|]; [|reflexivity].
  cbn zeta. unfold frame_of_records, labels. cbn [columns rows].
  split; [reflexivity|].
  split; [rewrite length_imap, length_take; reflexivity|].
  split.
  - rewrite length_imap.
    apply (imap_rows_labels row_of_record (take max_rows records) 0).
  - apply (imap_rows_cells row_of_record (take max_rows records) 0).
Qed.

Lemma set_column_labels (c : string) (f : Z -> row -> value) (df : DataFrame) :
  labels (set_column c f df) = labels df.
Proof.
  unfold labels, set_column; cbn. rewrite <- list_fmap_compose.
  apply list_fmap_ext. intros _ [] _. reflexivity.
Qed.

Lemma rename_column_labels (old new : string) (df : DataFrame) :
  labels (rename_column old new df) = labels df.
Proof.
  unfold labels, rename_column; cbn. rewrite <- list_fmap_compose.
  apply list_fmap_ext. intros _ [] _. reflexivity.
Qed.

Lemma select_columns_labels (cols : list string) (df : DataFrame) :
  labels (select_columns cols df) = labels df.
Proof.
  unfold labels, select_columns; cbn. rewrite <- list_fmap_compose.
  apply list_fmap_ext. intros _ [] _. reflexivity.
Qed.

Lemma clean_empty_frame :
  clean_data_pinecone_schema E (empty_frame ["id"; "metadata"])
  = Ok (empty_frame ["id"; "metadata"]).
Proof. reflexivity. Qed.

(** Whatever frame it is given, when [clean_data_pinecone_schema] returns,
    the frame it returns has the columns [id] and [metadata] and no other,
    its rows keep the labels and the order they had in the input, and
    cleaning it a second time gives the empty frame: the cleaned frame
    lacks the columns the function requires. *)
Theorem clean_output_shape (df out : DataFrame) :
  clean_data_pinecone_schema E df = Ok out ->
  columns out = ["id"; "metadata"]
  /\ labels out `sublist_of` labels df
  /\ clean_data_pinecone_schema E out = Ok (empty_frame ["id"; "metadata"]).
Proof.
  unfold clean_data_pinecone_schema.
  destruct (forallb _ required_columns); cbn [negb].
  2:{ intros [= <-]. repeat split. apply sublist_nil_l. }
  destruct (df_empty (filter_rows has_content df)).
  { intros [= <-]. repeat split. apply sublist_nil_l. }
  destruct (has_column "source" _); [discriminate|].
  intros [= <-]. split; [reflexivity|]. split.
  - rewrite select_columns_labels, set_column_labels, rename_column_labels,
      set_column_labels.
    unfold labels, filter_rows; cbn. apply fmap_sublist.
    apply filter_sublist_of.
  - reflexivity.
Qed.

Lemma cleaned_record_decodes (ir : Z * row) :
  decodes_back E (metadata_object ir.2) ->
  decode_metadata E (cell (cleaned_record E ir).2 "metadata")
  = Ok (decoded_content ir.2).
Proof.
  intros Hir. unfold cleaned_record, cell at 1. cbn [snd].
  rewrite lookup_insert_ne by discriminate. rewrite lookup_singleton_eq.
  cbn [default from_option id]. unfold decode_metadata.
  unfold decodes_back, metadata_object in Hir. rewrite Hir.
  change (dict_get [("source", cell ir.2 "tiny_link"); ("text", cell ir.2 "content")]
            "text") with (Some (cell ir.2 "content")).
  cbn [default from_option id]. unfold decoded_content.
  destruct (truthy (cell ir.2 "content")); reflexivity.
Qed.

(** Cleaning and decoding compose: when [json.loads] gives back the
    objects [json.dumps] was given, the metadata of every cleaned row
    decodes, so that no cleaned row is ever skipped for a JSON error, and
    the text it decodes to is the content of the row it was cleaned from;
    a cleaned row is skipped for a missing text exactly when that content
    is falsy (the number zero, say). *)
Theorem cleaned_rows_decode (df : DataFrame) :
  required_columns ⊆ columns df -> "source" ∉ columns df ->
  Forall (fun ir => decodes_back E (metadata_object ir.2)) (surviving df) ->
  exists out,
    clean_data_pinecone_schema E df = Ok out
    /\ Forall2 (fun ir ir' =>
                  ir'.1 = ir.1
                  /\ decode_metadata E (cell ir'.2 "metadata")
                     = Ok (decoded_content ir.2))
               (surviving df) (rows out).
Proof.
  intros Hreq Hsrc Hback. eexists.
  split; [apply clean_with_required_columns; assumption|].
  cbn [rows]. apply Forall2_fmap_r. apply Forall_Forall2_diag.
  eapply Forall_impl; [exact Hback|]. intros ir Hir.
  split; [reflexivity|]. apply cleaned_record_decodes. exact Hir.
Qed.

End reading.

Lemma clean_output_shape_witness :
  columns (mkDataFrame ["id"; "metadata"]
             (cleaned_record (demo.disk_env true) <$> surviving data_examples.exported))
  = ["id"; "metadata"]
  /\ labels (mkDataFrame ["id"; "metadata"]
               (cleaned_record (demo.disk_env true) <$> surviving data_examples.exported))
     `sublist_of` labels data_examples.exported
  /\ clean_data_pinecone_schema (demo.disk_env true)
       (mkDataFrame ["id"; "metadata"]
          (cleaned_record (demo.disk_env true) <$> surviving data_examples.exported))
     = Ok (empty_frame ["id"; "metadata"]).
Proof.
  apply (clean_output_shape (demo.disk_env true) data_examples.exported).
  reflexivity.
Defined.

Lemma cleaned_rows_decode_witness :
  let E := batch_examples.env_of true (batch_examples.always_answer []) in
  exists out,
    clean_data_pinecone_schema E data_examples.exported = Ok out
    /\ Forall2 (fun ir ir' =>
                  ir'.1 = ir.1
                  /\ decode_metadata E (cell ir'.2 "metadata")
                     = Ok (decoded_content ir.2))
               (surviving data_examples.exported) (rows out).
Proof.
  apply (cleaned_rows_decode
           (batch_examples.env_of true (batch_examples.always_answer []))
           data_examples.exported).
  - intros c Hc. vm_compute. set_solver.
  - vm_compute. set_solver.
  - repeat constructor.
Defined.

(** ** Generating the embeddings: what is sent and what is kept *)

Section generate_more.
Context (E : Env).

(** *** The requests sent *)

Lemma sends_weaken {A} (n n' : nat) (m : M world A) :
  (n <= n')%nat -> sends_at_most n m -> sends_at_most n' m.
Proof. intros Hle Hm w. specialize (Hm w). lia. Qed.

Lemma sends_ret {A} (a : A) : sends_at_most 0 (ret a : M world A).
Proof. intros w. cbn. lia. Qed.

Lemma sends_bind {A B} (a b : nat) (m0 : M world A) (k : A -> M world B) :
  sends_at_most a m0 -> (forall x, sends_at_most b (k x)) ->
  sends_at_most (a + b) (bind m0 k).
Proof.
  intros H0 Hk w. specialize (H0 w). unfold exec, bind in *.
  destruct (m0 w) as [[x|e] w1]; cbn [snd] in *; [|lia].
  specialize (Hk x w1). unfold exec in Hk. lia.
Qed.

Lemma sends_try {A} (a b : nat) (m0 : M world A) (h : exn -> M world A) :
  sends_at_most a m0 -> (forall e, sends_at_most b (h e)) ->
  sends_at_most (a + b) (try_except m0 h).
Proof.
  intros H0 Hh w. specialize (H0 w). unfold exec, try_except in *.
  destruct (m0 w) as [[x|e] w1]; cbn [snd] in *; [lia|].
  specialize (Hh e w1). unfold exec in Hh. lia.
Qed.

Lemma sends_log_error (ty : string) (details : value) (api : string) :
  sends_at_most 0 (log_error E ty details api).
Proof.
  intros w. unfold exec. rewrite log_error_run. cbn zeta.
  destruct (fs_appendable E _); destruct w; cbn; lia.
Qed.

Lemma sends_sleep (seconds : Q) : sends_at_most 0 (time_sleep seconds).
Proof. intros w. cbn. lia. Qed.

Lemma sends_should_continue (ty : string) (th : Z) (win : Q) :
  sends_at_most 0 (should_continue ty th win).
Proof.
  intros w.
  destruct (should_continue_answers ty th win w) as (go & w' & Hrun & _ & Hreq & _).
  unfold exec. rewrite Hrun. cbn. lia.
Qed.

Lemma sends_create_embeddings (text : value) (m : string) :
  sends_at_most 1 (create_embeddings E text m).
Proof.
  intros w. unfold exec, create_embeddings, bind, modify, emit, raise.
  cbn [fst snd].
  destruct (py_len text) as [n|]; [|cbn; lia].
  destruct (8000 <? n)%nat.
  - destruct (py_slice 8000 text) as [text'|]; [|cbn; lia].
    unfold embeddings_request.
    destruct (embeddings_create E _ _); cbn; lia.
  - unfold embeddings_request.
    destruct (embeddings_create E _ _); cbn; lia.
Qed.

Lemma sends_request_embedding (index : Z) (text : value) (m : string)
    (p : progress) :
  sends_at_most 1 (request_embedding E index text m p).
Proof.
  unfold request_embedding.
  apply (sends_bind 0 1); [apply sends_sleep|]. intros _.
  apply (sends_bind 1 0); [apply sends_create_embeddings|]. intros response.
  apply (sends_bind 0 0); [|intros _; apply sends_ret].
  intros w. cbn. lia.
Qed.

Lemma sends_on_embedding_error (n : nat) (index retries : Z) (p : progress)
    (retry : Z -> M world (row_exit * progress)) (e : exn) :
  (forall r, sends_at_most n (retry r)) ->
  sends_at_most n (on_embedding_error E index retries p retry e).
Proof.
  intros Hretry.
  assert (Hfail : sends_at_most n
            (ret (NextRow, one_more_failed p) : M world (row_exit * progress))).
  { apply (sends_weaken 0); [lia|apply sends_ret]. }
  assert (Hsleep : forall seconds r,
            sends_at_most n (time_sleep seconds ;;; retry r)).
  { intros seconds r. apply (sends_bind 0 n); [apply sends_sleep|].
    intros _. apply Hretry. }
  unfold on_embedding_error.
  destruct e as [| |status| | | | | |];
    try (apply (sends_bind 0 n); [apply sends_log_error|intros _; exact Hfail]).
  - apply (sends_bind 0 n); [apply sends_log_error|]. intros _.
    destruct (_ >? _)%Z; [exact Hfail|apply Hsleep].
  - apply (sends_bind 0 n); [apply sends_log_error|]. intros _.
    destruct (_ <? _)%Z; [apply Hsleep|exact Hfail].
  - destruct (bool_decide _).
    + destruct (_ >? _)%Z; [exact Hfail|apply Hsleep].
    + apply (sends_bind 0 n); [apply sends_log_error|intros _; exact Hfail].
Qed.

Lemma sends_embed_row (turns : nat) (index : Z) (text : value) (m : string)
    (retries : Z) (p : progress) :
  sends_at_most turns (embed_row E turns index text m retries p).
Proof.
  revert retries. induction turns as [|turns IH]; intros retries.
  - apply sends_ret.
  - cbn [embed_row].
    destruct (negb _); [apply (sends_weaken 0); [lia|apply sends_ret]|].
    apply (sends_bind 0 (S turns)); [apply sends_should_continue|]. intros go.
    apply (sends_bind 0 (S turns)); [intros w; cbn; lia|]. intros _.
    destruct go; cbn [negb]; [|apply (sends_weaken 0); [lia|apply sends_ret]].
    apply (sends_try 1 turns); [apply sends_request_embedding|].
    intros e. apply sends_on_embedding_error. intros r. apply IH.
Qed.

Lemma sends_of_outcome {A B} (n : nat) (o : outcome A) (k : A -> M world B) :
  (forall a, o = Ok a -> sends_at_most n (k a)) ->
  sends_at_most n (bind (of_outcome o) k).
Proof.
  intros Hk w. destruct o as [a|e].
  - exact (Hk a eq_refl w).
  - cbn. lia.
Qed.

Lemma sends_embed_rows (its : list (Z * row)) (m : string) (p : progress) :
  sends_at_most
    (4 * length (List.filter (fun ir => embeddable E ir.2) its))
    (embed_rows E its m p).
Proof.
  revert p. induction its as [|[index r] its IH]; intros p.
  - apply sends_ret.
  - cbn [embed_rows List.filter snd]. unfold embeddable at 1.
    set (n := (4 * length (List.filter (fun ir => embeddable E ir.2) its))%nat) in *.
    apply sends_of_outcome. intros d ->.
    destruct d as [| |text]; fold n.
    + apply (sends_bind 0 n); [apply sends_log_error|intros _; apply IH].
    + apply (sends_bind 0 n); [apply sends_log_error|intros _; apply IH].
    + cbn [length]. replace (4 * S (length _))%nat with (4 + n)%nat by (unfold n; lia).
      apply (sends_bind 4 n).
      * apply (sends_embed_row 4).
      * intros [[] p']; [apply IH|].
        apply (sends_weaken 0); [lia|apply sends_ret].
Qed.

Lemma embeddable_after_values (r : row) (v : value) :
  embeddable E (<["values" := v]> r) = embeddable E r.
Proof.
  unfold embeddable. rewrite cell_after_values by discriminate. reflexivity.
Qed.

(** [generate_embeddings_and_add_to_df] sends at most four requests for a
    row, the first attempt and three retries, and none for a row whose
    metadata does not lead to a text: whatever the service answers and
    however the call ends, the number of requests it has sent is at most
    four times the number of rows that have a text. *)
Theorem generate_sends_at_most (df : DataFrame) (model_emb : string)
    (w : world) :
  let sent := (embedding_requests
                 (exec (generate_embeddings_and_add_to_df E df model_emb) w)
               - embedding_requests w)%nat in
  (embedding_requests w
   <= embedding_requests (exec (generate_embeddings_and_add_to_df E df model_emb) w))%nat
  /\ (sent <= 4 * length (List.filter (fun ir => embeddable E ir.2) (rows df)))%nat.
Proof.
  cbn zeta.
  set (n := (4 * length (List.filter (fun ir => embeddable E ir.2) (rows df)))%nat).
  assert (Hlen : length (List.filter (fun ir => embeddable E ir.2)
                           (rows (set_column "values" (fun _ _ => VNone) df)))
                 = length (List.filter (fun ir => embeddable E ir.2) (rows df))).
  { cbn [rows set_column]. rewrite filter_fmap_comm, length_fmap. f_equal.
    apply filter_ext_Forall. apply Forall_forall. intros ir _. cbn.
    apply embeddable_after_values. }
  assert (H : sends_at_most n (generate_embeddings_and_add_to_df E df model_emb)).
  { unfold generate_embeddings_and_add_to_df.
    destruct (df_empty df); [apply (sends_weaken 0); [lia|apply sends_ret]|].
    destruct (negb _); [apply (sends_weaken 0); [lia|apply sends_ret]|].
    replace n with (n + 0)%nat by lia.
    apply sends_bind.
    - unfold n. rewrite <- Hlen. apply sends_embed_rows.
    - intros [[] p]; [|apply sends_ret].
      apply (sends_bind 0 0); [|intros _; apply sends_ret].
      intros w0. cbn. lia. }
  specialize (H w). lia.
Qed.

(** *** The records kept *)

Lemma same_record_refl (ir : Z * row) : same_record ir ir.
Proof. split; auto. Qed.

Lemma same_record_cell (ir ir' : Z * row) (c : string) (v : value) :
  c = "values" \/ c = "embedding_status" ->
  same_record ir ir' -> same_record ir (ir'.1, <[c := v]> ir'.2).
Proof.
  intros Hc [Hl Hcells]. split; [exact Hl|]. intros c' H1 H2. cbn.
  rewrite lookup_insert_ne by (destruct Hc; congruence). apply Hcells; auto.
Qed.

Lemma at_set_same_records (rows0 : list (Z * row)) (i : Z) (v : value)
    (f : DataFrame) :
  Forall2 same_record rows0 (rows f) ->
  Forall2 same_record rows0 (rows (at_set i "values" v f)).
Proof.
  intros H. unfold at_set; cbn [rows]. apply Forall2_fmap_r.
  eapply Forall2_impl; [exact H|]. intros ir ir' Hsame. cbn.
  destruct (ir'.1 =? i)%Z; [|exact Hsame].
  apply same_record_cell; auto.
Qed.

Lemma set_column_same_records (rows0 : list (Z * row)) (c : string)
    (g : Z -> row -> value) (f : DataFrame) :
  c = "values" \/ c = "embedding_status" ->
  Forall2 same_record rows0 (rows f) ->
  Forall2 same_record rows0 (rows (set_column c g f)).
Proof.
  intros Hc H. unfold set_column; cbn [rows]. apply Forall2_fmap_r.
  eapply Forall2_impl; [exact H|]. intros ir ir' Hsame. cbn.
  apply same_record_cell; auto.
Qed.

Lemma generate_same_records (df : DataFrame) (model_emb : string)
    (w : world) (out : DataFrame) :
  df_empty df = false -> has_column "metadata" df = true ->
  result (generate_embeddings_and_add_to_df E df model_emb) w = Ok out ->
  Forall2 same_record (rows df) (rows out).
Proof.
  intros Hempty Hmeta.
  unfold generate_embeddings_and_add_to_df. rewrite Hempty, Hmeta.
  cbn [negb]. unfold result, bind.
  set (df1 := set_column "values" (fun _ _ => VNone) df).
  assert (H1 : Forall2 same_record (rows df) (rows df1)).
  { apply set_column_same_records; [auto|].
    apply Forall_Forall2_diag, Forall_forall. intros ir _.
    apply same_record_refl. }
  destruct (embed_rows E (rows df1) model_emb (mkProgress df1 0 0) w)
    as [[[x p]|e] w1] eqn:Hrun; [|discriminate].
  assert (Hp : Forall2 same_record (rows df) (rows (frame p))).
  { apply (embed_rows_keeps E
             (fun f => Forall2 same_record (rows df) (rows f))
             (fun _ => True)
             (fun i v f _ Hf => at_set_same_records (rows df) i v f Hf)
             (rows df1) model_emb (mkProgress df1 0 0))
      with (w := w) (x := x) (w' := w1).
    - apply Forall_forall. auto.
    - exact H1.
    - exact Hrun. }
  destruct x; cbn [fst]; intros [= <-];
    apply set_column_same_records; auto.
Qed.

(** On a frame that has rows and a [metadata] column, whenever
    [generate_embeddings_and_add_to_df] returns (at the end of the rows or
    early, when the circuit opens), the frame it returns has the rows it
    was given, one for one, in their order and under their labels, and
    every cell of a row but [values] and [embedding_status] is the cell it
    was given: no record is dropped, reordered or rewritten.  On a frame
    without rows or without that column it returns an empty frame at once,
    and nothing else happens. *)
Theorem generate_keeps_records (df : DataFrame) (model_emb : string)
    (w : world) :
  (df_empty df = false -> has_column "metadata" df = true ->
   forall out,
     result (generate_embeddings_and_add_to_df E df model_emb) w = Ok out ->
     Forall2 same_record (rows df) (rows out))
  /\ (df_empty df = true \/ has_column "metadata" df = false ->
      generate_embeddings_and_add_to_df E df model_emb w
      = (Ok (empty_frame ["id"; "metadata"; "values"]), w)).
Proof.
  split.
  - intros Hempty Hmeta out. apply generate_same_records; assumption.
  - intros [Hempty|Hmeta]; unfold generate_embeddings_and_add_to_df.
    + rewrite Hempty. reflexivity.
    + destruct (df_empty df); [reflexivity|]. rewrite Hmeta. reflexivity.
Qed.

(** *** The back-off of a row *)

Lemma log_error_logged (ty : string) (details : value) (w : world) :
  logs_writable E ->
  exists entry w1,
    log_error E ty details "openai" w = (Ok entry, w1)
    /\ trace w1 = trace w
    /\ embedding_requests w1 = embedding_requests w
    /\ error_count w1 ty = Some (default 0 (error_count w ty) + 1)%Z
    /\ forall ty', ty' <> ty -> error_count w1 ty' = error_count w ty'.
Proof.
  intros Hdisk. rewrite log_error_run. cbn zeta. rewrite Hdisk.
  eexists _, _. split; [reflexivity|].
  destruct w as [[ld ec lt sc] ck fs er cr tr]. unfold error_count. cbn.
  repeat split.
  - apply lookup_insert_eq.
  - intros ty' Hne. apply lookup_insert_ne. congruence.
Qed.

(** One attempt that the endpoint fails: the state in which the handler of
    the exception starts. *)
Lemma embed_row_attempt_failed (turns : nat) (index : Z) (s : string)
    (m : string) (retries : Z) (p : progress) (w : world) (e : exn) :
  always_fails E e -> circuit_closed w -> (retries <= max_retries)%Z ->
  exists w1,
    embed_row E (S turns) index (VStr s) m retries p w
    = on_embedding_error E index retries p
        (fun r => embed_row E turns index (VStr s) m r p) e w1
    /\ trace w1 = trace w ++ attempt (VStr s)
    /\ embedding_requests w1 = S (embedding_requests w)
    /\ error_tracker w1 = error_tracker w.
Proof.
  intros Hfail Hclosed Hle. cbn [embed_row].
  destruct (retries <=? max_retries)%Z eqn:Hc; [|apply Z.leb_gt in Hc; lia].
  cbn [negb]. unfold bind at 1. rewrite (should_continue_closed w Hclosed).
  unfold bind at 1, modify. cbn [negb]. unfold try_except.
  rewrite request_embedding_run, create_embeddings_run, Hfail.
  eexists. split; [reflexivity|]. cbn.
  rewrite <- !app_assoc. auto.
Qed.

Lemma circuit_closed_count (w : world) :
  (default 0 (error_count w "rate_limit") < 5)%Z -> circuit_closed w.
Proof.
  unfold circuit_closed. destruct (error_count w "rate_limit"); cbn; auto.
Qed.

(** One attempt refused for rate limiting. *)
Lemma embed_row_rate_limited (turns : nat) (index : Z) (s : string)
    (m : string) (retries : Z) (p : progress) (w : world) :
  logs_writable E -> always_fails E RateLimitError ->
  circuit_closed w -> (retries <= max_retries)%Z ->
  exists w1,
    embed_row E (S turns) index (VStr s) m retries p w
    = (if (retries + 1 >? max_retries)%Z
       then (Ok (NextRow, one_more_failed p), w1)
       else embed_row E turns index (VStr s) m (retries + 1) p
              (exec (time_sleep (inject_Z (2 ^ retries * 5))) w1))
    /\ trace w1 = trace w ++ attempt (VStr s)
    /\ embedding_requests w1 = S (embedding_requests w)
    /\ error_count w1 "rate_limit"
       = Some (default 0 (error_count w "rate_limit") + 1)%Z.
Proof.
  intros Hdisk Hfail Hclosed Hle.
  destruct (embed_row_attempt_failed turns index s m retries p w _ Hfail Hclosed Hle)
    as (w0 & Hrun & Htr & Hreq & Htk).
  destruct (log_error_logged "rate_limit"
              (error_details index ("retry", VInt retries) RateLimitError) w0 Hdisk)
    as (entry & w1 & Hlog & Htr1 & Hreq1 & Hcount & _).
  exists w1. rewrite Hrun. unfold on_embedding_error, bind at 1. rewrite Hlog.
  split.
  - destruct (retries + 1 >? max_retries)%Z; reflexivity.
  - rewrite Htr1, Hreq1, Hcount. unfold error_count. rewrite Htk. auto.
Qed.

(** One attempt that fails for the connection. *)
Lemma embed_row_connection_failed (turns : nat) (index : Z) (s : string)
    (m : string) (retries : Z) (p : progress) (w : world) :
  logs_writable E -> always_fails E APIConnectionError ->
  circuit_closed w -> (retries <= max_retries)%Z ->
  exists w1,
    embed_row E (S turns) index (VStr s) m retries p w
    = (if (retries <? max_retries)%Z
       then embed_row E turns index (VStr s) m (retries + 1) p
              (exec (time_sleep (inject_Z (5 * retries))) w1)
       else (Ok (NextRow, one_more_failed p), w1))
    /\ trace w1 = trace w ++ attempt (VStr s)
    /\ embedding_requests w1 = S (embedding_requests w)
    /\ error_count w1 "rate_limit" = error_count w "rate_limit"
    /\ error_count w1 "api_connection"
       = Some (default 0 (error_count w "api_connection") + 1)%Z.
Proof.
  intros Hdisk Hfail Hclosed Hle.
  destruct (embed_row_attempt_failed turns index s m retries p w _ Hfail Hclosed Hle)
    as (w0 & Hrun & Htr & Hreq & Htk).
  destruct (log_error_logged "api_connection"
              (error_details index ("retry", VInt retries) APIConnectionError) w0 Hdisk)
    as (entry & w1 & Hlog & Htr1 & Hreq1 & Hcount & Hother).
  exists w1. rewrite Hrun. unfold on_embedding_error, bind at 1. rewrite Hlog.
  split.
  - destruct (retries <? max_retries)%Z; reflexivity.
  - rewrite Htr1, Hreq1, Hcount, (Hother "rate_limit") by discriminate.
    unfold error_count. rewrite Htk. auto.
Qed.

(** A row whose text the endpoint refuses for rate limiting at every
    attempt, in a loop entered with at most one rate-limit error counted:
    four requests are sent for it, with waits of 5, 10 and 20 seconds
    before the retries, as the comment in the code says; the row is
    counted as failed, four more rate-limit errors are counted, and the
    loop goes on with the next row. *)
Theorem embed_rows_rate_limit_schedule (index : Z) (r : row) (s : string)
    (its : list (Z * row)) (m : string) (p : progress) (w : world) :
  logs_writable E -> always_fails E RateLimitError ->
  has_text E r (VStr s) ->
  (default 0 (error_count w "rate_limit") <= 1)%Z ->
  exists w',
    embed_rows E ((index, r) :: its) m p w
    = embed_rows E its m (one_more_failed p) w'
    /\ trace w'
       = trace w ++ attempt (VStr s) ++ [EvSleep 5]
                 ++ attempt (VStr s) ++ [EvSleep 10]
                 ++ attempt (VStr s) ++ [EvSleep 20]
                 ++ attempt (VStr s)
    /\ embedding_requests w' = (embedding_requests w + 4)%nat
    /\ error_count w' "rate_limit"
       = Some (default 0 (error_count w "rate_limit") + 4)%Z.
Proof.
  intros Hdisk Hfail Htext Hcount.
  cbn [embed_rows]. unfold has_text in Htext. rewrite Htext.
  unfold bind at 1, of_outcome. unfold bind at 1.
  change (Z.to_nat (max_retries + 1)) with 4%nat.
  destruct (embed_row_rate_limited 3 index s m 0 p w Hdisk Hfail)
    as (w1 & Hrun1 & Htr1 & Hreq1 & Hc1);
    [apply circuit_closed_count; lia|unfold max_retries; lia|].
  rewrite Hrun1. change (0 + 1 >? max_retries)%Z with false. cbn iota.
  set (w1' := exec (time_sleep (inject_Z (2 ^ 0 * 5))) w1).
  assert (Hc1' : error_count w1' "rate_limit" = error_count w1 "rate_limit")
    by reflexivity.
  destruct (embed_row_rate_limited 2 index s m (0 + 1) p w1' Hdisk Hfail)
    as (w2 & Hrun2 & Htr2 & Hreq2 & Hc2);
    [apply circuit_closed_count; rewrite Hc1', Hc1; cbn; lia
    |unfold max_retries; lia|].
  rewrite Hrun2. change (0 + 1 + 1 >? max_retries)%Z with false. cbn iota.
  set (w2' := exec (time_sleep (inject_Z (2 ^ (0 + 1) * 5))) w2).
  assert (Hc2' : error_count w2' "rate_limit" = error_count w2 "rate_limit")
    by reflexivity.
  destruct (embed_row_rate_limited 1 index s m (0 + 1 + 1) p w2' Hdisk Hfail)
    as (w3 & Hrun3 & Htr3 & Hreq3 & Hc3);
    [apply circuit_closed_count; rewrite Hc2', Hc2, Hc1', Hc1; cbn; lia
    |unfold max_retries; lia|].
  rewrite Hrun3. change (0 + 1 + 1 + 1 >? max_retries)%Z with false. cbn iota.
  set (w3' := exec (time_sleep (inject_Z (2 ^ (0 + 1 + 1) * 5))) w3).
  assert (Hc3' : error_count w3' "rate_limit" = error_count w3 "rate_limit")
    by reflexivity.
  destruct (embed_row_rate_limited 0 index s m (0 + 1 + 1 + 1) p w3' Hdisk Hfail)
    as (w4 & Hrun4 & Htr4 & Hreq4 & Hc4);
    [apply circuit_closed_count; rewrite Hc3', Hc3, Hc2', Hc2, Hc1', Hc1; cbn; lia
    |unfold max_retries; lia|].
  rewrite Hrun4. change (0 + 1 + 1 + 1 + 1 >? max_retries)%Z with true. cbn iota.
  exists w4. split; [reflexivity|].
  rewrite Htr4, Hreq4, Hc4, Hc3', Hc3, Hc2', Hc2, Hc1', Hc1.
  subst w3' w2' w1'. cbn [exec time_sleep snd trace embedding_requests].
  rewrite Htr3, Hreq3. cbn [exec time_sleep snd trace embedding_requests].
  rewrite Htr2, Hreq2. cbn [exec time_sleep snd trace embedding_requests].
  rewrite Htr1, Hreq1. rewrite <- !app_assoc.
  split; [reflexivity|]. split; [lia|]. cbn [default from_option id].
  f_equal. unfold id. lia.
Qed.

(** A row whose request fails for the connection at every attempt, in a
    loop entered with the circuit closed: four requests are sent for it,
    the first retry follows at once (the wait is five seconds times the
    number of retries made, which is zero), the next two after 5 and 10
    seconds; the row is counted as failed, four errors are counted under
    [api_connection] and none under [rate_limit], and the loop goes on
    with the next row. *)
Theorem embed_rows_connection_schedule (index : Z) (r : row) (s : string)
    (its : list (Z * row)) (m : string) (p : progress) (w : world) :
  logs_writable E -> always_fails E APIConnectionError ->
  has_text E r (VStr s) -> circuit_closed w ->
  exists w',
    embed_rows E ((index, r) :: its) m p w
    = embed_rows E its m (one_more_failed p) w'
    /\ trace w'
       = trace w ++ attempt (VStr s) ++ [EvSleep 0]
                 ++ attempt (VStr s) ++ [EvSleep 5]
                 ++ attempt (VStr s) ++ [EvSleep 10]
                 ++ attempt (VStr s)
    /\ embedding_requests w' = (embedding_requests w + 4)%nat
    /\ error_count w' "rate_limit" = error_count w "rate_limit"
    /\ error_count w' "api_connection"
       = Some (default 0 (error_count w "api_connection") + 4)%Z.
Proof.
  intros Hdisk Hfail Htext Hclosed.
  cbn [embed_rows]. unfold has_text in Htext. rewrite Htext.
  unfold bind at 1, of_outcome. unfold bind at 1.
  change (Z.to_nat (max_retries + 1)) with 4%nat.
  assert (Hkeep : forall w0 q, error_count w0 "rate_limit" = error_count w "rate_limit" ->
            circuit_closed (exec (time_sleep q) w0)).
  { intros w0 q H. unfold circuit_closed in *.
    change (error_count (exec (time_sleep q) w0) "rate_limit")
      with (error_count w0 "rate_limit"). rewrite H. exact Hclosed. }
  destruct (embed_row_connection_failed 3 index s m 0 p w Hdisk Hfail Hclosed)
    as (w1 & Hrun1 & Htr1 & Hreq1 & Hr1 & Hc1); [unfold max_retries; lia|].
  rewrite Hrun1. change (0 <? max_retries)%Z with true. cbn iota.
  set (w1' := exec (time_sleep (inject_Z (5 * 0))) w1).
  destruct (embed_row_connection_failed 2 index s m (0 + 1) p w1' Hdisk Hfail)
    as (w2 & Hrun2 & Htr2 & Hreq2 & Hr2 & Hc2);
    [apply Hkeep; exact Hr1|unfold max_retries; lia|].
  rewrite Hrun2. change (0 + 1 <? max_retries)%Z with true. cbn iota.
  set (w2' := exec (time_sleep (inject_Z (5 * (0 + 1)))) w2).
  change (error_count w1' "rate_limit") with (error_count w1 "rate_limit") in Hr2.
  change (error_count w1' "api_connection") with (error_count w1 "api_connection") in Hc2.
  destruct (embed_row_connection_failed 1 index s m (0 + 1 + 1) p w2' Hdisk Hfail)
    as (w3 & Hrun3 & Htr3 & Hreq3 & Hr3 & Hc3);
    [apply Hkeep; congruence|unfold max_retries; lia|].
  rewrite Hrun3. change (0 + 1 + 1 <? max_retries)%Z with true. cbn iota.
  set (w3' := exec (time_sleep (inject_Z (5 * (0 + 1 + 1)))) w3).
  change (error_count w2' "rate_limit") with (error_count w2 "rate_limit") in Hr3.
  change (error_count w2' "api_connection") with (error_count w2 "api_connection") in Hc3.
  destruct (embed_row_connection_failed 0 index s m (0 + 1 + 1 + 1) p w3' Hdisk Hfail)
    as (w4 & Hrun4 & Htr4 & Hreq4 & Hr4 & Hc4);
    [apply Hkeep; congruence|unfold max_retries; lia|].
  rewrite Hrun4. change (0 + 1 + 1 + 1 <? max_retries)%Z with false. cbn iota.
  change (error_count w3' "rate_limit") with (error_count w3 "rate_limit") in Hr4.
  change (error_count w3' "api_connection") with (error_count w3 "api_connection") in Hc4.
  exists w4. split; [reflexivity|].
  rewrite Htr4, Hreq4, Hr4, Hr3, Hr2, Hr1, Hc4, Hc3, Hc2, Hc1.
  subst w3' w2' w1'. cbn [exec time_sleep snd trace embedding_requests].
  rewrite Htr3, Hreq3. cbn [exec time_sleep snd trace embedding_requests].
  rewrite Htr2, Hreq2. cbn [exec time_sleep snd trace embedding_requests].
  rewrite Htr1, Hreq1. rewrite <- !app_assoc.
  split; [reflexivity|]. split; [lia|]. split; [reflexivity|].
  cbn [default from_option id]. f_equal. unfold id. lia.
Qed.

End generate_more.

Lemma generate_keeps_records_witness :
  exists out,
    result (generate_embeddings_and_add_to_df
              (batch_examples.env_of true batch_examples.refuse_first)
              batch_examples.one_row_batch "text-embedding-3-small")
           (startup "./logs" 1000 ∅) = Ok out
    /\ Forall2 same_record (rows batch_examples.one_row_batch) (rows out).
Proof.
  destruct (result (generate_embeddings_and_add_to_df
                      (batch_examples.env_of true batch_examples.refuse_first)
                      batch_examples.one_row_batch "text-embedding-3-small")
                   (startup "./logs" 1000 ∅)) as [out|e] eqn:Hrun.
  - exists out. split; [reflexivity|].
    apply (proj1 (generate_keeps_records
                    (batch_examples.env_of true batch_examples.refuse_first)
                    batch_examples.one_row_batch "text-embedding-3-small"
                    (startup "./logs" 1000 ∅)) eq_refl eq_refl out Hrun).
  - vm_compute in Hrun. discriminate Hrun.
Defined.

Lemma embed_rows_rate_limit_schedule_witness :
  let E := batch_examples.env_of true demo.no_embeddings in
  let s := "How to reset a password" in
  let p := mkProgress batch_examples.one_row_batch 0 0 in
  let w := startup "./logs" 1000 ∅ in
  exists w',
    embed_rows E (rows batch_examples.one_row_batch) "text-embedding-3-small" p w
    = embed_rows E [] "text-embedding-3-small" (one_more_failed p) w'
    /\ trace w'
       = trace w ++ attempt (VStr s) ++ [EvSleep 5]
                 ++ attempt (VStr s) ++ [EvSleep 10]
                 ++ attempt (VStr s) ++ [EvSleep 20]
                 ++ attempt (VStr s)
    /\ embedding_requests w' = (embedding_requests w + 4)%nat
    /\ error_count w' "rate_limit"
       = Some (default 0 (error_count w "rate_limit") + 4)%Z.
Proof.
  cbn zeta.
  apply (embed_rows_rate_limit_schedule
           (batch_examples.env_of true demo.no_embeddings) 0
           {[ "id" := VStr "101";
              "metadata" := VStr (demo.dumps
                 (batch_examples.meta "/x/AbC" "How to reset a password")) ]}
           "How to reset a password" [] "text-embedding-3-small"
           (mkProgress batch_examples.one_row_batch 0 0)
           (startup "./logs" 1000 ∅)).
  - intros path. reflexivity.
  - intros n t. reflexivity.
  - vm_compute. reflexivity.
  - vm_compute. discriminate.
Defined.

Lemma embed_rows_connection_schedule_witness :
  let E := batch_examples.env_of true (fun _ _ => Failure APIConnectionError) in
  let s := "How to reset a password" in
  let p := mkProgress batch_examples.one_row_batch 0 0 in
  let w := startup "./logs" 1000 ∅ in
  exists w',
    embed_rows E (rows batch_examples.one_row_batch) "text-embedding-3-small" p w
    = embed_rows E [] "text-embedding-3-small" (one_more_failed p) w'
    /\ trace w'
       = trace w ++ attempt (VStr s) ++ [EvSleep 0]
                 ++ attempt (VStr s) ++ [EvSleep 5]
                 ++ attempt (VStr s) ++ [EvSleep 10]
                 ++ attempt (VStr s)
    /\ embedding_requests w' = (embedding_requests w + 4)%nat
    /\ error_count w' "rate_limit" = error_count w "rate_limit"
    /\ error_count w' "api_connection"
       = Some (default 0 (error_count w "api_connection") + 4)%Z.
Proof.
  cbn zeta.
  apply (embed_rows_connection_schedule
           (batch_examples.env_of true (fun _ _ => Failure APIConnectionError)) 0
           {[ "id" := VStr "101";
              "metadata" := VStr (demo.dumps
                 (batch_examples.meta "/x/AbC" "How to reset a password")) ]}
           "How to reset a password" [] "text-embedding-3-small"
           (mkProgress batch_examples.one_row_batch 0 0)
           (startup "./logs" 1000 ∅)).
  - intros path. reflexivity.
  - intros n t. reflexivity.
  - vm_compute. reflexivity.
  - exact I.
Defined.
(** ** The refresh: batches, pauses, and a refresh without data *)

Section batches.

Lemma ceil_div_covers (n step : nat) :
  (0 < step)%nat -> (n <= (n + step - 1) / step * step)%nat.
Proof.
  intros Hstep.
  pose proof (Nat.div_mod_eq (n + step - 1) step) as Hdm.
  pose proof (Nat.mod_upper_bound (n + step - 1) step ltac:(lia)) as Hmod.
  nia.
Qed.

Lemma ceil_div_tight (n step k : nat) :
  (0 < step)%nat -> (k < (n + step - 1) / step)%nat -> (k * step < n)%nat.
Proof.
  intros Hstep Hk.
  pose proof (Nat.div_mod_eq (n + step - 1) step) as Hdm.
  pose proof (Nat.mod_upper_bound (n + step - 1) step ltac:(lia)) as Hmod.
  nia.
Qed.

(** Cutting a list into consecutive slices of [step] elements and
    putting the slices back together gives the list. *)
Lemma slices_cover {A} (step c : nat) :
  forall l : list A,
    (length l <= c * step)%nat ->
    seq 0 c ≫= (fun k => take step (drop (k * step) l)) = l.
Proof.
  induction c as [|c IH]; intros l Hlen.
  - destruct l; [reflexivity|cbn in Hlen; lia].
  - change (seq 0 (S c)) with (0%nat :: seq 1 c).
    rewrite bind_cons. cbn [Nat.mul drop].
    rewrite <- seq_shift, list_fmap_bind.
    change (drop 0 l) with l.
    transitivity (take step l ++ drop step l); [|apply take_drop].
    f_equal.
    rewrite <- (IH (drop step l)) by (rewrite length_drop; cbn in Hlen; lia).
    apply list_bind_ext; [|reflexivity]. intros k. cbn.
    rewrite drop_drop. reflexivity.
Qed.

Lemma batches_cover (df : DataFrame) :
  py_range (length (rows df)) batch_size ≫= batch_rows df = rows df.
Proof.
  unfold py_range, batch_rows, iloc. cbn [rows].
  rewrite list_fmap_bind.
  transitivity (seq 0 ((length (rows df) + batch_size - 1) / batch_size)
                  ≫= (fun k => take batch_size (drop (k * batch_size) (rows df)))).
  - apply list_bind_ext; [|reflexivity]. intros k. cbn.
    replace (k * batch_size + batch_size - k * batch_size)%nat
      with batch_size by lia.
    reflexivity.
  - apply slices_cover. apply ceil_div_covers. unfold batch_size. lia.
Qed.

Lemma batches_start_inside (n : nat) :
  Forall (fun i => (i < n)%nat) (py_range n batch_size).
Proof.
  unfold py_range. apply Forall_fmap, Forall_forall. intros k Hk. cbn.
  apply elem_of_seq in Hk as [_ Hk]. rewrite Nat.add_0_l in Hk.
  apply ceil_div_tight; [unfold batch_size; lia|exact Hk].
Qed.

(** The batches of the refresh cut the cleaned frame without loss and
    without overlap: the rows of the batches, one batch after the other,
    are the rows of the frame, and every batch has at least one row and
    at most 25. *)
Theorem batches_partition_rows (df : DataFrame) :
  py_range (length (rows df)) batch_size ≫= batch_rows df = rows df
  /\ Forall (fun i => (0 < length (batch_rows df i) <= batch_size)%nat)
            (py_range (length (rows df)) batch_size).
Proof.
  split; [apply batches_cover|].
  eapply Forall_impl; [apply batches_start_inside|]. intros i Hi. cbn in Hi.
  unfold batch_rows, iloc. cbn [rows].
  rewrite length_take, length_drop. unfold batch_size in *. lia.
Qed.

End batches.

Section refresh_more.
Context (E : Env).

(** *** The pause between batches *)

Lemma returns_only_ret {S A} (Q : A -> Prop) (a : A) :
  Q a -> returns_only Q (ret a : M S A).
Proof. intros Ha s a' s' [= <- <-]. exact Ha. Qed.

Lemma returns_only_bind {S A B} (Q : B -> Prop) (m0 : M S A) (k : A -> M S B) :
  (forall a, returns_only Q (k a)) -> returns_only Q (bind m0 k).
Proof.
  intros Hk s b s'. unfold bind.
  destruct (m0 s) as [[a|e] s1]; [apply Hk|discriminate].
Qed.

Lemma returns_only_try {S A} (Q : A -> Prop) (m0 : M S A) (h : exn -> M S A) :
  returns_only Q m0 -> (forall e, returns_only Q (h e)) ->
  returns_only Q (try_except m0 h).
Proof.
  intros H0 Hh s a s'. unfold try_except.
  destruct (m0 s) as [[a0|e] s1] eqn:Hrun.
  - intros [= <- <-]. exact (H0 _ _ _ Hrun).
  - apply Hh.
Qed.

Lemma Qmaximum_range (pause : Q) :
  pause_in_range pause -> pause_in_range (Qmaximum 1 (pause - 0.5)).
Proof.
  intros [H1 H30]. unfold Qmaximum, pause_in_range.
  destruct (Qle_bool 1 (pause - 0.5)) eqn:Hle.
  - apply Qle_bool_iff in Hle. split; [exact Hle|]. lra.
  - split; [apply Qle_refl|]. lra.
Qed.

Lemma Qminimum_range (pause : Q) :
  pause_in_range pause -> pause_in_range (Qminimum 30 (pause * 2)).
Proof.
  intros [H1 H30]. unfold Qminimum, pause_in_range.
  destruct (Qle_bool 30 (pause * 2)) eqn:Hle.
  - split; [lra|apply Qle_refl].
  - assert (Hgt : ~ (30 <= pause * 2)%Q).
    { intros H. apply Qle_bool_iff in H. congruence. }
    split; lra.
Qed.

(** A turn of the batch loop entered with a pause between 1 and 30
    seconds leaves it with a pause in that range. *)
Lemma process_batch_pause_range (i : nat) (batch_df : DataFrame)
    (total_rows : nat) (model_emb : string) (processed_df : DataFrame)
    (pause : Q) (s s' : app_state) (x : DataFrame * Q) :
  pause_in_range pause ->
  process_batch E i batch_df total_rows model_emb processed_df pause s
    = (Ok x, s') ->
  pause_in_range x.2.
Proof.
  intros Hpause.
  apply (returns_only_try (fun x : DataFrame * Q => pause_in_range x.2)).
  - apply returns_only_bind. intros start_time.
    apply returns_only_bind. intros batch_df'.
    apply returns_only_bind. intros _.
    apply returns_only_bind. intros success_rows.
    apply returns_only_bind. intros now.
    apply returns_only_bind. intros _.
    apply returns_only_ret. cbn [snd].
    destruct (Qltb _ 1); [apply Qmaximum_range|]; exact Hpause.
  - intros e. apply returns_only_bind. intros _.
    apply returns_only_bind. intros _.
    apply returns_only_ret. cbn [snd]. apply Qminimum_range. exact Hpause.
Qed.

(** The pause between batches adapts as the code says.  After a batch
    that went through, the pause is lowered by half a second, not below
    1, when the batch took under a second, and kept otherwise; after a
    batch that failed (the embedding function raised, or returned a frame
    without the status column) it is doubled, not above 30.  The new
    pause is the time slept before the next batch, which happens after
    every failure and after every batch that went through but the last.
    So a pause between 1 and 30 seconds stays between 1 and 30 seconds;
    [main] starts with 2. *)
Theorem process_batch_adapts_pause (i : nat) (batch_df : DataFrame)
    (total_rows : nat) (model_emb : string) (processed_df : DataFrame)
    (pause : Q) (s s' : app_state) (x : DataFrame * Q) :
  process_batch E i batch_df total_rows model_emb processed_df pause s
    = (Ok x, s') ->
  let gen := generate_embeddings_and_add_to_df E batch_df model_emb s.1 in
  x.2 = (if batch_went_through gen.1
         then pause_after_batch (clock gen.2 - clock s.1) pause
         else pause_after_failure pause)
  /\ (batch_went_through gen.1 = false \/ (i + batch_size < total_rows)%nat ->
      exists tr, trace s'.1 = tr ++ [EvSleep x.2])
  /\ (batch_went_through gen.1 = true -> (total_rows <= i + batch_size)%nat ->
      trace s'.1 = trace gen.2)
  /\ (pause_in_range pause -> pause_in_range x.2).
Proof.
  intros Hrun. cbn zeta.
  split; [|split; [|split]];
    [| | |intros Hpause; exact (process_batch_pause_range _ _ _ _ _ _ _ _ _ Hpause Hrun)];
    revert Hrun; destruct s as [w led];
    unfold process_batch, try_except, bind, lift, time_time, record_batch, modify,
      of_outcome, ret, batch_went_through, success_rows_of,
      pause_after_batch, pause_after_failure;
    cbn [fst snd];
    (destruct (generate_embeddings_and_add_to_df E batch_df model_emb w)
       as [[b|e] w1]; cbn [fst snd];
     [destruct (has_column "embedding_status" b); cbn [fst snd];
      [destruct (i + batch_size <? total_rows)%nat eqn:Hlast;
       cbn [fst snd time_sleep]; intros [= <- <-]; cbn [fst snd trace]
      |destruct (log_error E _ _ _ w1) as [[entry|e'] w2];
       cbn [fst snd time_sleep]; [intros [= <- <-]; cbn [fst snd trace]|discriminate]]
     |destruct (log_error E _ _ _ w1) as [[entry|e'] w2];
      cbn [fst snd time_sleep]; [intros [= <- <-]; cbn [fst snd trace]|discriminate]]);
    try reflexivity;
    try (intros _; eexists; reflexivity);
    try (intros [Hf|Hlt]; [discriminate Hf|apply Nat.ltb_ge in Hlast; lia]);
    try (intros Hf; discriminate Hf);
    try (intros _ Hle; apply Nat.ltb_lt in Hlast; lia).
Qed.

(** *** A refresh without data *)

Lemma quiet_ret {A} (a : A) : quiet (ret a).
Proof. intros s. split; reflexivity. Qed.

Lemma quiet_bind {A B} (m0 : M app_state A) (k : A -> M app_state B) :
  quiet m0 -> (forall a, quiet (k a)) -> quiet (bind m0 k).
Proof.
  intros H0 Hk s. specialize (H0 s). unfold exec, bind in *.
  destruct (m0 s) as [[a|e] s1]; cbn [snd] in *; [|exact H0].
  specialize (Hk a s1). unfold exec in Hk.
  destruct H0 as [H1 H2], Hk as [H3 H4]. split; congruence.
Qed.

Lemma quiet_try {A} (m0 : M app_state A) (h : exn -> M app_state A) :
  quiet m0 -> (forall e, quiet (h e)) -> quiet (try_except m0 h).
Proof.
  intros H0 Hh s. specialize (H0 s). unfold exec, try_except in *.
  destruct (m0 s) as [[a|e] s1]; cbn [snd] in *; [exact H0|].
  specialize (Hh e s1). unfold exec in Hh.
  destruct H0 as [H1 H2], Hh as [H3 H4]. split; congruence.
Qed.

Lemma quiet_log_error (ty : string) (details : value) :
  quiet (lift (log_error E ty details "openai")).
Proof.
  intros [w led]. unfold exec, lift. cbn [fst snd].
  pose proof (sends_log_error E ty details "openai" w) as Hs.
  unfold exec in Hs.
  destruct (log_error E ty details "openai" w) as [o w1]. cbn in *.
  split; [reflexivity|lia].
Qed.

Lemma refresh_body_without_rows :
  surviving (import_csv E (mkDataFrame ["id"; "tiny_link"; "content"] [])
               csv_file 2000) = [] ->
  refresh_body E
  = ((if df_empty (import_csv E (mkDataFrame ["id"; "tiny_link"; "content"] [])
                     csv_file 2000)
      then lift (log_error E "empty_data"
                   (VStr ("Warning: No data found in " +:+ csv_file)) "openai") ;;;
           ret tt
      else ret tt) ;;;
     lift (log_error E "no_embeddings"
             (VStr "Warning: No data was successfully processed for embedding. Using existing index data if available.")
             "openai") ;;;
     ret tt).
Proof.
  intros Hsurv. unfold refresh_body.
  set (df := import_csv E _ csv_file 2000) in *.
  assert (Hcols : columns df = ["id"; "tiny_link"; "content"])
    by (apply import_csv_columns; reflexivity).
  rewrite (clean_with_required_columns E df);
    [|rewrite Hcols; reflexivity|rewrite Hcols; set_solver].
  rewrite Hsurv. reflexivity.
Qed.

(** When the export is missing, cannot be read, or has no row with a
    content, the refresh sends no request for an embedding, embeds no
    batch and hands nothing to the index, whatever the state of the disk;
    and when the error log can be written, it logs one [no_embeddings]
    error. *)
Theorem refresh_without_rows (s : app_state) :
  surviving (import_csv E (mkDataFrame ["id"; "tiny_link"; "content"] [])
               csv_file 2000) = [] ->
  let s' := exec (ingestion_refresh E) s in
  upserts s'.2 = upserts s.2
  /\ embedded_batches s'.2 = embedded_batches s.2
  /\ embedding_requests s'.1 = embedding_requests s.1
  /\ (logs_writable E ->
      error_count s'.1 "no_embeddings"
      = Some (default 0 (error_count s.1 "no_embeddings") + 1)%Z).
Proof.
  intros Hsurv. cbn zeta.
  assert (Hlog : forall ty details,
            quiet (lift (log_error E ty details "openai") ;;; ret tt)).
  { intros ty details. apply quiet_bind; [apply quiet_log_error|].
    intros _. apply quiet_ret. }
  assert (Hquiet : quiet (ingestion_refresh E)).
  { unfold ingestion_refresh. apply quiet_try; [|intros e; apply quiet_ret].
    apply quiet_try; [|intros e; apply Hlog].
    rewrite (refresh_body_without_rows Hsurv).
    apply quiet_bind; [|intros _; apply Hlog].
    destruct (df_empty _); [apply Hlog|apply quiet_ret]. }
  destruct (Hquiet s) as [Hled Hreq]. rewrite Hled.
  split; [reflexivity|]. split; [reflexivity|]. split; [exact Hreq|].
  intros Hdisk. unfold ingestion_refresh, exec, try_except.
  rewrite (refresh_body_without_rows Hsurv).
  destruct s as [w led]. unfold bind at 1.
  assert (H0 : exists w1,
            (if df_empty (import_csv E (mkDataFrame ["id"; "tiny_link"; "content"] [])
                            csv_file 2000)
             then lift (log_error E "empty_data"
                          (VStr ("Warning: No data found in " +:+ csv_file)) "openai") ;;;
                  ret tt
             else ret tt) (w, led) = (Ok tt, (w1, led))
            /\ error_count w1 "no_embeddings" = error_count w "no_embeddings").
  { destruct (df_empty _).
    - destruct (log_error_logged E "empty_data"
                  (VStr ("Warning: No data found in " +:+ csv_file)) w Hdisk)
        as (entry & w1 & Hrun & _ & _ & _ & Hother).
      exists w1. unfold bind, lift. cbn [fst snd]. rewrite Hrun.
      split; [reflexivity|]. apply Hother. discriminate.
    - exists w. split; reflexivity. }
  destruct H0 as (w1 & Hrun0 & Hsame). rewrite Hrun0.
  destruct (log_error_logged E "no_embeddings"
              (VStr "Warning: No data was successfully processed for embedding. Using existing index data if available.")
              w1 Hdisk)
    as (entry & w2 & Hrun & _ & _ & Hcount & _).
  unfold bind, lift. cbn [fst snd]. rewrite Hrun. unfold ret. cbn [fst snd].
  rewrite Hcount, Hsame. reflexivity.
Qed.

End refresh_more.

Lemma process_batch_adapts_pause_witness :
  exists x s',
    process_batch refresh_examples.answered 0
      (iloc 0 25 (mkDataFrame ["id"; "metadata"]
                    [batch_examples.cleaned 0 "101" "/x/AbC" "How to reset a password"]))
      1 "text-embedding-3-small" (empty_frame ["id"; "metadata"; "values"]) 2
      refresh_examples.start
    = (Ok x, s')
    /\ (x.2 == 1.5)%Q
    /\ pause_in_range x.2.
Proof.
  destruct (process_batch refresh_examples.answered 0
      (iloc 0 25 (mkDataFrame ["id"; "metadata"]
                    [batch_examples.cleaned 0 "101" "/x/AbC" "How to reset a password"]))
      1 "text-embedding-3-small" (empty_frame ["id"; "metadata"; "values"]) 2
      refresh_examples.start) as [[x|e] s'] eqn:Hrun.
  - exists x, s'. split; [reflexivity|].
    destruct (process_batch_adapts_pause _ _ _ _ _ _ 2 _ _ _ Hrun)
      as (Hrule & _ & _ & Hrange).
    split; [|apply Hrange; split; discriminate].
    rewrite Hrule. vm_compute. reflexivity.
  - vm_compute in Hrun. discriminate Hrun.
Defined.

Lemma refresh_without_rows_witness :
  let E := demo.disk_env true in
  let s := refresh_examples.start in
  let s' := exec (ingestion_refresh E) s in
  upserts s'.2 = upserts s.2
  /\ embedded_batches s'.2 = embedded_batches s.2
  /\ embedding_requests s'.1 = embedding_requests s.1
  /\ (logs_writable E ->
      error_count s'.1 "no_embeddings"
      = Some (default 0 (error_count s.1 "no_embeddings") + 1)%Z).
Proof.
  cbn zeta.
  apply (refresh_without_rows (demo.disk_env true) refresh_examples.start).
  reflexivity.
Defined.
(** ** The count of rate-limit errors never passes five *)

Section circuit.
Context (E : Env).

Lemma preserves_ret {A} (I : world -> Prop) (a : A) : preserves I (ret a).
Proof. intros w Hw. exact Hw. Qed.

Lemma preserves_bind {A B} (I : world -> Prop) (m0 : M world A)
    (k : A -> M world B) :
  preserves I m0 -> (forall a, preserves I (k a)) -> preserves I (bind m0 k).
Proof.
  intros H0 Hk w Hw. specialize (H0 w Hw). unfold exec, bind in *.
  destruct (m0 w) as [[a|e] w1]; cbn [snd] in *; [|exact H0].
  apply Hk. exact H0.
Qed.

Lemma preserves_same_counts {A} (m : M world A) :
  (forall w, error_counts (error_tracker (exec m w))
             = error_counts (error_tracker w)) ->
  preserves within_threshold m.
Proof.
  intros Hsame w Hw. unfold within_threshold, rate_limit_count, error_count in *.
  rewrite Hsame. exact Hw.
Qed.

Lemma within_sleep (seconds : Q) : preserves within_threshold (time_sleep seconds).
Proof. apply preserves_same_counts. reflexivity. Qed.

Lemma within_emit (e : event) : preserves within_threshold (modify (emit e)).
Proof. apply preserves_same_counts. reflexivity. Qed.

Lemma within_log_success (op : string) :
  preserves within_threshold (log_success op).
Proof.
  apply preserves_same_counts. intros w.
  destruct w as [[ld ec lt sc] ck fs er cr tr]. reflexivity.
Qed.

Lemma within_get_error_summary :
  preserves within_threshold (get_error_summary E).
Proof. apply preserves_same_counts. reflexivity. Qed.

Lemma within_log_other (ty : string) (details : value) (api : string) :
  ty <> "rate_limit" -> preserves within_threshold (log_error E ty details api).
Proof.
  intros Hne w Hw. unfold within_threshold, rate_limit_count, error_count in *.
  destruct (log_error_tracker E ty details api w) as [Ht _]. rewrite Ht. cbn.
  rewrite lookup_insert_ne by exact Hne. exact Hw.
Qed.

(** Logging a rate-limit error when fewer than five are counted. *)
Lemma within_log_rate_limit (details : value) (api : string) (w : world) :
  (rate_limit_count w < 5)%Z ->
  within_threshold (exec (log_error E "rate_limit" details api) w).
Proof.
  intros Hw. unfold within_threshold, rate_limit_count, error_count in *.
  destruct (log_error_tracker E "rate_limit" details api w) as [Ht _].
  rewrite Ht. cbn [error_counts]. rewrite lookup_insert_eq.
  set (c := default 0%Z (error_counts (error_tracker w) !! "rate_limit")) in *.
  cbn. lia.
Qed.

(** The consultation of the embedding loop: when it says go, fewer than
    five rate-limit errors are counted. *)
Lemma consult_threshold_five (w : world) :
  within_threshold w ->
  exists go w',
    should_continue "rate_limit" 5 60 w = (Ok go, w')
    /\ (if go then (rate_limit_count w' < 5)%Z else within_threshold w').
Proof.
  intros Hw. rewrite should_continue_run.
  unfold within_threshold, rate_limit_count in *.
  destruct (error_count w "rate_limit") as [c|] eqn:Hc.
  - destruct (c <? 5)%Z eqn:Hlt.
    + exists true, w. split; [reflexivity|]. rewrite Hc. cbn. lia.
    + destruct (Qltb 60 _); eexists _, _; (split; [reflexivity|]);
        destruct w as [[ld ec lt sc] ck fs er cr tr];
        unfold error_count in *; cbn in *.
      * rewrite lookup_insert_eq. cbn. lia.
      * rewrite Hc. exact Hw.
  - exists true, w. split; [reflexivity|]. rewrite Hc. cbn. lia.
Qed.

Lemma create_embeddings_counts (text : value) (m : string) (w : world) :
  error_tracker (exec (create_embeddings E text m) w) = error_tracker w.
Proof.
  unfold exec, create_embeddings, bind, modify, emit, raise. cbn [fst snd].
  destruct (py_len text) as [n|]; [|reflexivity].
  destruct (8000 <? n)%nat.
  - destruct (py_slice 8000 text) as [text'|]; [|reflexivity].
    unfold embeddings_request. destruct (embeddings_create E _ _); reflexivity.
  - unfold embeddings_request. destruct (embeddings_create E _ _); reflexivity.
Qed.

Lemma request_embedding_counts (index : Z) (text : value) (m : string)
    (p : progress) (w : world) :
  rate_limit_count (exec (request_embedding E index text m p) w)
  = rate_limit_count w.
Proof.
  unfold exec. rewrite request_embedding_run.
  pose proof (create_embeddings_counts text m (exec (time_sleep 0.1) w)) as Hc.
  unfold exec in Hc.
  destruct (create_embeddings E text m _) as [[response|e] w4]; cbn [snd] in *.
  - unfold rate_limit_count, error_count.
    apply (f_equal error_counts) in Hc.
    destruct w4 as [[ld ec lt sc] ck fs er cr tr]. cbn in *.
    rewrite Hc. reflexivity.
  - unfold rate_limit_count, error_count. rewrite Hc. reflexivity.
Qed.

(** The handlers of a failed attempt, entered with fewer than five errors
    counted. *)
Lemma within_on_embedding_error (index retries : Z) (p : progress)
    (retry : Z -> M world (row_exit * progress)) (e : exn) (w : world) :
  (forall r, preserves within_threshold (retry r)) ->
  (rate_limit_count w < 5)%Z ->
  within_threshold (exec (on_embedding_error E index retries p retry e) w).
Proof.
  intros Hretry Hw.
  assert (Hin : within_threshold w) by (unfold within_threshold; lia).
  assert (Hsleep : forall seconds r,
            preserves within_threshold (time_sleep seconds ;;; retry r)).
  { intros seconds r. apply preserves_bind; [apply within_sleep|].
    intros _. apply Hretry. }
  assert (Hother : forall ty details (k : M world (row_exit * progress)),
            ty <> "rate_limit" -> preserves within_threshold k ->
            within_threshold (exec (log_error E ty details "openai" ;;; k) w)).
  { intros ty details k Hne Hk.
    apply (preserves_bind within_threshold); auto using within_log_other. }
  unfold on_embedding_error.
  destruct e as [| |status| | | | | |];
    try (apply Hother; [discriminate|apply preserves_ret]).
  - unfold exec, bind at 1.
    pose proof (within_log_rate_limit
                  (error_details index ("retry", VInt retries) RateLimitError)
                  "openai" w Hw) as Hlog.
    unfold exec in Hlog.
    destruct (log_error E "rate_limit" _ "openai" w) as [[entry|e] w1];
      cbn [snd] in *; [|exact Hlog].
    destruct (_ >? _)%Z; [exact Hlog|]. apply Hsleep. exact Hlog.
  - apply Hother; [discriminate|].
    destruct (_ <? _)%Z; [apply Hsleep|apply preserves_ret].
  - destruct (bool_decide _).
    + destruct (_ >? _)%Z; [exact Hin|]. apply Hsleep. exact Hin.
    + apply Hother; [discriminate|apply preserves_ret].
Qed.

Lemma within_embed_row (turns : nat) (index : Z) (text : value) (m : string)
    (retries : Z) (p : progress) :
  preserves within_threshold (embed_row E turns index text m retries p).
Proof.
  revert retries. induction turns as [|turns IH]; intros retries.
  - apply preserves_ret.
  - cbn [embed_row]. destruct (negb _); [apply preserves_ret|].
    intros w Hw.
    destruct (consult_threshold_five w Hw) as (go & w1 & Hrun & Hgo).
    unfold exec, bind at 1. rewrite Hrun. unfold bind at 1, modify.
    destruct go; cbn [negb]; [|exact Hgo].
    unfold try_except.
    set (w2 := emit (EvShouldContinue "rate_limit" true) w1).
    assert (Hw2 : (rate_limit_count w2 < 5)%Z) by exact Hgo.
    pose proof (request_embedding_counts index text m p w2) as Hreq.
    unfold exec in Hreq.
    destruct (request_embedding E index text m p w2) as [[x|e] w3];
      cbn [snd] in *.
    + unfold within_threshold. lia.
    + apply within_on_embedding_error; [intros r; apply IH|lia].
Qed.

Lemma within_embed_rows (its : list (Z * row)) (m : string) (p : progress) :
  preserves within_threshold (embed_rows E its m p).
Proof.
  revert p. induction its as [|[index r] its IH]; intros p.
  - apply preserves_ret.
  - cbn [embed_rows]. apply preserves_bind; [intros w Hw; exact Hw|].
    intros [| |text].
    + apply preserves_bind; [apply within_log_other; discriminate|].
      intros _. apply IH.
    + apply preserves_bind; [apply within_log_other; discriminate|].
      intros _. apply IH.
    + apply preserves_bind; [apply within_embed_row|].
      intros [[] p']; [apply IH|apply preserves_ret].
Qed.

Lemma within_generate (df : DataFrame) (m : string) :
  preserves within_threshold (generate_embeddings_and_add_to_df E df m).
Proof.
  unfold generate_embeddings_and_add_to_df.
  destruct (df_empty df); [apply preserves_ret|].
  destruct (negb _); [apply preserves_ret|].
  apply preserves_bind; [apply within_embed_rows|].
  intros [[] p]; [|apply preserves_ret].
  apply preserves_bind; [apply within_get_error_summary|].
  intros _. apply preserves_ret.
Qed.

(** *** In the application *)

Lemma app_ret {A} (I : world -> Prop) (a : A) : preserves_app I (ret a).
Proof. intros s Hs. exact Hs. Qed.

Lemma app_bind {A B} (I : world -> Prop) (m0 : M app_state A)
    (k : A -> M app_state B) :
  preserves_app I m0 -> (forall a, preserves_app I (k a)) ->
  preserves_app I (bind m0 k).
Proof.
  intros H0 Hk s Hs. specialize (H0 s Hs). unfold exec, bind in *.
  destruct (m0 s) as [[a|e] s1]; cbn [snd] in *; [|exact H0].
  apply Hk. exact H0.
Qed.

Lemma app_try {A} (I : world -> Prop) (m0 : M app_state A)
    (h : exn -> M app_state A) :
  preserves_app I m0 -> (forall e, preserves_app I (h e)) ->
  preserves_app I (try_except m0 h).
Proof.
  intros H0 Hh s Hs. specialize (H0 s Hs). unfold exec, try_except in *.
  destruct (m0 s) as [[a|e] s1]; cbn [snd] in *; [exact H0|].
  apply Hh. exact H0.
Qed.

Lemma app_lift {A} (I : world -> Prop) (m0 : M world A) :
  preserves I m0 -> preserves_app I (lift m0).
Proof.
  intros H0 [w led] Hs. specialize (H0 w Hs). unfold exec, lift in *.
  cbn [fst snd] in *. destruct (m0 w) as [o w1]. exact H0.
Qed.

Lemma app_of_outcome {A} (I : world -> Prop) (o : outcome A) :
  preserves_app I (of_outcome o).
Proof. intros s Hs. exact Hs. Qed.

Lemma app_log_other (ty : string) (details : value) :
  ty <> "rate_limit" ->
  preserves_app within_threshold
    (lift (log_error E ty details "openai") ;;; ret tt).
Proof.
  intros Hne. apply app_bind; [|intros _; apply app_ret].
  apply app_lift, within_log_other. exact Hne.
Qed.

Lemma within_process_batch (i : nat) (batch_df : DataFrame) (total : nat)
    (m : string) (processed : DataFrame) (pause : Q) :
  preserves_app within_threshold
    (process_batch E i batch_df total m processed pause).
Proof.
  unfold process_batch. apply app_try.
  - apply app_bind; [apply app_lift; intros w Hw; exact Hw|]. intros start_time.
    apply app_bind; [apply app_lift, within_generate|]. intros batch_df'.
    apply app_bind; [intros s Hs; exact Hs|]. intros _.
    apply app_bind; [apply app_of_outcome|]. intros success_rows.
    apply app_bind; [apply app_lift; intros w Hw; exact Hw|]. intros now.
    apply app_bind; [|intros _; apply app_ret].
    destruct (_ <? _)%nat; [apply app_lift, within_sleep|apply app_ret].
  - intros e.
    apply app_bind; [apply app_lift, within_log_other; discriminate|]. intros _.
    apply app_bind; [apply app_lift, within_sleep|]. intros _. apply app_ret.
Qed.

(** The check of [main] at threshold 10 in a state where at most five
    rate-limit errors are counted. *)
Lemma consult_threshold_ten (w : world) :
  within_threshold w -> should_continue "rate_limit" 10 60 w = (Ok true, w).
Proof.
  intros Hw. rewrite should_continue_run.
  unfold within_threshold, rate_limit_count in Hw.
  destruct (error_count w "rate_limit") as [c|]; [|reflexivity].
  cbn in Hw. destruct (c <? 10)%Z eqn:Hlt; [reflexivity|].
  apply Z.ltb_ge in Hlt. lia.
Qed.

Lemma within_batch_loop (starts : list nat) (df : DataFrame) (total : nat)
    (m : string) :
  forall (processed : DataFrame) (pause : Q),
    preserves_app within_threshold
      (batch_loop E starts df total m processed pause).
Proof.
  induction starts as [|i starts IH]; intros processed pause.
  - apply app_ret.
  - cbn [batch_loop]. intros [w led] Hs.
    unfold exec, bind at 1, lift. cbn [fst snd] in *.
    rewrite (consult_threshold_ten w Hs). cbn [negb].
    apply (app_bind within_threshold
             (process_batch E i (iloc i (i + batch_size) df) total m processed pause)
             (fun x => batch_loop E starts df total m x.1 x.2));
      [apply within_process_batch|intros x; apply IH|exact Hs].
Qed.

Lemma within_upsert_processed (processed : DataFrame) :
  preserves_app within_threshold (upsert_processed E processed).
Proof.
  unfold upsert_processed. destruct (negb _).
  - apply app_try; [|intros e; apply app_log_other; discriminate].
    intros s Hs. unfold exec, upsert_data. destruct (upsert_ok E _); exact Hs.
  - apply app_log_other. discriminate.
Qed.

(** The tracker never counts more than five rate-limit errors: a
    rate-limit error is logged only after the embedding loop's check at
    threshold 5 let the attempt through, which it does only with a count
    below five (resetting it first if need be).  So a refresh entered
    with at most five errors counted ends with at most five counted,
    however it ends; every call of the embedding function keeps that
    bound; and in such a state the check of [main] before a batch, at
    threshold 10, says go and leaves the tracker as it is: the batch loop
    is never left through it. *)
Theorem rate_limit_count_stays_within_five (s : app_state) (df : DataFrame)
    (model_emb : string) (w : world) :
  (within_threshold s.1 -> within_threshold (exec (ingestion_refresh E) s).1)
  /\ (within_threshold w ->
      within_threshold (exec (generate_embeddings_and_add_to_df E df model_emb) w))
  /\ (within_threshold w ->
      should_continue "rate_limit" 10 60 w = (Ok true, w)).
Proof.
  split; [|split; [apply within_generate|apply consult_threshold_ten]].
  apply (app_try within_threshold); [|intros e; apply app_ret].
  apply app_try; [|intros e; apply app_log_other; discriminate].
  unfold refresh_body.
  apply app_bind.
  { destruct (df_empty _); [apply app_log_other; discriminate|apply app_ret]. }
  intros _. apply app_bind; [apply app_of_outcome|]. intros cleaned.
  apply app_bind; [apply within_batch_loop|]. intros processed.
  apply within_upsert_processed.
Qed.

End circuit.

Lemma rate_limit_count_stays_within_five_witness :
  let E := refresh_examples.quota_and_disk_full in
  let s := refresh_examples.start in
  within_threshold (exec (ingestion_refresh E) s).1
  /\ should_continue "rate_limit" 10 60 s.1 = (Ok true, s.1).
Proof.
  cbn zeta.
  pose proof (rate_limit_count_stays_within_five
                refresh_examples.quota_and_disk_full refresh_examples.start
                batch25.batch "text-embedding-3-small" refresh_examples.start.1)
    as (H1 & _ & H3).
  split; [apply H1|apply H3]; vm_compute; discriminate.
Defined.
(** ** From the export to the index, when nothing fails *)

Section pipeline.
Context (E : Env).
Hypothesis Hdisk : logs_writable E.
Hypothesis Hanswers : answers_all E.

Lemma closed_within (w : world) : circuit_closed w -> within_threshold w.
Proof.
  unfold circuit_closed, within_threshold, rate_limit_count.
  destruct (error_count w "rate_limit"); cbn; intros; lia.
Qed.

Lemma embeddable_has_text (r : row) (text : value) :
  has_text E r text -> embeddable E r = true.
Proof. unfold has_text, embeddable. intros ->. reflexivity. Qed.

(** The rows of a batch all of whose rows carry a text, once embedded. *)
Lemma generate_all_embedded (batch : DataFrame) (m : string) (w : world) :
  rows batch <> [] -> has_column "metadata" batch = true ->
  NoDup (labels batch) ->
  Forall (fun ir => exists s, has_text E ir.2 (VStr s)) (rows batch) ->
  circuit_closed w ->
  exists out w',
    generate_embeddings_and_add_to_df E batch m w = (Ok out, w')
    /\ circuit_closed w'
    /\ has_column "embedding_status" out = true
    /\ Forall2 (fun ir ir' =>
                  same_record ir ir' /\ tagged_success ir'.2
                  /\ holds_embedding ir'.2)
               (rows batch) (rows out).
Proof.
  intros Hrows Hmeta Hnd Htext Hclosed.
  assert (Hempty : df_empty batch = false).
  { unfold df_empty. destruct (rows batch); [congruence|].
    apply bool_decide_eq_true in Hmeta.
    destruct (columns batch); [inversion Hmeta|reflexivity]. }
  destruct (generate_all_answered E batch m w Hempty Hmeta Hnd Hdisk Hanswers)
    as (out & w' & Hrun & Hclosed' & Htags); [|exact Hclosed|].
  { eapply Forall_impl; [exact Htext|]. intros ir H. right. exact H. }
  exists out, w'. split; [exact Hrun|]. split; [exact Hclosed'|].
  assert (Hres : result (generate_embeddings_and_add_to_df E batch m) w = Ok out)
    by (unfold result; rewrite Hrun; reflexivity).
  pose proof (generate_same_records E batch m w out Hempty Hmeta Hres) as Hsame.
  split.
  - destruct (generate_shape E batch m w out Hres) as [Hc|Hnil]; [exact Hc|].
    apply Forall2_length in Hsame. rewrite Hnil in Hsame.
    destruct (rows batch); [congruence|discriminate].
  - clear Hrun Hres Hrows Hnd. revert Hsame Htags Htext.
    generalize (rows out). induction (rows batch) as [|ir l IH];
      intros l' Hsame Htags Htext.
    + inversion Hsame. constructor.
    + inversion Hsame as [|? ir' ? l2 Hs Hsl]; subst.
      inversion Htags as [|? ? ? ? [_ Ht] Htl]; subst.
      inversion Htext as [|? ? [s Hs0] Hxl]; subst.
      rewrite (embeddable_has_text _ _ Hs0) in Ht.
      constructor; [tauto|]. apply IH; assumption.
Qed.

(** One turn of the batch loop on such a batch. *)
Lemma process_batch_all_embedded (i : nat) (batch : DataFrame) (total : nat)
    (m : string) (processed : DataFrame) (pause : Q) (w : world)
    (led : ledger) :
  rows batch <> [] -> has_column "metadata" batch = true ->
  NoDup (labels batch) ->
  Forall (fun ir => exists s, has_text E ir.2 (VStr s)) (rows batch) ->
  circuit_closed w ->
  exists sr pause' w' led',
    process_batch E i batch total m processed pause (w, led)
    = (Ok (pd_concat processed sr, pause'), (w', led'))
    /\ circuit_closed w'
    /\ upserts led' = upserts led
    /\ has_column "embedding_status" sr = true
    /\ Forall2 (fun ir ir' =>
                  same_record ir ir' /\ tagged_success ir'.2
                  /\ holds_embedding ir'.2)
               (rows batch) (rows sr).
Proof.
  intros Hrows Hmeta Hnd Htext Hclosed.
  destruct (generate_all_embedded batch m w Hrows Hmeta Hnd Htext Hclosed)
    as (out & w1 & Hrun & Hclosed1 & Hcol & Hf2).
  assert (Hall : List.filter
                   (fun ir : Z * row => str_eq (cell ir.2 "embedding_status") "success")
                   (rows out) = rows out).
  { apply filter_all. clear -Hf2.
    induction Hf2 as [|ir ir' l l' (_ & Ht & _) _ IH]; constructor; [|exact IH].
    unfold tagged_success in Ht. unfold cell. rewrite Ht. reflexivity. }
  set (sr := filter_rows (fun r => str_eq (cell r "embedding_status") "success") out).
  assert (Hsr_rows : rows sr = rows out) by exact Hall.
  assert (Hsr_empty : df_empty sr = false).
  { unfold df_empty. rewrite Hsr_rows.
    pose proof (Forall2_length _ _ _ Hf2) as Hlen.
    destruct (rows out); [destruct (rows batch); [congruence|discriminate]|].
    cbn [sr filter_rows columns].
    apply bool_decide_eq_true in Hcol.
    destruct (columns out); [inversion Hcol|reflexivity]. }
  unfold process_batch, try_except, bind, lift, time_time, record_batch, modify,
    of_outcome, ret. cbn [fst snd].
  rewrite Hrun. cbn [fst snd]. unfold success_rows_of. rewrite Hcol.
  fold sr. rewrite Hsr_empty. cbn [negb].
  destruct (i + batch_size <? total)%nat; cbn [fst snd];
    eexists sr, _, _, _; (split; [reflexivity|]);
    (split; [exact Hclosed1|]); (split; [reflexivity|]);
    (split; [exact Hcol|]); rewrite Hsr_rows; exact Hf2.
Qed.

(** The batch loop when every batch goes through. *)
Lemma batch_loop_all_embedded (df : DataFrame) (total : nat) (m : string) :
  has_column "metadata" df = true -> NoDup (labels df) ->
  Forall (fun ir => exists s, has_text E ir.2 (VStr s)) (rows df) ->
  forall (starts : list nat) (processed : DataFrame) (pause : Q) (w : world)
         (led : ledger),
    Forall (fun i => (i < length (rows df))%nat) starts ->
    circuit_closed w ->
    exists p' new w' led',
      batch_loop E starts df total m processed pause (w, led)
      = (Ok p', (w', led'))
      /\ rows p' = rows processed ++ new
      /\ upserts led' = upserts led
      /\ (starts <> [] \/ has_column "embedding_status" processed = true ->
          has_column "embedding_status" p' = true)
      /\ Forall2 (fun ir ir' =>
                    same_record ir ir' /\ tagged_success ir'.2
                    /\ holds_embedding ir'.2)
                 (starts ≫= batch_rows df) new.
Proof.
  intros Hmeta Hnd Htext.
  induction starts as [|i starts IH]; intros processed pause w led Hin Hclosed.
  - exists processed, [], w, led. cbn [batch_loop]. unfold ret.
    rewrite app_nil_r. split; [reflexivity|]. split; [reflexivity|].
    split; [reflexivity|]. split; [intros [H|H]; [congruence|exact H]|].
    constructor.
  - apply Forall_cons in Hin as [Hi Hin].
    set (batch := iloc i (i + batch_size) df).
    assert (Hbrows : rows batch <> []).
    { unfold batch, iloc. cbn [rows].
      replace (i + batch_size - i)%nat with batch_size by lia.
      intros Hnil. apply (f_equal length) in Hnil.
      rewrite length_take, length_drop in Hnil. unfold batch_size in Hnil.
      cbn [length] in Hnil. lia. }
    assert (Hbtext : Forall (fun ir => exists s, has_text E ir.2 (VStr s))
                            (rows batch)).
    { unfold batch, iloc. cbn [rows]. apply Forall_take, Forall_drop, Htext. }
    destruct (process_batch_all_embedded i batch total m processed pause w led
                Hbrows Hmeta (iloc_distinct_labels i (i + batch_size) df Hnd)
                Hbtext Hclosed)
      as (sr & pause' & w1 & led1 & Hrun & Hclosed1 & Hup1 & Hcol1 & Hf1).
    destruct (IH (pd_concat processed sr) pause' w1 led1 Hin Hclosed1)
      as (p' & new & w' & led' & Hloop & Hrows & Hup & Hcol & Hf).
    exists p', (rows sr ++ new), w', led'.
    split.
    { cbn [batch_loop]. unfold bind at 1, lift. cbn [fst snd].
      rewrite (consult_threshold_ten w (closed_within w Hclosed)).
      cbn [negb fst snd]. unfold bind. fold batch. rewrite Hrun.
      cbn [fst snd]. exact Hloop. }
    split; [rewrite Hrows; cbn [pd_concat rows]; rewrite app_assoc; reflexivity|].
    split; [rewrite Hup; exact Hup1|].
    split.
    { intros _. apply Hcol. right. apply pd_concat_status, Hcol1. }
    cbn [mbind list_bind]. change (list_bind _ _ (batch_rows df) starts)
      with (starts ≫= batch_rows df).
    apply Forall2_app; [exact Hf1|exact Hf].
Qed.

(** A cleaned record handed to the loop leads to a request when the
    content of the row it was cleaned from is a string. *)
Lemma cleaned_record_has_text (ir : Z * row) (s : string) :
  cell ir.2 "content" = VStr s -> content_missing ir.2 = false ->
  decodes_back E (metadata_object ir.2) ->
  has_text E (cleaned_record E ir).2 (VStr s).
Proof.
  intros Hs Hmiss Hback. unfold has_text.
  rewrite (cleaned_record_decodes E ir Hback). unfold decoded_content.
  rewrite Hs. unfold content_missing in Hmiss. unfold cell in Hs.
  destruct (ir.2 !! "content") as [v|]; [|discriminate Hmiss].
  cbn in Hs. subst v. cbn.
  destruct (String.eqb s "") eqn:Heq; [|reflexivity].
  apply String.eqb_eq in Heq. subst s. discriminate Hmiss.
Qed.

(** When nothing fails, the refresh hands every row of the export that has
    a content to the index, once, in the order of the file: the frame
    handed over has one record for each such row, under its label, with
    the row's id as a string, the JSON text of its link and content as
    metadata, an embedding, and no bookkeeping cell.  Nothing fails when
    the log files can be written, the endpoint answers every request, the
    circuit is closed at the start, and the content of every such row is a
    string that [json.loads] gives back from what [json.dumps] made of
    it. *)
Theorem refresh_indexes_every_row (s : app_state) :
  circuit_closed s.1 ->
  surviving (exported_frame E) <> [] ->
  Forall (fun ir => has_string_content ir.2
                    /\ decodes_back E (metadata_object ir.2))
         (surviving (exported_frame E)) ->
  exists u,
    upserts (exec (ingestion_refresh E) s).2 = upserts s.2 ++ [u]
    /\ Forall2 (indexed_as E) (surviving (exported_frame E)) (rows u).
Proof.
  intros Hclosed Hsome Hrows.
  rewrite ingestion_refresh_ledger.
  unfold refresh_body, exported_frame in *.
  set (df := import_csv E _ csv_file 2000) in *.
  assert (Hcols : columns df = ["id"; "tiny_link"; "content"])
    by (apply import_csv_columns; reflexivity).
  assert (Hempty : df_empty df = false).
  { unfold df_empty. rewrite Hcols. unfold surviving in Hsome.
    destruct (rows df); [contradiction Hsome; reflexivity|reflexivity]. }
  rewrite Hempty. destruct s as [w led]. cbn [fst snd] in *.
  unfold exec, bind at 1, ret at 1. cbn [fst snd].
  rewrite (clean_with_required_columns E df).
  2:{ rewrite Hcols. intros c Hin. exact Hin. }
  2:{ rewrite Hcols. intros Hin.
      repeat (apply elem_of_cons in Hin as [Heq|Hin]; [discriminate Heq|]).
      inversion Hin. }
  unfold bind at 1, of_outcome at 1. cbn [fst snd].
  set (cleaned := mkDataFrame ["id"; "metadata"] (cleaned_record E <$> surviving df)).
  assert (Htext : Forall (fun ir => exists s, has_text E ir.2 (VStr s))
                         (rows cleaned)).
  { cbn [cleaned rows]. apply Forall_fmap.
    apply Forall_forall. intros ir Hin.
    destruct (proj1 (Forall_forall _ _) Hrows ir Hin) as [[s0 Hs0] Hback].
    exists s0. apply cleaned_record_has_text; [exact Hs0| |exact Hback].
    apply list_elem_of_In, filter_In in Hin as [_ Hin].
    apply negb_true_iff in Hin. exact Hin. }
  destruct (batch_loop_all_embedded cleaned (length (rows cleaned))
              model_for_openai_embedding eq_refl
              (surviving_distinct_labels E df (import_csv_distinct_labels E _ _ _))
              Htext (py_range (length (rows cleaned)) batch_size)
              (empty_frame ["id"; "metadata"; "values"]) 2 w led
              (batches_start_inside (length (rows cleaned))) Hclosed)
    as (p' & new & w' & led' & Hloop & Hprows & Hup & Hcol & Hf).
  rewrite batches_cover in Hf. cbn [empty_frame rows app] in Hprows.
  unfold bind. rewrite Hloop. cbn [fst snd].
  assert (Hne : py_range (length (rows cleaned)) batch_size <> []).
  { intros Hnil. pose proof (batches_cover cleaned) as Hc. rewrite Hnil in Hc.
    cbn in Hc. apply (f_equal length) in Hc. rewrite length_fmap in Hc.
    destruct (surviving df); [contradiction Hsome; reflexivity|discriminate Hc]. }
  pose proof (Hcol (or_introl Hne)) as Hstatus.
  assert (Hpe : df_empty p' = false).
  { unfold df_empty. rewrite Hprows.
    pose proof (Forall2_length _ _ _ Hf) as Hlen. cbn [cleaned rows] in Hlen.
    rewrite length_fmap in Hlen.
    destruct new; [destruct (surviving df); [contradiction Hsome; reflexivity|discriminate Hlen]|].
    apply bool_decide_eq_true in Hstatus.
    destruct (columns p'); [inversion Hstatus|reflexivity]. }
  unfold upsert_processed. rewrite Hpe, Hstatus. cbn [negb].
  exists (drop_column "embedding_status" p').
  split.
  { unfold try_except, upsert_data. cbn [fst snd].
    destruct (upsert_ok E _); cbn [fst snd upserts].
    - rewrite Hup. reflexivity.
    - rewrite lift_then_ret_ledger. cbn [snd upserts]. rewrite Hup. reflexivity. }
  cbn [drop_column rows]. rewrite Hprows. cbn [cleaned rows] in Hf.
  apply Forall2_fmap_l in Hf. apply Forall2_fmap_r.
  eapply Forall2_impl; [exact Hf|].
  intros ir ir' ([Hlab Hsame] & Htag & [l Hval]). cbn [fst snd] in *.
  unfold indexed_as, compose. simpl fst. simpl snd.
  split; [exact Hlab|].
  rewrite !lookup_delete_ne by discriminate.
  rewrite (Hsame "id"), (Hsame "metadata") by discriminate.
  unfold cleaned_record. cbn [snd].
  rewrite lookup_insert_eq, lookup_insert_ne, lookup_singleton_eq by discriminate.
  split; [reflexivity|]. split; [reflexivity|].
  split; [exists l; rewrite lookup_delete_ne by discriminate; exact Hval|].
  apply lookup_delete_eq.
Qed.

End pipeline.

Lemma refresh_indexes_every_row_witness :
  let E := index_examples.answered26 in
  let s := refresh_examples.start in
  length (surviving (exported_frame E)) = 26%nat
  /\ exists u,
       upserts (exec (ingestion_refresh E) s).2 = upserts s.2 ++ [u]
       /\ Forall2 (indexed_as E) (surviving (exported_frame E)) (rows u).
Proof.
  cbn zeta. split; [vm_compute; reflexivity|].
  apply (refresh_indexes_every_row index_examples.answered26).
  - intros path. reflexivity.
  - intros n t. eexists. reflexivity.
  - vm_compute. exact I.
  - vm_compute. discriminate.
  - apply Forall_forall. intros ir Hin.
    apply list_elem_of_In, filter_In in Hin as [Hin _].
    unfold exported_frame, import_csv in Hin.
    change (read_csv index_examples.answered26 csv_file)
      with (Some refresh_examples.pages26) in Hin.
    cbn [rows frame_of_records] in Hin.
    apply list_elem_of_In, list_elem_of_lookup in Hin as [k Hk].
    do 26 (destruct k as [|k]; [injection Hk as <-; split;
                                [eexists; reflexivity|vm_compute; reflexivity]|]).
    vm_compute in Hk. discriminate Hk.
Defined.
